(** * LudvigEditor: the extension, update and git managers

    A shallow embedding of [ExtensionManifest] and [ExtensionManager] of
    [ludvigeditor.py], and the properties of their lifecycle operations;
    after them the comparison of versions of [UpdateManager] and the
    operations of [GitManager].

    Conventions of the embedding.
    - A method of the manager is a function of the manager's state and
      returns the new state beside its result; a Python exception is the
      [Raise] outcome of [result], and [try ... except Exception] is
      [try_except].  Only subclasses of [Exception] are modelled.
    - [ExtensionManifest] objects are shared between [self.extensions] and
      [self.loaded_extensions]: both maps hold references into the store
      [objects], and [toggle_extension] mutates the object in the store.
    - The maps of the manager are declared [Dict[str, ...]], but a
      manifest's [name] is whatever value the file holds: a key is any
      hashable value ([pyname]), equal keys are one key ([True == 1],
      [pykey]), and a dict keeps the key object it was first given.  A
      signal declared [pyqtSignal(str)] refuses another value than a str.
    - An exception the library raises is known by its class, and the name
      of the class stands for what [str(e)] prints in a log line; an
      exception that extension code raises is known by its message.
    - The numbers of a JSON document are integers.
    - The disk maps a path to a file.  A file written by [json.dump] holds
      the document itself ([Doc]); [json.load] gives it back.  Other files
      hold text that is not JSON ([Text]), are zip archives ([Archive])
      or cannot be opened ([Unreadable]).  A directory exists when it was
      created or when a file lies in it.
    - The editor's log, its list of views and [runJavaScript] do not
      raise, and extension code acts on the manager only through what its
      execution returns or raises.
    - The behaviour of a Python entry file is given by [python_semantics],
      the text [json.dumps] prints by [json_dumps], the text [str] gives
      for a list or a dict by [py_repr], and the two paths computed from
      Qt's standard locations are [EXT_INSTALLED] and [EXT_MANIFEST]; the
      theorems hold for all of them.
    - Paths follow [posixpath].  A text is held as its UTF-8 bytes: the
      order of two texts is the order of their bytes, which is the order of
      Python's comparison, [s[:n]] counts code points, and the text
      [str.lower] gives is the parameter [str_lower].
    - The disk has no links and keeps a file under its path as written.
      [shutil.rmtree] and the same-file test of [shutil.copy2] resolve the
      paths they are given ([normpath]); where a statement depends on how
      a path is written, the path is required to be written as it is
      resolved ([canonical]).
    - [dict] iteration follows the order of [map_to_list].
    - [str.strip] removes the ASCII white space.  A message of the log is
      given without the pictograph it starts with.
    - For [UpdateManager] and [GitManager] the parts that decide are
      embedded: the comparison of versions and the reading of the update
      file, and the git operations over an outside world that runs the
      commands ([subprocess_run]), answers the dialog ([question]) and
      holds the repositories ([get_repo_root]). *)

From Stdlib Require Import ZArith Ascii String List Sorting.Sorted DecimalString.
From stdpp Require Import base option list gmap strings sorting fin_maps.

Set Warnings "-register-all".
Set Default Proof Using "Type".
Local Open Scope list_scope.
Local Open Scope string_scope.

(** ** Python values and outcomes *)

(** What [json.load] returns. *)
Inductive json : Type :=
| JNull
| JBool (b : bool)
| JInt (z : Z)
| JStr (s : string)
| JArr (l : list json)
| JObj (items : list (string * json)).

(** Truth value of an object, as [if x] and [not x] take it. *)
Definition truthy (j : json) : bool :=
  match j with
  | JNull => false
  | JBool b => b
  | JInt z => negb (Z.eqb z 0)
  | JStr s => negb (String.eqb s "")
  | JArr l => match l with [] => false | _ => true end
  | JObj items => match items with [] => false | _ => true end
  end.

(** [d.get(key)] on the items of a dict; a later item of the same key wins,
    as in [json.load]. *)
Fixpoint dict_get (key : string) (items : list (string * json)) : option json :=
  match items with
  | [] => None
  | (k, v) :: rest =>
      match dict_get key rest with
      | Some w => Some w
      | None => if String.eqb key k then Some v else None
      end
  end.

(** [d.get(key, dflt)]. *)
Definition get_default (items : list (string * json)) (key : string) (dflt : json) : json :=
  default dflt (dict_get key items).

Inductive result (A : Type) : Type :=
| Ok (a : A)
| Raise (msg : string).
Arguments Ok {A} a.
Arguments Raise {A} msg.

(** ** Names and dicts *)

(** A hashable value [json.load] returns: what can be the key of a
    dict. *)
Inductive pyname : Type :=
| PNone
| PBool (b : bool)
| PInt (z : Z)
| PStr (s : string).

(** A key up to Python's equality of keys: [True == 1] and
    [False == 0]. *)
Inductive pykey : Type :=
| KNone
| KNum (z : Z)
| KStr (s : string).

Definition key_of (n : pyname) : pykey :=
  match n with
  | PNone => KNone
  | PBool b => KNum (if b then 1 else 0)
  | PInt z => KNum z
  | PStr s => KStr s
  end.

(** The value as a key object, unless it is a list or a dict. *)
Definition as_name (j : json) : option pyname :=
  match j with
  | JNull => Some PNone
  | JBool b => Some (PBool b)
  | JInt z => Some (PInt z)
  | JStr s => Some (PStr s)
  | JArr _ | JObj _ => None
  end.

(** [str(n)], as an f-string prints it. *)
Definition py_str (n : pyname) : string :=
  match n with
  | PNone => "None"
  | PBool b => if b then "True" else "False"
  | PInt z => NilZero.string_of_int (Z.to_int z)
  | PStr s => s
  end.

(** [isinstance(n, str)]. *)
Definition is_str (n : pyname) : bool :=
  match n with
  | PStr _ => true
  | _ => false
  end.

(** [hash(j)], where [j] is to be a key: a list or a dict is
    unhashable. *)
Definition hashable (j : json) : result pyname :=
  match as_name j with
  | Some n => Ok n
  | None => Raise "TypeError"
  end.

(** [j] where [os.path.join] wants a str. *)
Definition path_arg (j : json) : result string :=
  match j with
  | JStr s => Ok s
  | _ => Raise "TypeError"
  end.

(** [j] where a method of str is called on it. *)
Definition str_attr (j : json) : result string :=
  match j with
  | JStr s => Ok s
  | _ => Raise "AttributeError"
  end.

#[global] Instance pyname_eq_dec : EqDecision pyname.
Proof. solve_decision. Defined.

#[global] Instance pykey_eq_dec : EqDecision pykey.
Proof. solve_decision. Defined.

#[global] Instance pykey_countable : Countable pykey.
Proof.
  refine (inj_countable'
            (fun k => match k with
                      | KNone => inl tt
                      | KNum z => inr (inl z)
                      | KStr s => inr (inr s)
                      end)
            (fun x => match x with
                      | inl _ => KNone
                      | inr (inl z) => KNum z
                      | inr (inr s) => KStr s
                      end) _).
  by intros [].
Defined.

(** A dict: under each key the key object it was first given and the
    value. *)
Abbreviation pydict V := (gmap pykey (pyname * V)).

Section Dict.

Context {V : Type}.

(** [d.get(n)]. *)
Definition getitem (d : pydict V) (n : pyname) : option V :=
  snd <$> d !! key_of n.

(** [d[n] = v]: an equal key that is there keeps its key object. *)
Definition setitem (n : pyname) (v : V) (d : pydict V) : pydict V :=
  <[key_of n := (default n (fst <$> d !! key_of n), v)]> d.

(** [del d[n]], if [n] is a key. *)
Definition delitem (n : pyname) (d : pydict V) : pydict V :=
  delete (key_of n) d.

(** [list(d.items())]. *)
Definition items (d : pydict V) : list (pyname * V) := (map_to_list d).*2.

End Dict.

(** ** Strings and paths *)

(** [s.endswith(suffix)]. *)
Definition endswith (s suffix : string) : bool :=
  String.prefix (String.rev suffix) (String.rev s).

(** [s.startswith(p)]. *)
Definition startswith (s p : string) : bool := String.prefix p s.

(** A byte that continues a code point of a UTF-8 text. *)
Definition is_continuation (c : ascii) : bool :=
  let n := nat_of_ascii c in (128 <=? n)%nat && (n <? 192)%nat.

(** [s[:n]]: the first [n] code points. *)
Fixpoint take_codepoints (n : nat) (s : string) : string :=
  match s with
  | EmptyString => EmptyString
  | String c r =>
      if is_continuation c then String c (take_codepoints n r)
      else match n with
           | O => EmptyString
           | S k => String c (take_codepoints k r)
           end
  end.

(** [s.replace(a, b)] for single characters. *)
Fixpoint replace_char (a b : ascii) (s : string) : string :=
  match s with
  | EmptyString => EmptyString
  | String c r => String (if Ascii.eqb c a then b else c) (replace_char a b r)
  end.

(** [s.split(sep)], for a separator of one character. *)
Fixpoint split_char (sep : ascii) (s : string) : list string :=
  match s with
  | EmptyString => [EmptyString]
  | String c r =>
      if Ascii.eqb c sep then EmptyString :: split_char sep r
      else match split_char sep r with
           | part :: parts => String c part :: parts
           | [] => [String c EmptyString]
           end
  end.

(** One more component on the way through a path; [stack] holds the
    components so far, the last one first. *)
Definition walk (absolute : bool) (stack : list string) (comp : string)
  : list string :=
  if String.eqb comp "" || String.eqb comp "." then stack
  else if String.eqb comp ".." then
    match stack with
    | [] => if absolute then [] else [comp]
    | top :: rest => if String.eqb top ".." then comp :: stack else rest
    end
  else comp :: stack.

(** The path as the system resolves it on a disk without links: what
    [os.path.normpath] makes of it, with one slash for any number of
    leading ones. *)
Definition normpath (p : string) : string :=
  let absolute := startswith p "/" in
  let comps := rev (fold_left (walk absolute) (split_char "/" p) []) in
  let path := (if absolute then "/" else "") ++ String.concat "/" comps in
  if String.eqb path "" then "." else path.


(** [os.path.join(a, b)]. *)
Definition path_join (a b : string) : string :=
  if startswith b "/" then b
  else if String.eqb a "" || endswith a "/" then a ++ b
  else a ++ "/" ++ b.

(** Drop the characters after the last slash of a reversed path. *)
Fixpoint drop_basename (rev_path : string) : string :=
  match rev_path with
  | EmptyString => EmptyString
  | String c r => if Ascii.eqb c "/" then rev_path else drop_basename r
  end.

Fixpoint lstrip_slash (s : string) : string :=
  match s with
  | String c r => if Ascii.eqb c "/" then lstrip_slash r else s
  | EmptyString => EmptyString
  end.

(** [os.path.dirname(p)]: the head up to the last slash, without its
    trailing slashes unless it consists of slashes only. *)
Definition dirname (p : string) : string :=
  let head := drop_basename (String.rev p) in
  match lstrip_slash head with
  | EmptyString => String.rev head
  | stripped => String.rev stripped
  end.

(** The characters before the first slash of a reversed path, reversed
    back: the part of the path behind its last slash. *)
Fixpoint take_basename (rev_path acc : string) : string :=
  match rev_path with
  | EmptyString => acc
  | String c r => if Ascii.eqb c "/" then acc else take_basename r (String c acc)
  end.

(** [os.path.basename(p)]. *)
Definition basename (p : string) : string := take_basename (String.rev p) "".

(** Split a reversed file name at its first dot: the reversed root and
    the extension with its dot. *)
Fixpoint split_last_dot (rev_name ext : string) : option (string * string) :=
  match rev_name with
  | EmptyString => None
  | String c r =>
      if Ascii.eqb c "." then Some (r, String c ext)
      else split_last_dot r (String c ext)
  end.

Fixpoint only_dots (s : string) : bool :=
  match s with
  | EmptyString => true
  | String c r => Ascii.eqb c "." && only_dots r
  end.

(** [os.path.splitext(filename)] for a name without slashes: the extension
    starts at the last dot unless only dots precede it. *)
Definition splitext (filename : string) : string * string :=
  match split_last_dot (String.rev filename) "" with
  | Some (rev_root, ext) =>
      if only_dots rev_root then (filename, "") else (String.rev rev_root, ext)
  | None => (filename, "")
  end.

(** [s[n:]]. *)
Definition drop_chars (n : nat) (s : string) : string :=
  String.substring n (String.length s - n) s.

(** ** The disk *)

(** A member of a zip archive. *)
Inductive member : Type :=
| MText (s : string)
| MDoc (j : json).

Inductive file : Type :=
| Unreadable
| Text (s : string)
| Doc (j : json)
| Archive (members : list (string * member)).

Record Disk : Type := {
  files : gmap string file;
  (** directories that were created as such; a directory that holds a
      file exists without being listed *)
  dirs : gset string;
  (** paths that cannot be opened for writing *)
  readonly : gset string
}.

(** [with open(path, 'r') as f: json.load(f)]. *)
Definition read_json (d : Disk) (path : string) : result json :=
  match files d !! path with
  | Some (Doc j) => Ok j
  | Some (Text _) => Raise "JSONDecodeError"
  | Some (Archive _) => Raise "UnicodeDecodeError"
  | Some Unreadable => Raise "OSError"
  | None => Raise "FileNotFoundError"
  end.

(** [with open(path, 'w') as f: json.dump(data, f, ...)]. *)
Definition write_json (d : Disk) (path : string) (data : json) : result unit * Disk :=
  if decide (path ∈ readonly d) then (Raise "PermissionError", d)
  else (Ok tt, {| files := <[path := Doc data]> (files d); dirs := dirs d;
                  readonly := readonly d |}).

(** [k] lies in the directory [dir]. *)
Definition under (dir k : string) : bool := startswith k (dir ++ "/").

(** [os.path.isfile(p)] and [os.path.isdir(p)]. *)
Definition isfile (d : Disk) (p : string) : bool :=
  bool_decide (is_Some (files d !! p)).

Definition isdir (d : Disk) (p : string) : bool :=
  bool_decide (p ∈ dirs d)
  || existsb (fun kv => under p kv.1) (map_to_list (files d)).

(** [os.path.exists(p)]. *)
Definition path_exists (d : Disk) (p : string) : bool := isfile d p || isdir d p.

(** [k] is [dir] or lies in it, where the root holds every absolute
    path. *)
Definition inside (dir k : string) : bool :=
  String.eqb k dir || under dir k || (String.eqb dir "/" && startswith k "/").

(** The same for the two paths as they are written or as they are
    resolved. *)
Definition in_tree (dir k : string) : bool :=
  inside dir k || inside (normpath dir) (normpath k).

(** [shutil.rmtree(dir, ignore_errors=True)]. *)
Definition rmtree (d : Disk) (dir : string) : Disk :=
  {| files := filter (fun kv => in_tree dir kv.1 = false) (files d);
     dirs := filter (fun k => in_tree dir k = false) (dirs d);
     readonly := readonly d |}.

(** [shutil.rmtree(dir)]: it raises unless [dir] is a directory. *)
Definition rmtree_strict (d : Disk) (dir : string) : result unit * Disk :=
  if isfile d dir then (Raise "NotADirectoryError", d)
  else (Ok tt, rmtree d dir).

(** [os.makedirs(dir, exist_ok=True)]. *)
Definition makedirs (d : Disk) (dir : string) : result unit * Disk :=
  if isfile d dir then (Raise "FileExistsError", d)
  else (Ok tt, {| files := files d; dirs := {[dir]} ∪ dirs d;
                  readonly := readonly d |}).

(** The files below [src], placed below [dst]. *)
Definition moved_below (d : Disk) (src dst : string) : list (string * file) :=
  omap (fun kv => if under src kv.1
                  then Some (dst ++ drop_chars (String.length src) kv.1, kv.2)
                  else None)
       (map_to_list (files d)).

(** Write a list of files. *)
Definition write_all (d : Disk) (fs : list (string * file)) : result unit * Disk :=
  if existsb (fun kv => bool_decide (kv.1 ∈ readonly d)) fs
  then (Raise "PermissionError", d)
  else (Ok tt, {| files := foldr (fun kv acc => <[kv.1 := kv.2]> acc) (files d) fs;
                  dirs := dirs d; readonly := readonly d |}).

(** [shutil.copytree(src, dst)]: [src] must be a directory and [dst] must
    not exist. *)
Definition copytree (d : Disk) (src dst : string) : result unit * Disk :=
  if negb (isdir d src) then (Raise "NotADirectoryError", d)
  else if path_exists d dst then (Raise "FileExistsError", d)
  else
    let below := filter (fun k => under src k = true) (dirs d) in
    let made : gset string :=
      {[dst]} ∪ set_map (fun k => dst ++ drop_chars (String.length src) k) below in
    write_all {| files := files d; dirs := made ∪ dirs d; readonly := readonly d |}
              (moved_below d src dst).

(** [os.path.samefile(p, q)] on a disk without links. *)
Definition samefile (p q : string) : bool := String.eqb (normpath p) (normpath q).

(** [shutil.copy2(src, dst)]. *)
Definition copy2 (d : Disk) (src dst : string) : result unit * Disk :=
  match files d !! src with
  | None => (Raise "FileNotFoundError", d)
  | Some Unreadable => (Raise "PermissionError", d)
  | Some f =>
      if samefile src dst then (Raise "SameFileError", d)
      else write_all d [(dst, f)]
  end.

Definition member_file (m : member) : file :=
  match m with
  | MText s => Text s
  | MDoc j => Doc j
  end.

(** [zipfile.ZipFile(zip_path).extractall(dir)]. *)
Definition extractall (d : Disk) (zip_path dir : string) : result unit * Disk :=
  match files d !! zip_path with
  | Some (Archive members) =>
      write_all d (map (fun km => (path_join dir km.1, member_file km.2)) members)
  | Some _ => (Raise "BadZipFile", d)
  | None => (Raise "FileNotFoundError", d)
  end.

(** The directories [os.walk(top)] visits that hold a [package.json]. *)
Definition walk_package_roots (d : Disk) (top : string) : list string :=
  omap (fun kv => if under top kv.1 && String.eqb (basename kv.1) "package.json"
                  then Some (dirname kv.1) else None)
       (map_to_list (files d)).

(** The first component of a path. *)
Fixpoint first_component (s : string) : string :=
  match s with
  | EmptyString => EmptyString
  | String c r => if Ascii.eqb c "/" then EmptyString else String c (first_component r)
  end.

(** [os.listdir(dir)]. *)
Definition listdir (d : Disk) (dir : string) : list string :=
  remove_dups
    (omap (fun k => if under dir k
                    then Some (first_component (drop_chars (S (String.length dir)) k))
                    else None)
          ((map_to_list (files d)).*1 ++ elements (dirs d))%list).

(** ** ExtensionManifest *)

Inductive ext_type : Type := js | python | unknown.

Record ExtensionManifest : Type := {
  manifest_path : string;
  name : json;
  version : json;
  description : json;
  author : json;
  main : string;
  icon : json;
  enabled : json;
  dependencies : json;
  contributes : json;
  activation_events : json;
  extension_dir : string;
  type : ext_type
}.

(** What the manager writes to the console and to the editor's log, the
    signals it emits and the scripts it hands to the views. *)
Inductive event : Type :=
| Print (msg : string)
| Log (msg : string)
| extension_loaded (n : string)
| extension_unloaded (n : string)
| extension_error (n msg : string)
| extension_installed (n : string)
| extension_uninstalled (n : string)
| runJavaScript (view : nat) (code : string).

(** [ExtensionManifest(manifest_path)], that is [__init__] and [load]: the
    object, or the exception that escapes, beside what was printed. *)
Definition ExtensionManifest_load (d : Disk) (path : string)
  : result ExtensionManifest * list event :=
  let '(data, out) :=
    match read_json d path with
    | Ok j => (j, [])
    | Raise e => (JObj [], [Print ("Error loading manifest " ++ path ++ ": " ++ e)])
    end in
  match data with
  | JObj items =>
      match get_default items "main" (JStr "main.js") with
      | JStr m =>
          (Ok {| manifest_path := path;
                 name := get_default items "name" (JStr "unknown");
                 version := get_default items "version" (JStr "1.0.0");
                 description := get_default items "description" (JStr "");
                 author := get_default items "author" (JStr "Unknown");
                 main := m;
                 icon := get_default items "icon" JNull;
                 enabled := get_default items "enabled" (JBool true);
                 dependencies := get_default items "dependencies" (JObj []);
                 contributes := get_default items "contributes" (JObj []);
                 activation_events := get_default items "activationEvents" (JArr []);
                 extension_dir := dirname path;
                 type := if endswith m ".js" then js
                         else if endswith m ".py" then python
                         else unknown |}, out)
      | _ => (Raise "AttributeError", out)
      end
  | _ => (Raise "AttributeError", out)
  end.

(** The manifest [load] falls back to. *)
Definition default_manifest (path : string) : ExtensionManifest :=
  {| manifest_path := path; name := JStr "unknown"; version := JStr "1.0.0";
     description := JStr ""; author := JStr "Unknown"; main := "main.js";
     icon := JNull; enabled := JBool true; dependencies := JObj [];
     contributes := JObj []; activation_events := JArr [];
     extension_dir := dirname path; type := js |}.

(** The dict [save] serialises. *)
Definition save_data (m : ExtensionManifest) : json :=
  JObj [("name", name m); ("version", version m);
        ("description", description m); ("author", author m);
        ("main", JStr (main m)); ("icon", icon m); ("enabled", enabled m);
        ("dependencies", dependencies m); ("contributes", contributes m);
        ("activationEvents", activation_events m)].

(** [ExtensionManifest.save]. *)
Definition save (m : ExtensionManifest) (d : Disk) : bool * Disk * list event :=
  match write_json d (manifest_path m) (save_data m) with
  | (Ok _, d') => (true, d', [])
  | (Raise e, d') => (false, d', [Print ("Error saving manifest: " ++ e)])
  end.

(** [get_main_path]. *)
Definition get_main_path (m : ExtensionManifest) : string :=
  path_join (extension_dir m) (main m).

(** The dict of [to_dict], with the two keys [get_extension_list] adds. *)
Record ext_dict : Type := {
  d_name : json;
  d_version : json;
  d_description : json;
  d_author : json;
  d_enabled : json;
  d_type : ext_type;
  d_path : string;
  d_main : string;
  d_loaded : bool;
  d_has_errors : bool
}.


Definition type_str (t : ext_type) : string :=
  match t with js => "js" | python => "python" | unknown => "unknown" end.

(** [to_dict] as [save_manifest] serialises it. *)
Definition to_dict_json (m : ExtensionManifest) : json :=
  JObj [("name", name m); ("version", version m);
        ("description", description m); ("author", author m);
        ("enabled", enabled m); ("type", JStr (type_str (type m)));
        ("path", JStr (extension_dir m)); ("main", JStr (main m))].

(** ** ExtensionManager: state *)

(** A Python module after its top-level code ran: what that code and its
    two entry points do.  [None] for an entry point: the attribute is
    absent; [Some None]: the call returns; [Some (Some e)]: it raises. *)
Record PyProgram : Type := {
  exec_error : option string;
  activate : option (option string);
  deactivate : option (option string)
}.

Record ExtensionManager : Type := {
  objects : gmap nat ExtensionManifest;
  extensions : pydict nat;
  loaded_extensions : pydict nat;
  python_extensions : pydict PyProgram;
  js_extensions : pydict string;
  disk : Disk;
  (** [self.editor.get_all_views()] *)
  views : list nat;
  sys_path : list string;
  (** everything printed, logged, emitted or injected, oldest first *)
  trace : list event
}.

Definition set_objects (v : gmap nat ExtensionManifest) (st : ExtensionManager) :=
  {| objects := v; extensions := extensions st;
     loaded_extensions := loaded_extensions st;
     python_extensions := python_extensions st;
     js_extensions := js_extensions st; disk := disk st; views := views st;
     sys_path := sys_path st; trace := trace st |}.

Definition set_extensions (v : pydict nat) (st : ExtensionManager) :=
  {| objects := objects st; extensions := v;
     loaded_extensions := loaded_extensions st;
     python_extensions := python_extensions st;
     js_extensions := js_extensions st; disk := disk st; views := views st;
     sys_path := sys_path st; trace := trace st |}.

Definition set_loaded_extensions (v : pydict nat) (st : ExtensionManager) :=
  {| objects := objects st; extensions := extensions st;
     loaded_extensions := v;
     python_extensions := python_extensions st;
     js_extensions := js_extensions st; disk := disk st; views := views st;
     sys_path := sys_path st; trace := trace st |}.

Definition set_python_extensions (v : pydict PyProgram) (st : ExtensionManager) :=
  {| objects := objects st; extensions := extensions st;
     loaded_extensions := loaded_extensions st;
     python_extensions := v;
     js_extensions := js_extensions st; disk := disk st; views := views st;
     sys_path := sys_path st; trace := trace st |}.

Definition set_js_extensions (v : pydict string) (st : ExtensionManager) :=
  {| objects := objects st; extensions := extensions st;
     loaded_extensions := loaded_extensions st;
     python_extensions := python_extensions st;
     js_extensions := v; disk := disk st; views := views st;
     sys_path := sys_path st; trace := trace st |}.

Definition set_disk (v : Disk) (st : ExtensionManager) :=
  {| objects := objects st; extensions := extensions st;
     loaded_extensions := loaded_extensions st;
     python_extensions := python_extensions st;
     js_extensions := js_extensions st; disk := v; views := views st;
     sys_path := sys_path st; trace := trace st |}.

Definition set_sys_path (v : list string) (st : ExtensionManager) :=
  {| objects := objects st; extensions := extensions st;
     loaded_extensions := loaded_extensions st;
     python_extensions := python_extensions st;
     js_extensions := js_extensions st; disk := disk st; views := views st;
     sys_path := v; trace := trace st |}.

(** Append to the trace. *)
Definition out (es : list event) (st : ExtensionManager) :=
  {| objects := objects st; extensions := extensions st;
     loaded_extensions := loaded_extensions st;
     python_extensions := python_extensions st;
     js_extensions := js_extensions st; disk := disk st; views := views st;
     sys_path := sys_path st; trace := (trace st ++ es)%list |}.

(** ** Computations over the manager *)

Definition M (A : Type) : Type := ExtensionManager -> result A * ExtensionManager.

Definition ret {A} (a : A) : M A := fun st => (Ok a, st).

Definition raise {A} (msg : string) : M A := fun st => (Raise msg, st).

Definition bind {A B} (c : M A) (k : A -> M B) : M B := fun st =>
  match c st with
  | (Ok a, st') => k a st'
  | (Raise e, st') => (Raise e, st')
  end.

(** [try: c  except Exception as e: handler e]; what [c] did to the state
    before it raised stays done. *)
Definition try_except {A} (c : M A) (handler : string -> M A) : M A := fun st =>
  match c st with
  | (Ok a, st') => (Ok a, st')
  | (Raise e, st') => handler e st'
  end.

Definition gets {A} (f : ExtensionManager -> A) : M A := fun st => (Ok (f st), st).

Definition modify (f : ExtensionManager -> ExtensionManager) : M unit :=
  fun st => (Ok tt, f st).

Definition emit (e : event) : M unit := modify (out [e]).

(** [self.editor.log(msg)]. *)
Definition log (msg : string) : M unit := emit (Log msg).

Definition lift {A} (r : result A) : M A := fun st => (r, st).

Declare Scope manager_scope.
Delimit Scope manager_scope with M.
Notation "x <- c ;; k" := (bind c (fun x => k))
  (at level 100, c at next level, right associativity) : manager_scope.
Notation "c ;;; k" := (bind c (fun _ => k))
  (at level 100, right associativity) : manager_scope.
Local Open Scope manager_scope.

(** The object a reference points to. *)
Definition deref (r : nat) : M ExtensionManifest := fun st =>
  match objects st !! r with
  | Some m => (Ok m, st)
  | None => (Raise "ReferenceError", st)
  end.

(** [signal.emit(n)] for a signal declared [pyqtSignal(str)]: a value
    that is not a str is refused. *)
Definition emit_name (signal : string -> event) (n : pyname) : M unit :=
  match n with
  | PStr s => emit (signal s)
  | _ => raise "TypeError"
  end.

(** ** ExtensionManager: operations *)

Section Manager.

(** [EXT_INSTALLED] and [EXT_MANIFEST] of the configuration. *)
Variable EXT_INSTALLED : string.
Variable EXT_MANIFEST : string.
(** The text [json.dumps] prints for a value. *)
Variable json_dumps : json -> string.
(** What executing a Python source text as a module does. *)
Variable python_semantics : string -> PyProgram.
(** The directory [tempfile.mkdtemp()] creates. *)
Variable mkdtemp : Disk -> string.
(** The text [str.lower] gives. *)
Variable str_lower : string -> string.
(** The text [str] gives for a list or a dict. *)
Variable py_repr : json -> string.

(** [str(j)], as an f-string prints it. *)
Definition py_format (j : json) : string :=
  match as_name j with
  | Some n => py_str n
  | None => py_repr j
  end.

(** [with open(path, 'r') as f: f.read()]. *)
Definition read_text (d : Disk) (path : string) : result string :=
  match files d !! path with
  | Some (Text s) => Ok s
  | Some (Doc j) => Ok (json_dumps j)
  | Some (Archive _) => Raise "UnicodeDecodeError"
  | Some Unreadable => Raise "OSError"
  | None => Raise "FileNotFoundError"
  end.

(** The dict [save_manifest] builds: the registry, keyed by manifest
    path. *)
Definition registry_data (st : ExtensionManager) : json :=
  JObj (omap (fun kv => m ← objects st !! kv.2;
                        Some (manifest_path m, to_dict_json m))
             (items (extensions st))).

(** [save_manifest]. *)
Definition save_manifest : M bool := fun st =>
  match write_json (disk st) EXT_MANIFEST (registry_data st) with
  | (Ok _, d') => (Ok true, set_disk d' st)
  | (Raise e, d') =>
      (Ok false, out [Log ("Error saving manifest: " ++ e)] (set_disk d' st))
  end.

(** The wrapper [_inject_js_to_view] builds around the source. *)
Definition wrapped_code (ext_name js_code : string) : string :=
  "(function() { try { if (!window.__ludvigExtensions) { window.__ludvigExtensions = {}; } "
  ++ "window.__ludvigExtensions['" ++ ext_name ++ "'] = "
  ++ json_dumps (JStr js_code) ++ "; "
  ++ js_code
  ++ " console.log('Extension loaded: " ++ ext_name ++ "'); } catch (e) { "
  ++ "console.error('Extension error (" ++ ext_name ++ "):', e); } })();".

(** [_inject_js_to_view]. *)
Definition _inject_js_to_view (view : nat) (ext_name : pyname) (js_code : string)
  : M unit :=
  emit (runJavaScript view (wrapped_code (py_str ext_name) js_code)).

(** [for view in self.editor.get_all_views(): body view]. *)
Fixpoint for_views (vs : list nat) (body : nat -> M unit) : M unit :=
  match vs with
  | [] => ret tt
  | v :: rest => body v ;;; for_views rest body
  end.



(** [_load_js_extension]; [r] is the reference [ext] was read from. *)
Definition _load_js_extension (r : nat) (ext : ExtensionManifest) : M bool :=
  let main_path := get_main_path ext in
  d <- gets disk ;;
  if negb (path_exists d main_path) then
    log ("Main file not found: " ++ main_path) ;;; ret false
  else
    try_except
      (js_code <- lift (read_text d main_path) ;;
       n <- lift (hashable (name ext)) ;;
       modify (fun st => set_js_extensions (setitem n js_code (js_extensions st)) st) ;;;
       vs <- gets views ;;
       for_views vs (fun view => _inject_js_to_view view n js_code) ;;;
       modify (fun st => set_loaded_extensions (setitem n r (loaded_extensions st)) st) ;;;
       emit_name extension_loaded n ;;;
       log ("JS extension loaded: " ++ py_str n) ;;;
       ret true)
      (fun e => log ("Error loading JS extension: " ++ e) ;;; ret false).

(** [importlib.util.spec_from_file_location]: a loader exists for a source
    file, which a path ending in [.py] is. *)
Definition spec_from_file_location (module_name location : string) : option string :=
  if endswith location ".py" then Some location else None.

(** [spec.loader.exec_module(module)]: read the source and run its
    top-level code. *)
Definition exec_module (location : string) : M PyProgram :=
  d <- gets disk ;;
  src <- lift (read_text d location) ;;
  let module := python_semantics src in
  match exec_error module with
  | Some e => raise e
  | None => ret module
  end.

(** Call an entry point if the module has it. *)
Definition call_if_present (entry : option (option string)) : M unit :=
  match entry with
  | Some (Some e) => raise e
  | Some None => ret tt
  | None => ret tt
  end.

(** [_load_python_extension]. *)
Definition _load_python_extension (r : nat) (ext : ExtensionManifest) : M bool :=
  let main_path := get_main_path ext in
  d <- gets disk ;;
  if negb (path_exists d main_path) then
    log ("Main file not found: " ++ main_path) ;;; ret false
  else
    try_except
      (n <- lift (str_attr (name ext)) ;;
       let module_name := "ludvig_extension_" ++ replace_char "-" "_" n in
       match spec_from_file_location module_name main_path with
       | None => log ("Failed to load Python module: " ++ n) ;;; ret false
       | Some location =>
           modify (fun st =>
             if bool_decide (extension_dir ext ∈ sys_path st) then st
             else set_sys_path (extension_dir ext :: sys_path st) st) ;;;
           module <- exec_module location ;;
           call_if_present (activate module) ;;;
           modify (fun st =>
             set_python_extensions (setitem (PStr n) module (python_extensions st)) st) ;;;
           modify (fun st =>
             set_loaded_extensions (setitem (PStr n) r (loaded_extensions st)) st) ;;;
           emit (extension_loaded n) ;;;
           log ("Python extension loaded: " ++ n) ;;;
           ret true
       end)
      (fun e => log ("Error loading Python extension: " ++ e) ;;; ret false).

(** [load_extension]. *)
Definition load_extension (n : pyname) : M bool :=
  exts <- gets extensions ;;
  match getitem exts n with
  | None => log ("Extension not found: " ++ py_str n) ;;; ret false
  | Some r =>
      ext <- deref r ;;
      if negb (truthy (enabled ext)) then
        log ("Extension disabled: " ++ py_str n) ;;; ret false
      else
        loaded <- gets loaded_extensions ;;
        if bool_decide (is_Some (getitem loaded n)) then
          log ("Extension already loaded: " ++ py_str n) ;;; ret true
        else
          try_except
            (match type ext with
             | js => _load_js_extension r ext
             | python => _load_python_extension r ext
             | unknown =>
                 log ("Unknown extension type: " ++ type_str (type ext)) ;;; ret false
             end)
            (fun e =>
               log ("Error loading extension " ++ py_str n ++ ": " ++ e) ;;;
               emit_name (fun s => extension_error s e) n ;;;
               ret false)
  end.

(** The script [unload_extension] runs in every view. *)
Definition removal_code (n : string) : string :=
  "if (window.__ludvigExtensions && window.__ludvigExtensions['" ++ n ++ "']) { "
  ++ "delete window.__ludvigExtensions['" ++ n ++ "']; "
  ++ "console.log('Extension unloaded: " ++ n ++ "'); }".

(** [unload_extension]. *)
Definition unload_extension (n : pyname) : M bool :=
  loaded <- gets loaded_extensions ;;
  match getitem loaded n with
  | None => ret false
  | Some r =>
      ext <- deref r ;;
      try_except
        (match type ext with
         | js =>
             vs <- gets views ;;
             for_views vs
               (fun view => emit (runJavaScript view (removal_code (py_str n)))) ;;;
             modify (fun st => set_js_extensions (delitem n (js_extensions st)) st)
         | python =>
             mods <- gets python_extensions ;;
             match getitem mods n with
             | Some module =>
                 call_if_present (deactivate module) ;;;
                 modify (fun st =>
                   set_python_extensions (delitem n (python_extensions st)) st)
             | None => ret tt
             end
         | unknown => ret tt
         end ;;;
         modify (fun st => set_loaded_extensions (delitem n (loaded_extensions st)) st) ;;;
         emit_name extension_unloaded n ;;;
         log ("Extension unloaded: " ++ py_str n) ;;;
         ret true)
        (fun e => log ("Error unloading extension: " ++ e) ;;; ret false)
  end.

(** [ext.enabled = not ext.enabled] on the object behind [r]. *)
Definition flip_enabled (m : ExtensionManifest) : ExtensionManifest :=
  {| manifest_path := manifest_path m; name := name m; version := version m;
     description := description m; author := author m; main := main m;
     icon := icon m; enabled := JBool (negb (truthy (enabled m)));
     dependencies := dependencies m; contributes := contributes m;
     activation_events := activation_events m;
     extension_dir := extension_dir m; type := type m |}.

(** [ext.save()] inside the manager. *)
Definition save_ext (m : ExtensionManifest) : M bool := fun st =>
  let '(ok, d', printed) := save m (disk st) in
  (Ok ok, out printed (set_disk d' st)).

(** [toggle_extension]. *)
Definition toggle_extension (n : pyname) : M bool :=
  exts <- gets extensions ;;
  match getitem exts n with
  | None => ret false
  | Some r =>
      ext <- deref r ;;
      let ext' := flip_enabled ext in
      modify (fun st => set_objects (<[r := ext']> (objects st)) st) ;;;
      save_ext ext' ;;;
      success <- (if truthy (enabled ext') then load_extension n
                  else unload_extension n) ;;
      (if success then
         log ("Extension " ++ py_str n ++ " "
              ++ (if truthy (enabled ext') then "enabled" else "disabled"))
       else ret tt) ;;;
      ret success
  end.

(** [uninstall_extension]. *)
Definition uninstall_extension (n : pyname) : M bool :=
  exts <- gets extensions ;;
  match getitem exts n with
  | None => ret false
  | Some r =>
      ext <- deref r ;;
      loaded <- gets loaded_extensions ;;
      (if bool_decide (is_Some (getitem loaded n)) then unload_extension n ;;; ret tt
       else ret tt) ;;;
      let ext_dir := extension_dir ext in
      try_except
        (modify (fun st =>
           if path_exists (disk st) ext_dir && startswith ext_dir EXT_INSTALLED
           then set_disk (rmtree (disk st) ext_dir) st else st) ;;;
         modify (fun st => set_extensions (delitem n (extensions st)) st) ;;;
         modify (fun st => set_loaded_extensions (delitem n (loaded_extensions st)) st) ;;;
         modify (fun st => set_js_extensions (delitem n (js_extensions st)) st) ;;;
         modify (fun st => set_python_extensions (delitem n (python_extensions st)) st) ;;;
         save_manifest ;;;
         emit_name extension_uninstalled n ;;;
         log ("Extension uninstalled: " ++ py_str n) ;;;
         ret true)
        (fun e => log ("Error uninstalling extension: " ++ e) ;;; ret false)
  end.

(** [reload_extension]. *)
Definition reload_extension (n : pyname) : M bool :=
  exts <- gets extensions ;;
  match getitem exts n with
  | None => ret false
  | Some _ =>
      loaded <- gets loaded_extensions ;;
      let was_loaded := bool_decide (is_Some (getitem loaded n)) in
      (if was_loaded then unload_extension n ;;; ret tt else ret tt) ;;;
      exts' <- gets extensions ;;
      match getitem exts' n with
      | None => raise "KeyError"
      | Some r =>
          ext <- deref r ;;
          if truthy (enabled ext) then load_extension n else ret true
      end
  end.







(** A disk operation inside the manager. *)
Definition on_disk (op : Disk -> result unit * Disk) : M unit := fun st =>
  let '(r, d') := op (disk st) in (r, set_disk d' st).

(** [ext = ExtensionManifest(path)]: a new object in the store. *)
Definition ExtensionManifest_new (path : string) : M nat := fun st =>
  match ExtensionManifest_load (disk st) path with
  | (Ok m, printed) =>
      let r := fresh (dom (objects st)) in
      (Ok r, out printed (set_objects (<[r := m]> (objects st)) st))
  | (Raise e, printed) => (Raise e, out printed st)
  end.

(** [self.extensions[ext.name] = ext]; the name is returned. *)
Definition register (r : nat) : M pyname :=
  ext <- deref r ;;
  n <- lift (hashable (name ext)) ;;
  modify (fun st => set_extensions (setitem n r (extensions st)) st) ;;;
  ret n.

(** The common tail of the installers: register, persist the registry,
    load when enabled and signal. *)
Definition register_and_load (r : nat) : M pyname :=
  n <- register r ;;
  save_manifest ;;;
  ext <- deref r ;;
  (if truthy (enabled ext) then load_extension n ;;; ret tt else ret tt) ;;;
  emit_name extension_installed n ;;;
  ret n.

(** [install_from_folder]. *)
Definition install_from_folder (folder_path : string) : M bool :=
  let manifest_path := path_join folder_path "package.json" in
  d <- gets disk ;;
  if negb (path_exists d manifest_path) then
    log ("No package.json found in " ++ folder_path) ;;; ret false
  else
    try_except
      (manifest_data <- lift (read_json d manifest_path) ;;
       items <- match manifest_data with
                | JObj items => ret items
                | _ => raise "AttributeError"
                end ;;
       ext_name <- lift (path_arg (get_default items "name" (JStr (basename folder_path)))) ;;
       let dest_dir := path_join EXT_INSTALLED ext_name in
       d1 <- gets disk ;;
       (if path_exists d1 dest_dir then on_disk (fun d => rmtree_strict d dest_dir)
        else ret tt) ;;;
       on_disk (fun d => copytree d folder_path dest_dir) ;;;
       let new_manifest_path := path_join dest_dir "package.json" in
       r <- ExtensionManifest_new new_manifest_path ;;
       n <- register_and_load r ;;
       ext <- deref r ;;
       log ("Extension installed: " ++ py_str n ++ " v"
            ++ py_format (version ext)) ;;;
       ret true)
      (fun e => log ("Error installing from folder: " ++ e) ;;; ret false).

(** The manifest the single-file installers write. *)
Definition basic_manifest (kind n main_name : string) : json :=
  JObj [("name", JStr n); ("version", JStr "1.0.0");
        ("description", JStr (kind ++ " extension: " ++ n));
        ("main", JStr main_name); ("author", JStr "Unknown");
        ("enabled", JBool true);
        ("contributes", JObj [("commands", JArr []); ("menus", JObj []);
                              ("views", JObj [])])].

(** [_create_js_extension]. *)
Definition _create_js_extension (n js_path : string) : M bool :=
  try_except
    (let ext_dir := path_join EXT_INSTALLED n in
     on_disk (fun d => makedirs d ext_dir) ;;;
     d <- gets disk ;;
     js_code <- lift (read_text d js_path) ;;
     let manifest := basic_manifest "JavaScript" n (basename js_path) in
     let manifest_path := path_join ext_dir "package.json" in
     on_disk (fun d => write_json d manifest_path manifest) ;;;
     on_disk (fun d => copy2 d js_path (path_join ext_dir (basename js_path))) ;;;
     r <- ExtensionManifest_new manifest_path ;;
     k <- register_and_load r ;;
     log ("JS extension installed: " ++ py_str k) ;;;
     ret true)
    (fun e => log ("Error creating JS extension: " ++ e) ;;; ret false).

(** [_create_python_extension]. *)
Definition _create_python_extension (n py_path : string) : M bool :=
  try_except
    (let ext_dir := path_join EXT_INSTALLED n in
     on_disk (fun d => makedirs d ext_dir) ;;;
     let manifest := basic_manifest "Python" n (basename py_path) in
     let manifest_path := path_join ext_dir "package.json" in
     on_disk (fun d => write_json d manifest_path manifest) ;;;
     on_disk (fun d => copy2 d py_path (path_join ext_dir (basename py_path))) ;;;
     r <- ExtensionManifest_new manifest_path ;;
     k <- register_and_load r ;;
     log ("Python extension installed: " ++ py_str k) ;;;
     ret true)
    (fun e => log ("Error creating Python extension: " ++ e) ;;; ret false).

(** [install_single_file]. *)
Definition install_single_file (file_path : string) : M bool :=
  let filename := basename file_path in
  let '(stem, ext) := splitext filename in
  let n := take_codepoints 50 (replace_char "." "_" (replace_char " " "_" stem)) in
  if String.eqb (str_lower ext) ".js" then _create_js_extension n file_path
  else if String.eqb (str_lower ext) ".py" then _create_python_extension n file_path
  else log ("Unsupported file type: " ++ ext) ;;; ret false.

(** The loop of [install_from_zip] over the directories of the walk. *)
Fixpoint try_roots (zip_path : string) (roots : list string) : M bool :=
  match roots with
  | [] => log ("No package.json found in ZIP: " ++ zip_path) ;;; ret false
  | root :: rest =>
      success <- install_from_folder root ;;
      if success then
        log ("Extension installed from ZIP: " ++ zip_path) ;;; ret true
      else try_roots zip_path rest
  end.

(** [install_from_zip]; the [finally] clause removes the scratch
    directory on every path. *)
Definition install_from_zip (zip_path : string) : M bool :=
  d <- gets disk ;;
  let temp_dir := mkdtemp d in
  on_disk (fun d => makedirs d temp_dir) ;;;
  res <- try_except
           (on_disk (fun d => extractall d zip_path temp_dir) ;;;
            d1 <- gets disk ;;
            try_roots zip_path (walk_package_roots d1 temp_dir))
           (fun e => log ("Error extracting ZIP: " ++ e) ;;; ret false) ;;
  modify (fun st => set_disk (rmtree (disk st) temp_dir) st) ;;;
  ret res.

(** [install_extension]. *)
Definition install_extension (path : string) : M bool :=
  try_except
    (d <- gets disk ;;
     if isfile d path && endswith path ".zip" then install_from_zip path
     else if isfile d path then install_single_file path
     else if isdir d path then install_from_folder path
     else log ("Invalid path: " ++ path) ;;; ret false)
    (fun e => log ("Installation failed: " ++ e) ;;; ret false).

(** The loop of [load_manifest] over the paths of the registry file. *)
Fixpoint load_manifest_paths (paths : list string) : M unit :=
  match paths with
  | [] => ret tt
  | ext_path :: rest =>
      d <- gets disk ;;
      (if path_exists d ext_path then
         r <- ExtensionManifest_new ext_path ;; register r ;;; ret tt
       else ret tt) ;;;
      load_manifest_paths rest
  end.

(** [load_manifest]. *)
Definition load_manifest : M unit :=
  d <- gets disk ;;
  if path_exists d EXT_MANIFEST then
    try_except
      (data <- lift (read_json d EXT_MANIFEST) ;;
       match data with
       | JObj items => load_manifest_paths (map fst items)
       | _ => raise "AttributeError"
       end)
      (fun e => log ("Error loading manifest: " ++ e))
  else ret tt.

(** The loop of [scan_extensions] over the entries of the directory. *)
Fixpoint scan_items (items : list string) : M unit :=
  match items with
  | [] => ret tt
  | item :: rest =>
      let ext_path := path_join EXT_INSTALLED item in
      let manifest_path := path_join ext_path "package.json" in
      d <- gets disk ;;
      (if path_exists d manifest_path then
         try_except
           (r <- ExtensionManifest_new manifest_path ;;
            n <- register r ;;
            ext <- deref r ;;
            log ("Found extension: " ++ py_str n ++ " v"
                 ++ py_format (version ext)) ;;;
            if truthy (enabled ext) then load_extension n ;;; ret tt else ret tt)
           (fun e => log ("Error loading extension " ++ manifest_path ++ ": " ++ e))
       else ret tt) ;;;
      scan_items rest
  end.

(** [scan_extensions]. *)
Definition scan_extensions : M unit :=
  d <- gets disk ;;
  if negb (path_exists d EXT_INSTALLED) then ret tt
  else scan_items (listdir d EXT_INSTALLED) ;;; save_manifest ;;; ret tt.

(** [reload_all_extensions]. *)
Fixpoint unload_all (names : list pyname) : M unit :=
  match names with
  | [] => ret tt
  | n :: rest => unload_extension n ;;; unload_all rest
  end.

Fixpoint load_enabled (registered : list (pyname * nat)) : M unit :=
  match registered with
  | [] => ret tt
  | (n, r) :: rest =>
      ext <- deref r ;;
      (if truthy (enabled ext) then load_extension n ;;; ret tt else ret tt) ;;;
      load_enabled rest
  end.

Definition reload_all_extensions : M unit :=
  loaded <- gets loaded_extensions ;;
  unload_all (items loaded).*1 ;;;
  exts <- gets extensions ;;
  load_enabled (items exts).

(** [ExtensionManager.__init__] for an editor with the given disk and
    views. *)
Definition fresh_manager (d : Disk) (vs : list nat) (path : list string)
  : ExtensionManager :=
  {| objects := ∅; extensions := ∅; loaded_extensions := ∅;
     python_extensions := ∅; js_extensions := ∅; disk := d; views := vs;
     sys_path := path; trace := [] |}.

Definition init (d : Disk) (vs : list nat) (path : list string) : ExtensionManager :=
  ((load_manifest ;;; scan_extensions) (fresh_manager d vs path)).2.

End Manager.

(** ** States of a running manager *)

(** What the registering and loading sites establish: under a key lies
    a key object of that key and a reference to an object whose name has
    that key, and a loaded key is registered.  The names are of any
    hashable kind. *)
Definition names_object (st : ExtensionManager) (refs : pydict nat) : Prop :=
  forall k key r, refs !! k = Some (key, r) ->
    key_of key = k
    /\ exists m n, objects st !! r = Some m /\ as_name (name m) = Some n
                   /\ key_of n = k.

Record consistent (st : ExtensionManager) : Prop := {
  registered_named : names_object st (extensions st);
  loaded_named : names_object st (loaded_extensions st);
  loaded_registered :
    forall k, is_Some (loaded_extensions st !! k) -> is_Some (extensions st !! k)
}.

(** The editor and the world around it: files change, views open and
    close, the module search path is edited. *)
Definition world (d : Disk) (vs : list nat) (path : list string)
    (st : ExtensionManager) : ExtensionManager :=
  {| objects := objects st; extensions := extensions st;
     loaded_extensions := loaded_extensions st;
     python_extensions := python_extensions st;
     js_extensions := js_extensions st; disk := d; views := vs;
     sys_path := path; trace := trace st |}.

Section Reachable.

Variable EXT_INSTALLED : string.
Variable EXT_MANIFEST : string.
Variable json_dumps : json -> string.
Variable python_semantics : string -> PyProgram.
Variable mkdtemp : Disk -> string.
Variable str_lower : string -> string.
Variable py_repr : json -> string.

(** The public operations of the manager; a name is any hashable
    value. *)
Inductive operation : Type :=
| op_load (n : pyname)
| op_unload (n : pyname)
| op_toggle (n : pyname)
| op_reload (n : pyname)
| op_reload_all
| op_uninstall (n : pyname)
| op_install (path : string)
| op_install_from_zip (path : string)
| op_install_single_file (path : string)
| op_install_from_folder (path : string)
| op_scan
| op_save_manifest.

Definition run (op : operation) (st : ExtensionManager) : ExtensionManager :=
  match op with
  | op_load n => (load_extension json_dumps python_semantics n st).2
  | op_unload n => (unload_extension n st).2
  | op_toggle n => (toggle_extension json_dumps python_semantics n st).2
  | op_reload n => (reload_extension json_dumps python_semantics n st).2
  | op_reload_all => (reload_all_extensions json_dumps python_semantics st).2
  | op_uninstall n => (uninstall_extension EXT_INSTALLED EXT_MANIFEST n st).2
  | op_install path =>
      (install_extension EXT_INSTALLED EXT_MANIFEST json_dumps python_semantics
         mkdtemp str_lower py_repr path st).2
  | op_install_from_zip path =>
      (install_from_zip EXT_INSTALLED EXT_MANIFEST json_dumps python_semantics
         mkdtemp py_repr path st).2
  | op_install_single_file path =>
      (install_single_file EXT_INSTALLED EXT_MANIFEST json_dumps python_semantics
         str_lower path st).2
  | op_install_from_folder path =>
      (install_from_folder EXT_INSTALLED EXT_MANIFEST json_dumps python_semantics py_repr
         path st).2
  | op_scan =>
      (scan_extensions EXT_INSTALLED EXT_MANIFEST json_dumps python_semantics py_repr st).2
  | op_save_manifest => (save_manifest EXT_MANIFEST st).2
  end.

(** The states a manager goes through: constructed on some disk, then
    operated on while the world changes. *)
Inductive reachable : ExtensionManager -> Prop :=
| reach_init d vs path :
    reachable (init EXT_INSTALLED EXT_MANIFEST json_dumps python_semantics py_repr d vs path)
| reach_run op st : reachable st -> reachable (run op st)
| reach_world d vs path st : reachable st -> reachable (world d vs path st).

End Reachable.

(** ** More strings *)

(** A character [str.strip] removes (the ASCII ones). *)
Definition is_space (c : ascii) : bool :=
  let n := nat_of_ascii c in
  ((9 <=? n)%nat && (n <=? 13)%nat) || ((28 <=? n)%nat && (n <=? 32)%nat).

(** [s.lstrip()], for the characters [p] accepts. *)
Fixpoint lstrip_by (p : ascii -> bool) (s : string) : string :=
  match s with
  | String c r => if p c then lstrip_by p r else s
  | EmptyString => EmptyString
  end.

(** [s.rstrip()], for the characters [p] accepts. *)
Fixpoint rstrip_by (p : ascii -> bool) (s : string) : string :=
  match s with
  | EmptyString => EmptyString
  | String c r =>
      match rstrip_by p r with
      | EmptyString => if p c then EmptyString else String c EmptyString
      | kept => String c kept
      end
  end.

(** [s.strip()]. *)
Definition strip (s : string) : string :=
  rstrip_by is_space (lstrip_by is_space s).

(** [c in s], for a character. *)
Fixpoint contains_char (c : ascii) (s : string) : bool :=
  match s with
  | EmptyString => false
  | String x r => Ascii.eqb x c || contains_char c r
  end.

(** [s.lstrip(chars)]. *)
Definition lstrip_chars (chars s : string) : string :=
  lstrip_by (fun c => contains_char c chars) s.

(** [s.split(sep, maxsplit)]. *)
Fixpoint split_max (sep : ascii) (maxsplit : nat) (s : string) : list string :=
  match maxsplit with
  | O => [s]
  | S k =>
      match s with
      | EmptyString => [EmptyString]
      | String c r =>
          if Ascii.eqb c sep then EmptyString :: split_max sep k r
          else match split_max sep maxsplit r with
               | part :: parts => String c part :: parts
               | [] => [String c EmptyString]
               end
      end
  end.

(** [s[:n]]. *)
Definition take_chars (n : nat) (s : string) : string := String.substring 0 n s.

(** The line feed. *)
Definition LF : ascii := ascii_of_nat 10.

(** ** UpdateManager: versions *)

(** [list(map(f, xs))] when [f] may raise: [None] as soon as one call
    does. *)
Fixpoint map_option {A B} (f : A -> option B) (l : list A) : option (list B) :=
  match l with
  | [] => Some []
  | x :: rest =>
      match f x with
      | None => None
      | Some y => match map_option f rest with
                  | None => None
                  | Some ys => Some (y :: ys)
                  end
      end
  end.

(** What the check of the update file ends in: one of the two dialogs,
    or nothing. *)
Inductive update_outcome : Type :=
| show_update_available (new_version description : string)
| show_no_updates
| nothing_shown.

Section Versions.

(** [int(s)]: the integer, or [None] when it raises. *)
Variable py_int : string -> option Z.

(** [_is_valid_version]; every exception means [False]. *)
Definition _is_valid_version (version : string) : bool :=
  let parts := split_char "." version in
  if negb (length parts =? 3)%nat then false
  else match map_option py_int parts with
       | Some _ => true
       | None => false
       end.

(** The loop [for i in range(3)] of [_is_newer_version]; an index out of
    range raises, which the caller turns into [False]. *)
Fixpoint newer_loop (new_parts current_parts : list Z) (indices : list nat) : bool :=
  match indices with
  | [] => false
  | i :: rest =>
      match new_parts !! i, current_parts !! i with
      | Some a, Some b =>
          if (b <? a)%Z then true
          else if (a <? b)%Z then false
          else newer_loop new_parts current_parts rest
      | _, _ => false
      end
  end.

(** [_is_newer_version]; every exception means [False]. *)
Definition _is_newer_version (new_version current_version : string) : bool :=
  match map_option py_int (split_char "." new_version) with
  | None => false
  | Some new_parts =>
      match map_option py_int (split_char "." current_version) with
      | None => false
      | Some current_parts => newer_loop new_parts current_parts (seq 0 3)
      end
  end.

(** The loop of [_check_update_thread] over the lines of the update
    file: it stops at the first line with a dash whose left part is a
    valid version. *)
Fixpoint first_release (lines : list string) : option (string * string) :=
  match lines with
  | [] => None
  | line :: rest =>
      if contains_char "-" line then
        match split_max "-" 1 line with
        | [version_part; desc_part] =>
            let version := strip version_part in
            let desc := strip desc_part in
            if _is_valid_version version then Some (version, desc)
            else first_release rest
        | _ => first_release rest
        end
      else first_release rest
  end.

(** [_check_update_thread] from the decoded text of the update file on,
    for the running version [APP_VERSION]. *)
Definition check_update (APP_VERSION content : string) (auto_check : bool)
  : update_outcome :=
  let lines := split_char LF (strip content) in
  match first_release lines with
  | Some (latest_version, description) =>
      if negb (String.eqb latest_version "")
         && _is_newer_version latest_version APP_VERSION
      then show_update_available latest_version description
      else if negb auto_check then show_no_updates else nothing_shown
  | None => if negb auto_check then show_no_updates else nothing_shown
  end.

End Versions.

(** ** GitManager *)

Module Git.

(** How [subprocess.run] ends. *)
Inductive run_outcome : Type :=
| Completed (returncode : Z) (stdout stderr : string)
| TimeoutExpired
| OtherException (e : string).

(** The two shapes of dict [_run_git_command] returns: with the keys
    [success], [stdout], [stderr] and [returncode] when git ran, with
    [success] and [error] when it did not. *)
Inductive git_result : Type :=
| Ran (returncode : Z) (stdout stderr : string)
| NotRun (error : string).

(** [r['success']]. *)
Definition success (r : git_result) : bool :=
  match r with
  | Ran returncode _ _ => (returncode =? 0)%Z
  | NotRun _ => false
  end.

(** [r['stdout']]. *)
Definition item_stdout (r : git_result) : result string :=
  match r with
  | Ran _ stdout _ => Ok stdout
  | NotRun _ => Raise "KeyError: 'stdout'"
  end.

(** [r['error']]. *)
Definition item_error (r : git_result) : result string :=
  match r with
  | NotRun error => Ok error
  | Ran _ _ _ => Raise "KeyError: 'error'"
  end.

(** An entry of [changed_files]. *)
Record changed_file : Type := {
  path : string;
  change_type : string;
  staged : bool
}.

(** The dict [get_status] returns, by its keys. *)
Inductive status : Type :=
| not_git
| git_unavailable
| repo_status (repo_root branch : string) (has_changes : bool)
    (changed_files : list changed_file) (untracked_files : list string).

(** An entry of the history. *)
Record commit_info : Type := {
  hash : string;
  message : string;
  author : string;
  date : string;
  files : list string
}.

Inductive button : Type := Yes | No | Cancel.

(** What the manager shows, logs and emits. *)
Inductive git_event : Type :=
| question_dialog
| information_dialog
| open_browser (url : string)
| editor_log (msg level : string)
| git_status_changed (p : string) (s : status)
| git_branch_changed (p branch : string)
| git_commit_made (p commit_hash : string)
| git_error (p msg : string).

(** [s[i]]. *)
Definition char_at (s : string) (i : nat) : result ascii :=
  match String.get i s with
  | Some c => Ok c
  | None => Raise "IndexError: string index out of range"
  end.

(** The loop of [get_status] over the lines of [git status --porcelain]:
    the changed and the untracked files. *)
Fixpoint status_lines (lines : list string)
  : result (list changed_file * list string) :=
  match lines with
  | [] => Ok ([], [])
  | line :: rest =>
      if String.eqb (strip line) "" then status_lines rest
      else
        let status_code := strip (take_chars 2 line) in
        let file_path := drop_chars 3 line in
        if String.eqb status_code "??" then
          match status_lines rest with
          | Ok (changed_files, untracked_files) =>
              Ok (changed_files, file_path :: untracked_files)
          | Raise e => Raise e
          end
        else
          match char_at status_code 0 with
          | Raise e => Raise e
          | Ok c0 =>
              let is_staged := negb (Ascii.eqb c0 " ") in
              match char_at status_code 1 with
              | Raise e => Raise e
              | Ok c1 =>
                  let kind :=
                    if Ascii.eqb c1 "M" then "modified"
                    else if Ascii.eqb c1 "A" then "added"
                    else if Ascii.eqb c1 "D" then "deleted"
                    else if Ascii.eqb c1 "R" then "renamed"
                    else "modified" in
                  match status_lines rest with
                  | Ok (changed_files, untracked_files) =>
                      Ok ({| path := file_path; change_type := kind;
                             staged := is_staged |} :: changed_files,
                          untracked_files)
                  | Raise e => Raise e
                  end
              end
          end
  end.

(** The loop of [get_branches] over the lines of [git branch --list]. *)
Fixpoint branch_lines (lines : list string) : list string :=
  match lines with
  | [] => []
  | line :: rest =>
      if negb (String.eqb (strip line) "") then
        let branch := lstrip_chars "* " (strip line) in
        if negb (String.eqb branch "") then branch :: branch_lines rest
        else branch_lines rest
      else branch_lines rest
  end.

(** The loop of [get_history] over the lines of [git log]; a line that
    does not unpack into four parts is skipped. *)
Fixpoint history_lines (lines : list string) : list commit_info :=
  match lines with
  | [] => []
  | line :: rest =>
      if String.eqb (strip line) "" then history_lines rest
      else match split_max "|" 3 line with
           | [commit_hash; an; ad; s] =>
               {| hash := take_chars 7 commit_hash; message := strip s;
                  author := strip an; date := strip ad; files := [] |}
               :: history_lines rest
           | _ => history_lines rest
           end
  end.

(** The line [git log --pretty=format:%H|%an|%ad|%s] prints for a
    commit. *)
Definition pretty_format (c : commit_info) : string :=
  hash c ++ "|" ++ author c ++ "|" ++ date c ++ "|" ++ message c.

(** The line [git branch --list] prints for a branch. *)
Definition branch_format (current : bool) (branch : string) : string :=
  (if current then "* " else "  ") ++ branch.

Section Run.

(** Everything outside the manager: the repositories, the user. *)
Variable World : Type.

(** [subprocess.run([self.git_path] + args, cwd=cwd, ...)]. *)
Variable subprocess_run : World -> string -> list string -> run_outcome * World.

(** The button the user presses in the question dialog. *)
Variable question : World -> button * World.

(** [get_repo_root]: it only looks at the file system, and no exception
    escapes it. *)
Variable get_repo_root : World -> string -> option string.

Record GitManager : Type := {
  git_installed : bool;
  user_declined_git : bool;
  world : World;
  shown : list git_event
}.

Definition G (A : Type) : Type := GitManager -> result A * GitManager.

Definition ret {A} (a : A) : G A := fun st => (Ok a, st).

Definition bind {A B} (c : G A) (k : A -> G B) : G B := fun st =>
  match c st with
  | (Ok a, st') => k a st'
  | (Raise e, st') => (Raise e, st')
  end.

Definition lift {A} (r : result A) : G A := fun st => (r, st).

Definition get : G GitManager := fun st => (Ok st, st).

Definition emit (e : git_event) : G unit := fun st =>
  (Ok tt, {| git_installed := git_installed st;
             user_declined_git := user_declined_git st;
             world := world st; shown := (shown st ++ [e])%list |}).

Definition set_user_declined_git (b : bool) : G unit := fun st =>
  (Ok tt, {| git_installed := git_installed st; user_declined_git := b;
             world := world st; shown := shown st |}).

Definition set_world (w : World) (st : GitManager) : GitManager :=
  {| git_installed := git_installed st;
     user_declined_git := user_declined_git st;
     world := w; shown := shown st |}.

(** A step of the world. *)
Definition in_world {A} (f : World -> A * World) : G A := fun st =>
  (Ok (f (world st)).1, set_world (f (world st)).2 st).

Declare Scope git_scope.
Delimit Scope git_scope with G.
Notation "x <- c ;; k" := (bind c (fun x => k))
  (at level 100, c at next level, right associativity) : git_scope.
Notation "c ;;; k" := (bind c (fun _ => k))
  (at level 100, right associativity) : git_scope.
Local Open Scope git_scope.

(** [if not repo_root]. *)
Definition found (repo_root : option string) : option string :=
  match repo_root with
  | Some r => if String.eqb r "" then None else Some r
  | None => None
  end.

(** [_offer_git_installation]. *)
Definition _offer_git_installation : G unit :=
  emit question_dialog ;;;
  reply <- in_world question ;;
  match reply with
  | Yes =>
      emit (open_browser "https://git-scm.com/download/win") ;;;
      emit information_dialog
  | No =>
      set_user_declined_git true ;;;
      emit (editor_log "Пользователь отказался от установки Git. Функции Git отключены."
              "warning")
  | Cancel => ret tt
  end.

(** [_run_git_command]. *)
Definition _run_git_command (cwd : string) (args : list string) : G git_result :=
  st <- get ;;
  if negb (git_installed st) then
    (if negb (user_declined_git st) then _offer_git_installation else ret tt) ;;;
    ret (NotRun "Git не установлен")
  else
    o <- in_world (fun w => subprocess_run w cwd args) ;;
    match o with
    | Completed returncode stdout stderr =>
        ret (Ran returncode (strip stdout) (strip stderr))
    | TimeoutExpired => ret (NotRun "Таймаут выполнения команды")
    | OtherException e => ret (NotRun e)
    end.

(** [check_git_available]. *)
Definition check_git_available (show_message : bool) : G bool :=
  st <- get ;;
  (if negb (git_installed st) && show_message && negb (user_declined_git st)
   then _offer_git_installation else ret tt) ;;;
  ret (git_installed st).

(** [get_repo_root] in the current world. *)
Definition repo_root_of (p : string) : G (option string) :=
  st <- get ;; ret (found (get_repo_root (world st) p)).

(** The common end of the operations below: [git_error] with
    [result['error']] when the command did not succeed. *)
Definition report_error (p : string) (res : git_result) : G unit :=
  e <- lift (item_error res) ;; emit (git_error p e).

(** [init_repo]. *)
Definition init_repo (p : string) : G bool :=
  ok <- check_git_available true ;;
  if negb ok then ret false
  else
    res <- _run_git_command p ["init"] ;;
    (if success res then emit (editor_log ("Git репозиторий создан: " ++ p) "info")
     else report_error p res) ;;;
    ret (success res).

(** [commit]. *)
Definition commit (p msg : string) : G bool :=
  ok <- check_git_available true ;;
  if negb ok then ret false
  else
    root <- repo_root_of p ;;
    match root with
    | None => ret false
    | Some repo_root =>
        res <- _run_git_command repo_root ["commit"; "-m"; msg] ;;
        (if success res then
           hash_result <- _run_git_command repo_root ["rev-parse"; "--short"; "HEAD"] ;;
           commit_hash <- (if success hash_result then lift (item_stdout hash_result)
                           else ret "unknown") ;;
           emit (git_commit_made p commit_hash) ;;;
           emit (editor_log ("Коммит создан: " ++ msg) "success")
         else report_error p res) ;;;
        ret (success res)
    end.

(** [create_branch]. *)
Definition create_branch (p branch_name : string) : G bool :=
  ok <- check_git_available true ;;
  if negb ok then ret false
  else
    root <- repo_root_of p ;;
    match root with
    | None => ret false
    | Some repo_root =>
        res <- _run_git_command repo_root ["branch"; branch_name] ;;
        (if success res then emit (editor_log ("Ветка создана: " ++ branch_name) "info")
         else report_error p res) ;;;
        ret (success res)
    end.

(** [checkout_branch]. *)
Definition checkout_branch (p branch_name : string) : G bool :=
  ok <- check_git_available true ;;
  if negb ok then ret false
  else
    root <- repo_root_of p ;;
    match root with
    | None => ret false
    | Some repo_root =>
        res <- _run_git_command repo_root ["checkout"; branch_name] ;;
        (if success res then
           emit (git_branch_changed p branch_name) ;;;
           emit (editor_log ("Переключился на ветку: " ++ branch_name) "info")
         else report_error p res) ;;;
        ret (success res)
    end.

(** [pull] and [push], which differ in the command and the words. *)
Definition transfer (command done failed p : string) : G git_result :=
  ok <- check_git_available true ;;
  if negb ok then ret (NotRun "Git не установлен")
  else
    root <- repo_root_of p ;;
    match root with
    | None => ret (NotRun "No repository")
    | Some repo_root =>
        res <- _run_git_command repo_root [command] ;;
        (if success res then emit (editor_log done "info")
         else e <- lift (item_error res) ;; emit (editor_log (failed ++ e) "error")) ;;;
        ret res
    end.

Definition pull (p : string) : G git_result :=
  transfer "pull" "Pull выполнен" "Pull ошибка: " p.

Definition push (p : string) : G git_result :=
  transfer "push" "Push выполнен" "Push ошибка: " p.

(** [get_status]. *)
Definition get_status (p : string) : G status :=
  root <- repo_root_of p ;;
  match root with
  | None => ret not_git
  | Some repo_root =>
      ok <- check_git_available false ;;
      if negb ok then ret git_unavailable
      else
        status_result <- _run_git_command repo_root ["status"; "--porcelain"] ;;
        branch_result <- _run_git_command repo_root ["branch"; "--show-current"] ;;
        if negb (success status_result) || negb (success branch_result)
        then ret git_unavailable
        else
          branch_out <- lift (item_stdout branch_result) ;;
          status_out <- lift (item_stdout status_result) ;;
          parsed <- lift (status_lines (split_char LF status_out)) ;;
          let s := repo_status repo_root
                     (if String.eqb branch_out "" then "unknown" else branch_out)
                     (negb (String.eqb status_out ""))
                     parsed.1 parsed.2 in
          emit (git_status_changed p s) ;;;
          ret s
  end.

(** [get_branches]. *)
Definition get_branches (p : string) : G (list string) :=
  ok <- check_git_available false ;;
  if negb ok then ret []
  else
    root <- repo_root_of p ;;
    match root with
    | None => ret []
    | Some repo_root =>
        res <- _run_git_command repo_root ["branch"; "--list"] ;;
        if negb (success res) then ret []
        else
          stdout <- lift (item_stdout res) ;;
          ret (branch_lines (split_char LF stdout))
    end.

(** [get_history]; [limit_text] is the limit as [str] prints it. *)
Definition get_history (p limit_text : string) : G (list commit_info) :=
  ok <- check_git_available false ;;
  if negb ok then ret []
  else
    root <- repo_root_of p ;;
    match root with
    | None => ret []
    | Some repo_root =>
        res <- _run_git_command repo_root
                 ["log"; "--max-count=" ++ limit_text;
                  "--pretty=format:%H|%an|%ad|%s"; "--date=short"] ;;
        if negb (success res) then ret []
        else
          stdout <- lift (item_stdout res) ;;
          ret (history_lines (split_char LF stdout))
    end.

(** Git ran the command in [w] and exited with a status other than 0. *)
Definition exits_nonzero (w : World) (cwd : string) (args : list string) : Prop :=
  match (subprocess_run w cwd args).1 with
  | Completed returncode _ _ => returncode <> 0%Z
  | _ => False
  end.

(** From [st] to [st'] the refusal of the user was kept and the question
    was not asked. *)
Definition not_asked (st st' : GitManager) : Prop :=
  user_declined_git st' = true
  /\ exists es, shown st' = (shown st ++ es)%list /\ ~ In question_dialog es.

(** [c] keeps the refusal of the user and does not ask again. *)
Definition keeps_refusal {A} (c : G A) : Prop :=
  forall st, user_declined_git st = true -> not_asked st (c st).2.

End Run.

Arguments git_installed {World} _.
Arguments user_declined_git {World} _.
Arguments world {World} _.
Arguments shown {World} _.
Arguments set_world {World} _ _.
Arguments not_asked {World} _ _.
Arguments keeps_refusal {World A} _.

End Git.

(** ** Notions of the statements *)

(** [c] returns: no exception escapes it. *)
Definition returns {A} (c : M A) : Prop :=
  forall st, exists a, (c st).1 = Ok a.

(** [c] only appends events satisfying [P] to the trace. *)
Definition appends (P : event -> Prop) {A} (c : M A) : Prop :=
  forall st, exists es, trace (c st).2 = (trace st ++ es)%list /\ Forall P es.

(** An event other than the error signal. *)
Definition not_error (e : event) : Prop :=
  match e with
  | extension_error _ _ => False
  | _ => True
  end.


Definition key_le (a b : string * ext_dict) : Prop := String.le a.1 b.1.




(** [c] keeps the manager consistent, whatever it answers. *)
Definition keeps {A} (c : M A) : Prop :=
  forall st, consistent st -> consistent (c st).2.





(** [st'] has everything [st] has: the registered names, the loaded
    records and the manifest objects. *)
Record extends (st st' : ExtensionManager) : Prop := {
  registered_kept :
    forall n, is_Some (getitem (extensions st) n) ->
              is_Some (getitem (extensions st') n);
  loaded_kept :
    forall n r, getitem (loaded_extensions st) n = Some r ->
                getitem (loaded_extensions st') n = Some r;
  objects_kept :
    forall r m, objects st !! r = Some m -> objects st' !! r = Some m
}.

(** [c] keeps the manager consistent and only adds to it. *)
Definition grows {A} (c : M A) : Prop :=
  forall st, consistent st -> consistent (c st).2 /\ extends st (c st).2.

(** ** A concrete installation

    One instance of the parameters and a few disks, on which the
    operations are run as they stand. *)

Module Sample.

Definition ext_installed : string := "/ext/installed".
Definition ext_manifest : string := "/ext/manifest.json".

Definition dumps (j : json) : string :=
  match j with
  | JStr s => "'" ++ s ++ "'"
  | _ => "null"
  end.

(** Three Python sources and what they do; any other source runs and
    defines nothing. *)
Definition src_activate_raises : string := "def activate(api): raise RuntimeError('boom')".
Definition src_top_level_raises : string := "raise RuntimeError('boom')".
Definition src_deactivate_raises : string := "def deactivate(): raise RuntimeError('boom')".

Definition semantics (src : string) : PyProgram :=
  if String.eqb src src_activate_raises then
    {| exec_error := None; activate := Some (Some "boom"); deactivate := None |}
  else if String.eqb src src_top_level_raises then
    {| exec_error := Some "boom"; activate := None; deactivate := None |}
  else if String.eqb src src_deactivate_raises then
    {| exec_error := None; activate := None; deactivate := Some (Some "boom") |}
  else {| exec_error := None; activate := None; deactivate := None |}.

Definition tmp (d : Disk) : string := "/tmp/scratch".

(** What [str] gives for a list or a dict is not looked at. *)
Definition repr (j : json) : string := "[...]".

(** [str.lower] on ASCII text. *)
Definition lower_ascii (c : ascii) : ascii :=
  let n := nat_of_ascii c in
  if (65 <=? n)%nat && (n <=? 90)%nat then ascii_of_nat (n + 32) else c.

Fixpoint lower (s : string) : string :=
  match s with
  | EmptyString => EmptyString
  | String c r => String (lower_ascii c) (lower r)
  end.

(** A [package.json]. *)
Definition package (n main_file : string) (on : bool) : file :=
  Doc (JObj [("name", JStr n); ("version", JStr "0.1"); ("main", JStr main_file);
             ("enabled", JBool on)]).

Definition disk_of (fs : list (string * file)) : Disk :=
  {| files := list_to_map fs; dirs := {[ext_installed]}; readonly := ∅ |}.

(** The manager after start-up on a disk, with two open views. *)
Definition started (fs : list (string * file)) : ExtensionManager :=
  init ext_installed ext_manifest dumps semantics repr (disk_of fs) [1%nat; 2%nat] [].

(** The object [ExtensionManifest] builds from such a [package.json]. *)
Definition installed (n main_file : string) (on : bool) (t : ext_type)
  : ExtensionManifest :=
  {| manifest_path := "/ext/installed/" ++ n ++ "/package.json";
     name := JStr n; version := JStr "0.1"; description := JStr "";
     author := JStr "Unknown"; main := main_file; icon := JNull;
     enabled := JBool on; dependencies := JObj []; contributes := JObj [];
     activation_events := JArr [];
     extension_dir := "/ext/installed/" ++ n; type := t |}.

(** A disabled script extension. *)
Definition hello_disabled : ExtensionManager :=
  started [("/ext/installed/hello/package.json", package "hello" "hello.js" false);
           ("/ext/installed/hello/hello.js", Text "console.log('hi')")].

(** An enabled script extension. *)
Definition hello_enabled : ExtensionManager :=
  started [("/ext/installed/hello/package.json", package "hello" "hello.js" true);
           ("/ext/installed/hello/hello.js", Text "console.log('hi')")].

(** A disabled native extension whose [activate] raises. *)
Definition boom_disabled : ExtensionManager :=
  started [("/ext/installed/boom/package.json", package "boom" "boom.py" false);
           ("/ext/installed/boom/boom.py", Text src_activate_raises)].

(** An enabled native extension whose [activate] raises: start-up tried
    to load it and failed. *)
Definition boom_enabled : ExtensionManager :=
  started [("/ext/installed/boom/package.json", package "boom" "boom.py" true);
           ("/ext/installed/boom/boom.py", Text src_activate_raises)].

(** An enabled native extension whose top-level code raises. *)
Definition crash_enabled : ExtensionManager :=
  started [("/ext/installed/crash/package.json", package "crash" "crash.py" true);
           ("/ext/installed/crash/crash.py", Text src_top_level_raises)].

(** A loaded native extension whose [deactivate] raises. *)
Definition sticky_loaded : ExtensionManager :=
  started [("/ext/installed/sticky/package.json", package "sticky" "sticky.py" true);
           ("/ext/installed/sticky/sticky.py", Text src_deactivate_raises)].

(** The script extension after it was unloaded by hand: registered and
    enabled, not loaded. *)
Definition hello_unloaded : ExtensionManager :=
  (unload_extension (PStr "hello") hello_enabled).2.


(** An enabled script extension whose entry file is missing. *)
Definition ghost_enabled : ExtensionManager :=
  started [("/ext/installed/ghost/package.json", package "ghost" "ghost.js" true)].

(** An enabled native extension that defines neither [activate] nor
    [deactivate]: start-up loaded it. *)
Definition calm_enabled : ExtensionManager :=
  started [("/ext/installed/calm/package.json", package "calm" "calm.py" true);
           ("/ext/installed/calm/calm.py", Text "x = 1")].

(** The same after it was unloaded by hand. *)
Definition calm_unloaded : ExtensionManager :=
  (unload_extension (PStr "calm") calm_enabled).2.



(** Nothing installed, and a loose script file in the user's directory. *)
Definition loose_script : ExtensionManager :=
  started [("/home/user/my tool.js", Text "console.log('tool')")].

(** Nothing installed, and an archive that holds a script extension. *)
Definition zipped : ExtensionManager :=
  started [("/home/user/pack.zip",
            Archive [("pack/package.json",
                      MDoc (JObj [("name", JStr "pack"); ("main", JStr "pack.js")]));
                     ("pack/pack.js", MText "1")])].

(** [int(s)] on ASCII text: white space around, a sign, decimal digits
    with single underscores between them. *)
Definition digit_of (c : ascii) : option Z :=
  let n := nat_of_ascii c in
  if (48 <=? n)%nat && (n <=? 57)%nat then Some (Z.of_nat (n - 48)) else None.

Fixpoint digits (s : string) (acc : Z) (after_digit : bool) : option Z :=
  match s with
  | EmptyString => if after_digit then Some acc else None
  | String c r =>
      if Ascii.eqb c "_" then (if after_digit then digits r acc false else None)
      else match digit_of c with
           | Some d => digits r (10 * acc + d)%Z true
           | None => None
           end
  end.

Definition ascii_int (s : string) : option Z :=
  match strip s with
  | String "-" r => Z.opp <$> digits r 0%Z false
  | String "+" r => digits r 0%Z false
  | r => digits r 0%Z false
  end.

(** A world for git: the commands are answered from a table (a command
    that is not in it succeeds and prints nothing), the user presses No,
    and every path lies in the repository [/repo]. *)
Definition answers : Type := list (list string * Git.run_outcome).

Definition run_from (w : answers) (cwd : string) (args : list string)
  : Git.run_outcome * answers :=
  (default (Git.Completed 0 "" "")
     (snd <$> List.find (fun kv => bool_decide (kv.1 = args)) w), w).

Definition press_no (w : answers) : Git.button * answers := (Git.No, w).

Definition repo (w : answers) (p : string) : option string := Some "/repo".

(** A manager that found git, in such a world. *)
Definition git_ready (w : answers) : Git.GitManager answers :=
  {| Git.git_installed := true; Git.user_declined_git := false;
     Git.world := w; Git.shown := [] |}.

(** A manager that did not find git, after the user declined. *)
Definition git_declined (w : answers) : Git.GitManager answers :=
  {| Git.git_installed := false; Git.user_declined_git := true;
     Git.world := w; Git.shown := [] |}.

End Sample.

(** * Properties *)

(** ** ExtensionManifest *)

(** C7. When the file at [path] is missing, cannot be read or is not a
    JSON document, constructing the manifest raises nothing and yields the
    defaults: name 'unknown', version '1.0.0', empty description, author
    'Unknown', main 'main.js', icon None, enabled True, and empty
    dependencies, contributes and activationEvents. *)
Theorem manifest_load_falls_back_to_defaults (d : Disk) (path : string) :
  (files d !! path = None \/ files d !! path = Some Unreadable
   \/ (exists s, files d !! path = Some (Text s))
   \/ (exists ms, files d !! path = Some (Archive ms))) ->
  (ExtensionManifest_load d path).1 = Ok (default_manifest path).
Proof.
  intros H. unfold ExtensionManifest_load, read_json.
  destruct H as [-> | [-> | [[s ->] | [ms ->]]]]; reflexivity.
Qed.

Lemma manifest_load_falls_back_to_defaults_witness :
  (ExtensionManifest_load
     {| files := {[ "/ext/installed/hello/package.json" := Text "{ not json" ]};
        dirs := ∅; readonly := ∅ |}
     "/ext/installed/hello/package.json").1
  = Ok (default_manifest "/ext/installed/hello/package.json").
Proof.
  apply manifest_load_falls_back_to_defaults.
  right; right; left. exists "{ not json". reflexivity.
Defined.

(** C8. After [save] succeeds, [load] on the same path gives back every
    modelled field: name, version, description, author, main, icon,
    enabled, dependencies, contributes and activationEvents. *)
Theorem manifest_save_load_roundtrip
    (m : ExtensionManifest) (d d' : Disk) (printed : list event) :
  save m d = (true, d', printed) ->
  exists m', (ExtensionManifest_load d' (manifest_path m)).1 = Ok m'
    /\ name m' = name m /\ version m' = version m
    /\ description m' = description m /\ author m' = author m
    /\ main m' = main m /\ icon m' = icon m /\ enabled m' = enabled m
    /\ dependencies m' = dependencies m /\ contributes m' = contributes m
    /\ activation_events m' = activation_events m.
Proof.
  unfold save, write_json. intros H.
  destruct (decide (manifest_path m ∈ readonly d)); [discriminate |].
  injection H as <- _.
  unfold ExtensionManifest_load, read_json. cbn [files].
  rewrite lookup_insert_eq. cbn.
  eexists. split; [reflexivity |]. cbn. repeat split.
Qed.


(** ** Computations: outcomes and traces *)

Section Computations.

Context {A B : Type}.

Lemma returns_ret (a : A) : returns (ret a).
Proof. intros st. by exists a. Qed.

Lemma returns_gets (f : ExtensionManager -> A) : returns (gets f).
Proof. intros st. by eexists. Qed.

Lemma returns_bind (c : M A) (k : A -> M B) :
  returns c -> (forall a, returns (k a)) -> returns (bind c k).
Proof.
  intros Hc Hk st. unfold bind. destruct (Hc st) as [a Ha].
  destruct (c st) as [[a'|e] st']; simpl in Ha; [| discriminate].
  apply Hk.
Qed.

Lemma returns_try_except (c : M A) (h : string -> M A) :
  (forall e, returns (h e)) -> returns (try_except c h).
Proof.
  intros Hh st. unfold try_except.
  destruct (c st) as [[a|e] st']; [by exists a | apply Hh].
Qed.

(** A handler behind a body that returns is never run. *)
Lemma try_except_returns (c : M A) (h : string -> M A) (st : ExtensionManager) :
  returns c -> try_except c h st = c st.
Proof.
  intros Hc. unfold try_except. destruct (Hc st) as [a Ha].
  destruct (c st) as [[a'|e] st']; simpl in Ha; [done | discriminate].
Qed.

Lemma appends_ret P (a : A) : appends P (ret a).
Proof. intros st. exists []. by rewrite app_nil_r. Qed.

Lemma appends_raise P (e : string) : appends P (@raise A e).
Proof. intros st. exists []. by rewrite app_nil_r. Qed.

Lemma appends_lift P (r : result A) : appends P (lift r).
Proof. intros st. exists []. by rewrite app_nil_r. Qed.

Lemma appends_gets P (f : ExtensionManager -> A) : appends P (gets f).
Proof. intros st. exists []. by rewrite app_nil_r. Qed.

Lemma appends_bind P (c : M A) (k : A -> M B) :
  appends P c -> (forall a, appends P (k a)) -> appends P (bind c k).
Proof.
  intros Hc Hk st. unfold bind. destruct (Hc st) as (es & Hes & HP).
  destruct (c st) as [[a|e] st']; simpl in Hes.
  - destruct (Hk a st') as (es' & Hes' & HP').
    exists (es ++ es')%list. rewrite Hes', Hes, app_assoc.
    split; [done | by apply Forall_app].
  - by exists es.
Qed.

Lemma appends_try_except P (c : M A) (h : string -> M A) :
  appends P c -> (forall e, appends P (h e)) -> appends P (try_except c h).
Proof.
  intros Hc Hh st. unfold try_except. destruct (Hc st) as (es & Hes & HP).
  destruct (c st) as [[a|e] st']; simpl in Hes.
  - by exists es.
  - destruct (Hh e st') as (es' & Hes' & HP').
    exists (es ++ es')%list. rewrite Hes', Hes, app_assoc.
    split; [done | by apply Forall_app].
Qed.

End Computations.

Lemma returns_modify f : returns (modify f).
Proof. intros st. by eexists. Qed.

Lemma returns_emit e : returns (emit e).
Proof. apply returns_modify. Qed.

Lemma returns_log msg : returns (log msg).
Proof. apply returns_modify. Qed.

Lemma appends_modify P f :
  (forall st, trace (f st) = trace st) -> appends P (modify f).
Proof. intros Hf st. exists []. simpl. by rewrite Hf, app_nil_r. Qed.

Lemma appends_emit (P : event -> Prop) e : P e -> appends P (emit e).
Proof. intros He st. exists [e]. split; [done | by constructor]. Qed.

Lemma appends_emit_name (P : event -> Prop) signal n :
  (forall s, P (signal s)) -> appends P (emit_name signal n).
Proof.
  intros HP. destruct n; simpl;
    [apply appends_raise .. | apply appends_emit, HP].
Qed.

Lemma emit_name_str signal n st :
  emit_name signal n st
  = match n with
    | PStr s => (Ok tt, out [signal s] st)
    | _ => (Raise "TypeError", st)
    end.
Proof. by destruct n. Qed.

Lemma returns_for_views vs body :
  (forall v, returns (body v)) -> returns (for_views vs body).
Proof.
  intros Hb. induction vs as [|v vs IH]; simpl.
  - apply returns_ret.
  - apply returns_bind; [apply Hb | by intros _].
Qed.

Lemma appends_for_views P vs body :
  (forall v, appends P (body v)) -> appends P (for_views vs body).
Proof.
  intros Hb. induction vs as [|v vs IH]; simpl.
  - apply appends_ret.
  - apply appends_bind; [apply Hb | by intros _].
Qed.

(** ** Generic steps, unloading *)

Lemma bind_ok {A B} (c : M A) (k : A -> M B) st a st' :
  c st = (Ok a, st') -> bind c k st = k a st'.
Proof. intros H. unfold bind. by rewrite H. Qed.

Lemma for_views_emit (f : nat -> event) vs st :
  for_views vs (fun v => emit (f v)) st = (Ok tt, out (map f vs) st).
Proof.
  revert st. induction vs as [|v vs IH]; intros st; simpl.
  - unfold ret, out. destruct st; simpl. by rewrite app_nil_r.
  - unfold bind, emit, modify. rewrite IH. f_equal.
    unfold out. destruct st; simpl. by rewrite <- app_assoc.
Qed.

(** ** Dicts *)

Section DictFacts.

Context {V : Type}.
Implicit Types (d : pydict V) (n : pyname) (k : pykey) (v : V).



Lemma getitem_lookup d n v :
  getitem d n = Some v <-> exists key, d !! key_of n = Some (key, v).
Proof.
  unfold getitem. destruct (d !! key_of n) as [[key v']|]; simpl; split.
  - intros [= ->]. by exists key.
  - by intros (? & [= _ ->]).
  - done.
  - by intros (? & ?).
Qed.

Lemma getitem_is_Some d n : is_Some (getitem d n) <-> is_Some (d !! key_of n).
Proof. unfold getitem. by rewrite fmap_is_Some. Qed.


Lemma getitem_key d n n' : key_of n = key_of n' -> getitem d n = getitem d n'.
Proof. unfold getitem. by intros ->. Qed.


Lemma lookup_setitem d n v k :
  setitem n v d !! k
  = if decide (key_of n = k) then Some (default n (fst <$> d !! key_of n), v)
    else d !! k.
Proof. unfold setitem. apply lookup_insert. Qed.

Lemma lookup_delitem d n k :
  delitem n d !! k = if decide (key_of n = k) then None else d !! k.
Proof. unfold delitem. apply lookup_delete. Qed.

Lemma getitem_setitem d n n' v :
  getitem (setitem n v d) n'
  = if decide (key_of n = key_of n') then Some v else getitem d n'.
Proof. unfold getitem. rewrite lookup_setitem. by case_decide. Qed.

Lemma getitem_setitem_eq d n v : getitem (setitem n v d) n = Some v.
Proof. rewrite getitem_setitem. by case_decide. Qed.





Lemma items_empty : items (∅ : pydict V) = [].
Proof. unfold items. by rewrite map_to_list_empty. Qed.

End DictFacts.

(** [consistent] only looks at the store and the two maps of
    references. *)
Lemma consistent_same st st' :
  objects st' = objects st -> extensions st' = extensions st ->
  loaded_extensions st' = loaded_extensions st ->
  consistent st -> consistent st'.
Proof.
  intros Ho He Hl [H1 H2 H3].
  split; unfold names_object in *; rewrite ?Ho, ?He, ?Hl; done.
Qed.

(** What [unload_extension] changes. *)
Lemma unload_effect st n res st' :
  unload_extension n st = (res, st') ->
  objects st' = objects st /\ extensions st' = extensions st
  /\ disk st' = disk st
  /\ ((res <> Ok true /\ loaded_extensions st' = loaded_extensions st
       /\ js_extensions st' = js_extensions st
       /\ python_extensions st' = python_extensions st)
      \/ (is_Some (getitem (loaded_extensions st) n)
          /\ loaded_extensions st' = delitem n (loaded_extensions st)
          /\ match n with
             | PStr s => res = Ok true /\ In (extension_unloaded s) (trace st')
             | _ => res = Ok false
             end)).
Proof.
  unfold unload_extension, bind, gets, deref, try_except, log, emit, modify,
    ret, raise. simpl.
  destruct (getitem (loaded_extensions st) n) as [r|] eqn:Hr; simpl.
  2: { intros [= <- <-]. naive_solver. }
  destruct (objects st !! r) as [m|] eqn:Hm; simpl.
  2: { intros [= <- <-]. naive_solver. }
  destruct (type m); simpl.
  - pose proof (for_views_emit (fun v => runJavaScript v (removal_code (py_str n)))) as E.
    unfold emit, modify in E. rewrite E. simpl.
    destruct n; simpl; intros [= <- <-]; simpl; repeat split; try done; right;
      repeat split; try done. rewrite !in_app_iff. simpl. tauto.
  - destruct (getitem (python_extensions st) n) as [[x a [[e|]|]]|] eqn:Hp; simpl;
      try (intros [= <- <-]; simpl; repeat split; try done; left; done);
      destruct n; simpl; intros [= <- <-]; simpl; repeat split; try done; right;
      repeat split; try done; rewrite !in_app_iff; simpl; tauto.
  - destruct n; simpl; intros [= <- <-]; simpl; repeat split; try done; right;
      repeat split; try done. rewrite !in_app_iff. simpl. tauto.
Qed.

Lemma unload_consistent st n : consistent st -> consistent (unload_extension n st).2.
Proof.
  intros Hc. destruct (unload_extension n st) as [res st'] eqn:E. simpl.
  apply unload_effect in E as (Ho & He & _ & [(_ & Hl & _) | (_ & Hl & _)]).
  - by apply (consistent_same st).
  - destruct Hc as [H1 H2 H3].
    split; unfold names_object; rewrite ?Ho, ?He, ?Hl.
    + done.
    + intros k key r'. rewrite lookup_delitem. case_decide; [done | apply H2].
    + intros k. rewrite lookup_delitem. case_decide; [by intros [? ?] | apply H3].
Qed.

Lemma unload_returns st n :
  consistent st -> exists b, (unload_extension n st).1 = Ok b.
Proof.
  intros [_ H2 _].
  unfold unload_extension, bind, gets, deref. simpl.
  destruct (getitem (loaded_extensions st) n) as [r|] eqn:Hr; simpl; [| by eexists].
  apply getitem_lookup in Hr as (key & Hr).
  destruct (H2 _ _ _ Hr) as (_ & m & _ & -> & _). simpl.
  apply returns_try_except. intros e st0. by eexists.
Qed.

(** C3 (amended). When the [deactivate] entry point of a loaded native
    extension raises, [unload_extension] catches the exception, logs it
    and answers [False]: the loaded record and the cached module stay,
    and no unload signal is emitted. *)
Theorem unload_extension_deactivate_raises
    (st : ExtensionManager) (n : string) (r : nat) (m : ExtensionManifest)
    (module : PyProgram) (e : string) :
  getitem (loaded_extensions st) (PStr n) = Some r -> objects st !! r = Some m ->
  type m = python -> getitem (python_extensions st) (PStr n) = Some module ->
  deactivate module = Some (Some e) ->
  unload_extension (PStr n) st
  = (Ok false, out [Log ("Error unloading extension: " ++ e)] st).
Proof.
  intros Hl Ho Ht Hp Hd.
  unfold unload_extension, bind, gets, deref, try_except. simpl.
  rewrite Hl, Ho. simpl. rewrite Ht. simpl. rewrite Hp, Hd. reflexivity.
Qed.

Lemma names_object_setitem st refs k r m :
  names_object st refs -> objects st !! r = Some m -> as_name (name m) = Some k ->
  names_object st (setitem k r refs).
Proof.
  intros H Hm Hk k0 key r0. rewrite lookup_setitem. case_decide as Hd.
  - intros [= <- <-]. split.
    + destruct (refs !! key_of k) as [[key0 r1]|] eqn:E; simpl; [| done].
      subst k0. by destruct (H _ _ _ E).
    + by exists m, k.
  - apply H.
Qed.

Lemma names_object_delitem st refs n :
  names_object st refs -> names_object st (delitem n refs).
Proof.
  intros H k key r. rewrite lookup_delitem. case_decide; [done | apply H].
Qed.

(** In a consistent state the object registered under a name has a name
    of the same key. *)
Lemma registered_object st n r :
  consistent st -> getitem (extensions st) n = Some r ->
  exists m k, objects st !! r = Some m /\ as_name (name m) = Some k
              /\ key_of k = key_of n.
Proof.
  intros [H1 _ _] Hr. apply getitem_lookup in Hr as (key & Hr).
  by destruct (H1 _ _ _ Hr) as (_ & m & k & ? & ? & ?); exists m, k.
Qed.


(** Flipping [enabled] on a stored object keeps the state consistent. *)
Lemma consistent_flip st r m :
  objects st !! r = Some m -> consistent st ->
  consistent (set_objects (<[r := flip_enabled m]> (objects st)) st).
Proof.
  intros Hm [H1 H2 H3].
  assert (Hn : forall refs, names_object st refs ->
            names_object (set_objects (<[r := flip_enabled m]> (objects st)) st) refs).
  { intros refs H k key r' Hr'.
    destruct (H k key r' Hr') as (Hkey & m' & n' & Hm' & Hname & Hk).
    split; [done |]. simpl.
    rewrite lookup_insert. case_decide as Hd.
    - subst r'. exists (flip_enabled m), n'. split; [done |]. simpl.
      split; [congruence | done].
    - by exists m', n'. }
  split; simpl; auto.
Qed.

(** ** Loading *)

Section Lifecycle.

Variable json_dumps : json -> string.
Variable python_semantics : string -> PyProgram.

Local Abbreviation load := (load_extension json_dumps python_semantics).
Local Abbreviation load_js := (_load_js_extension json_dumps).
Local Abbreviation load_python := (_load_python_extension json_dumps python_semantics).
Local Abbreviation toggle := (toggle_extension json_dumps python_semantics).

Local Ltac step_returns :=
  first [ apply returns_ret | apply returns_gets | apply returns_log
        | apply returns_emit | apply returns_modify
        | apply returns_try_except; intros
        | apply returns_bind; [| intros] ].

Local Ltac step_appends :=
  first [ apply appends_ret | apply appends_gets | apply appends_raise
        | apply appends_lift
        | apply appends_emit; exact I
        | apply appends_emit_name; intros; exact I
        | apply appends_modify; intros; reflexivity
        | apply appends_try_except; [| intros]
        | apply appends_bind; [| intros] ].

(** The loaders catch whatever their body raises. *)
Lemma load_js_returns r ext : returns (load_js r ext).
Proof using Type.
  clear python_semantics.
  unfold _load_js_extension. step_returns; [step_returns |].
  destruct (negb _); repeat step_returns.
Qed.

Lemma load_python_returns r ext : returns (load_python r ext).
Proof.
  unfold _load_python_extension. step_returns; [step_returns |].
  destruct (negb _); repeat step_returns.
Qed.

Lemma appends_exec_module P location :
  appends P (exec_module json_dumps python_semantics location).
Proof.
  unfold exec_module. repeat step_appends.
  destruct (exec_error _); step_appends.
Qed.

Lemma appends_call_if_present P entry : appends P (call_if_present entry).
Proof. destruct entry as [[e|]|]; simpl; step_appends. Qed.

Lemma load_js_appends r ext : appends not_error (load_js r ext).
Proof using Type.
  clear python_semantics.
  unfold _load_js_extension, log. step_appends; [step_appends |].
  destruct (negb _); repeat step_appends.
  apply appends_for_views. intros v. unfold _inject_js_to_view. step_appends.
Qed.

Lemma load_python_appends r ext : appends not_error (load_python r ext).
Proof.
  unfold _load_python_extension, log. step_appends; [step_appends |].
  destruct (negb _); repeat step_appends.
  destruct (spec_from_file_location _ _); repeat step_appends.
  - apply appends_modify. intros st. by destruct (bool_decide _).
  - simpl. destruct (exec_error _); step_appends.
  - apply appends_call_if_present.
Qed.

(** What [load_extension] dispatches to returns, so its own handler, the
    only place that emits [extension_error], is never entered. *)
Lemma load_dispatch_returns r ext :
  returns (match type ext with
           | js => load_js r ext
           | python => load_python r ext
           | unknown =>
               log ("Unknown extension type: " ++ type_str (type ext)) ;;; ret false
           end).
Proof.
  destruct (type ext).
  - apply load_js_returns.
  - apply load_python_returns.
  - repeat step_returns.
Qed.

(** Loading never emits the error signal. *)
Lemma load_never_signals_error n : appends not_error (load n).
Proof.
  unfold load_extension, log.
  apply appends_bind; [step_appends |]. intros exts.
  destruct (getitem exts n) as [r|]; [| repeat step_appends].
  apply appends_bind.
  { intros st. unfold deref. destruct (objects st !! r); exists [];
      by rewrite app_nil_r. }
  intros ext. destruct (negb _); [repeat step_appends |].
  apply appends_bind; [step_appends |]. intros loaded.
  destruct (bool_decide _); [repeat step_appends |].
  intros st. rewrite try_except_returns by apply load_dispatch_returns.
  revert st. destruct (type ext).
  - apply load_js_appends.
  - apply load_python_appends.
  - repeat step_appends.
Qed.

(** What a loader changes.  The script loader caches the source and
    records the extension under the manifest's name before it emits the
    signal: where the name is not a str the signal refuses it, and the
    answer is [False] with the two entries made.  Otherwise only the
    module search path may grow. *)
Lemma load_js_effect st r ext res st' :
  load_js r ext st = (res, st') ->
  objects st' = objects st /\ extensions st' = extensions st
  /\ disk st' = disk st /\ python_extensions st' = python_extensions st
  /\ ((res = Ok false /\ loaded_extensions st' = loaded_extensions st
       /\ js_extensions st' = js_extensions st)
      \/ (exists k code,
            res = Ok (is_str k) /\ as_name (name ext) = Some k
            /\ read_text json_dumps (disk st) (get_main_path ext) = Ok code
            /\ loaded_extensions st' = setitem k r (loaded_extensions st)
            /\ js_extensions st' = setitem k code (js_extensions st))).
Proof using Type.
  clear python_semantics.
  unfold _load_js_extension, _inject_js_to_view, bind, gets, try_except, lift,
    log, emit, modify, ret, hashable. simpl.
  destruct (negb _); simpl.
  { intros [= <- <-]. simpl. naive_solver. }
  destruct (read_text _ _ _) as [code|e]; simpl.
  2: { intros [= <- <-]. simpl. naive_solver. }
  destruct (as_name (name ext)) as [k|] eqn:Hk; simpl.
  2: { intros [= <- <-]. simpl. naive_solver. }
  pose proof (for_views_emit
    (fun v => runJavaScript v (wrapped_code json_dumps (py_str k) code))) as E.
  unfold emit, modify in E. rewrite E. simpl.
  intros H.
  assert (Hres : res = Ok (is_str k)
    /\ st' = out (if is_str k then [extension_loaded (py_str k);
                                    Log ("JS extension loaded: " ++ py_str k)]
                  else [Log ("Error loading JS extension: TypeError")])
               (set_loaded_extensions (setitem k r (loaded_extensions st))
                  (out (map (fun v => runJavaScript v
                                        (wrapped_code json_dumps (py_str k) code))
                            (views st))
                     (set_js_extensions (setitem k code (js_extensions st)) st)))).
  { destruct k; simpl in H; injection H as <- <-; split; try done;
      destruct st; unfold out; simpl; by rewrite <- ?app_assoc. }
  destruct Hres as [-> ->]. simpl. repeat split; try done. right.
  by exists k, code.
Qed.

Lemma load_python_effect st r ext res st' :
  load_python r ext st = (res, st') ->
  objects st' = objects st /\ extensions st' = extensions st
  /\ disk st' = disk st /\ js_extensions st' = js_extensions st
  /\ ((res = Ok false /\ loaded_extensions st' = loaded_extensions st
       /\ python_extensions st' = python_extensions st)
      \/ (res = Ok true /\ exists k src,
            name ext = JStr k
            /\ read_text json_dumps (disk st) (get_main_path ext) = Ok src
            /\ exec_error (python_semantics src) = None
            /\ (forall e, activate (python_semantics src) <> Some (Some e))
            /\ loaded_extensions st' = setitem (PStr k) r (loaded_extensions st)
            /\ python_extensions st'
               = setitem (PStr k) (python_semantics src) (python_extensions st))).
Proof.
  unfold _load_python_extension, exec_module, bind, gets, try_except, lift,
    log, emit, modify, ret, raise. simpl.
  destruct (negb _); simpl.
  { intros [= <- <-]. simpl. naive_solver. }
  destruct (name ext) as [| | |k| |]; simpl;
    try (intros [= <- <-]; simpl; naive_solver).
  unfold spec_from_file_location.
  destruct (endswith _ _); simpl.
  2: { intros [= <- <-]. simpl. naive_solver. }
  assert (Hd : forall st0 : ExtensionManager,
    disk (if bool_decide (extension_dir ext ∈ sys_path st0) then st0
          else set_sys_path (extension_dir ext :: sys_path st0) st0) = disk st0)
    by (intros st0; by destruct (bool_decide _)).
  rewrite Hd.
  destruct (read_text _ _ _) as [src|e]; simpl.
  2: { intros [= <- <-]. simpl. destruct (bool_decide _); naive_solver. }
  destruct (exec_error (python_semantics src)) as [e|] eqn:Hx; simpl.
  { intros [= <- <-]. simpl. destruct (bool_decide _); naive_solver. }
  destruct (activate (python_semantics src)) as [[e|]|] eqn:Ha; simpl;
    intros [= <- <-]; simpl; destruct (bool_decide _); simpl;
    repeat split; try done; first [ left; done | right ];
    (split; [done |]); exists k, src; naive_solver.
Qed.

(** A disabled or unregistered extension: a log line and [False]. *)
Lemma load_unregistered st n :
  getitem (extensions st) n = None ->
  load n st = (Ok false, out [Log ("Extension not found: " ++ py_str n)] st).
Proof. intros H. unfold load_extension, bind, gets. simpl. by rewrite H. Qed.

Lemma load_disabled st n r m :
  getitem (extensions st) n = Some r -> objects st !! r = Some m ->
  truthy (enabled m) = false ->
  load n st = (Ok false, out [Log ("Extension disabled: " ++ py_str n)] st).
Proof.
  intros H1 H2 H3. unfold load_extension, bind, gets, deref. simpl.
  by rewrite H1, H2, H3.
Qed.

Lemma load_already_loaded st n r m :
  getitem (extensions st) n = Some r -> objects st !! r = Some m ->
  truthy (enabled m) = true -> is_Some (getitem (loaded_extensions st) n) ->
  load n st = (Ok true, out [Log ("Extension already loaded: " ++ py_str n)] st).
Proof.
  intros H1 H2 H3 H4. unfold load_extension, bind, gets, deref. simpl.
  rewrite H1, H2, H3. simpl. by rewrite bool_decide_eq_true_2.
Qed.

(** C1 (amended). [load_extension] answers [False] for a name that is not
    registered and also for a registered name whose manifest is disabled;
    either way it only writes a log line: the maps of the manager, the
    loaded-extension map among them, stay as they are and no signal is
    emitted. *)
Theorem load_extension_disabled_or_unregistered_fails
    (st : ExtensionManager) (n : pyname) :
  (getitem (extensions st) n = None
   \/ exists r m, getitem (extensions st) n = Some r /\ objects st !! r = Some m
                  /\ truthy (enabled m) = false) ->
  exists msg, load n st = (Ok false, out [Log msg] st)
    /\ loaded_extensions (load n st).2 = loaded_extensions st.
Proof.
  intros [H | (r & m & H1 & H2 & H3)].
  - eexists. rewrite load_unregistered by done. done.
  - eexists. erewrite load_disabled by done. done.
Qed.

(** What [load_extension] changes. *)
Lemma load_effect st n res st' :
  load n st = (res, st') ->
  objects st' = objects st /\ extensions st' = extensions st
  /\ disk st' = disk st
  /\ ((loaded_extensions st' = loaded_extensions st
       /\ js_extensions st' = js_extensions st
       /\ python_extensions st' = python_extensions st
       /\ (res = Ok true -> is_Some (getitem (loaded_extensions st) n)))
      \/ (exists r m k,
            res = Ok (is_str k)
            /\ getitem (extensions st) n = Some r /\ objects st !! r = Some m
            /\ truthy (enabled m) = true /\ as_name (name m) = Some k
            /\ getitem (loaded_extensions st) n = None
            /\ loaded_extensions st' = setitem k r (loaded_extensions st))).
Proof.
  unfold load_extension, bind, gets, deref, log, emit, modify, ret. simpl.
  destruct (getitem (extensions st) n) as [r|] eqn:Hr; simpl.
  2: { intros [= <- <-]. simpl. naive_solver. }
  destruct (objects st !! r) as [m|] eqn:Hm; simpl.
  2: { intros [= <- <-]. naive_solver. }
  destruct (truthy (enabled m)) eqn:Hen; simpl.
  2: { intros [= <- <-]. simpl. naive_solver. }
  destruct (bool_decide _) eqn:Hl; simpl.
  { intros [= <- <-]. simpl. apply bool_decide_eq_true in Hl. naive_solver. }
  rewrite try_except_returns by apply load_dispatch_returns.
  assert (Hnone : getitem (loaded_extensions st) n = None).
  { apply bool_decide_eq_false in Hl. by apply eq_None_not_Some. }
  destruct (type m); intros H.
  - apply load_js_effect in H as (-> & -> & -> & Hp & [(-> & -> & ->) | (k & c & -> & Hk & _ & -> & Hj)]).
    + repeat split; try done. left. by rewrite Hp.
    + repeat split; try done. right. by exists r, m, k.
  - apply load_python_effect in H as (-> & -> & -> & Hp & [(-> & -> & ->) | (-> & k & c & Hk & _ & _ & _ & -> & Hj)]).
    + repeat split; try done. left. by rewrite Hp.
    + repeat split; try done. right. exists r, m, (PStr k). by rewrite Hk.
  - simpl in H. injection H as <- <-. simpl. naive_solver.
Qed.

Lemma load_consistent st n : consistent st -> consistent (load n st).2.
Proof.
  intros Hc. destruct (load n st) as [res st'] eqn:E. simpl.
  apply load_effect in E
    as (Ho & He & _ & [(Hl & _) | (r & m & k & _ & Hr & Hm & _ & Hk & _ & Hl)]).
  - by apply (consistent_same st).
  - destruct (registered_object st n r Hc Hr) as (m' & k' & Hm' & Hk' & Hkey).
    assert (k' = k) as -> by congruence.
    destruct Hc as [H1 H2 H3].
    split; unfold names_object; rewrite ?Ho, ?He, ?Hl.
    + done.
    + by apply (names_object_setitem st _ k r m).
    + intros k0. rewrite lookup_setitem. case_decide as Hd.
      * intros _. subst k0. rewrite Hkey. by apply getitem_is_Some.
      * apply H3.
Qed.

Lemma load_returns st n :
  consistent st -> exists b, (load n st).1 = Ok b.
Proof.
  intros Hc.
  unfold load_extension, bind, gets, deref, log, emit, modify, ret. simpl.
  destruct (getitem (extensions st) n) as [r|] eqn:Hr; simpl; [| by eexists].
  destruct (registered_object st n r Hc Hr) as (m & _ & -> & _). simpl.
  destruct (negb _); simpl; [by eexists |].
  destruct (bool_decide _); simpl; [by eexists |].
  rewrite try_except_returns by apply load_dispatch_returns.
  apply load_dispatch_returns.
Qed.

(** A successful load was asked of a registered, enabled extension. *)
Lemma load_true_registered st n st' :
  load n st = (Ok true, st') ->
  exists r m, getitem (extensions st) n = Some r /\ objects st !! r = Some m
              /\ truthy (enabled m) = true.
Proof.
  unfold load_extension, bind, gets, deref, log, emit, modify, ret. simpl.
  destruct (getitem (extensions st) n) as [r|] eqn:Hr; simpl; [| discriminate].
  destruct (objects st !! r) as [m|] eqn:Hm; simpl; [| discriminate].
  destruct (truthy (enabled m)) eqn:Hen; simpl; [| discriminate].
  intros _. by exists r, m.
Qed.

(** C4. After [load_extension] has succeeded the extension has its
    loaded record, and loading it again succeeds and leaves the
    loaded-extension map as it is. *)
Theorem load_extension_idempotent
    (st st1 : ExtensionManager) (n : pyname) :
  consistent st ->
  load n st = (Ok true, st1) ->
  is_Some (getitem (loaded_extensions st1) n)
  /\ exists st2, load n st1 = (Ok true, st2)
       /\ loaded_extensions st2 = loaded_extensions st1.
Proof.
  intros Hc H.
  destruct (load_true_registered _ _ _ H) as (r & m & Hr & Hm & Hen).
  apply load_effect in H as (Ho & He & _ & Hcase).
  assert (Hl : is_Some (getitem (loaded_extensions st1) n)).
  { destruct Hcase as [(-> & _ & _ & Hs) | (r' & m' & k & _ & Hr' & Hm' & _ & Hk & _ & ->)].
    - by apply Hs.
    - destruct (registered_object st n r' Hc Hr') as (m2 & k2 & Hm2 & Hk2 & Hkey).
      assert (k2 = k) as -> by congruence.
      rewrite getitem_setitem. case_decide; [by eexists | done]. }
  split; [done |].
  eexists. split.
  - apply (load_already_loaded st1 n r m); [by rewrite He | by rewrite Ho | done | done].
  - done.
Qed.


End Lifecycle.

(** ** Listing *)

Section Sorting.





Global Instance key_le_trans : Transitive key_le.
Proof. intros a b c. unfold key_le. apply transitivity. Qed.



Variable str_lower : string -> string.







End Sorting.

(** ** Uninstalling *)

Section Uninstall.

Variable EXT_INSTALLED : string.
Variable EXT_MANIFEST : string.

Local Abbreviation uninstall := (uninstall_extension EXT_INSTALLED EXT_MANIFEST).

Lemma uninstall_unregistered st n :
  getitem (extensions st) n = None -> uninstall n st = (Ok false, st).
Proof. intros H. unfold uninstall_extension, bind, gets. simpl. by rewrite H. Qed.

(** The part of [uninstall_extension] behind the unloading.  The signal
    is emitted last: it refuses a name that is not a str, and the answer
    is then [False], with everything removed and the registry written. *)
Lemma uninstall_registered st n r m :
  getitem (extensions st) n = Some r -> objects st !! r = Some m ->
  forall st1,
    st1 = (if bool_decide (is_Some (getitem (loaded_extensions st) n))
           then (unload_extension n st).2 else st) ->
    (bool_decide (is_Some (getitem (loaded_extensions st) n)) = true ->
     exists b, (unload_extension n st).1 = Ok b) ->
  exists st2 es,
    uninstall n st = (Ok (is_str n), st2)
    /\ objects st2 = objects st1
    /\ extensions st2 = delitem n (extensions st1)
    /\ loaded_extensions st2 = delitem n (loaded_extensions st1)
    /\ js_extensions st2 = delitem n (js_extensions st1)
    /\ python_extensions st2 = delitem n (python_extensions st1)
    /\ trace st2 = (trace st1 ++ es)%list
    /\ match n with
       | PStr s => In (extension_uninstalled s) es
       | _ => forall s, ~ In (extension_uninstalled s) es
       end
    /\ readonly (disk st2) = readonly (disk st1)
    /\ (EXT_MANIFEST ∉ readonly (disk st1) ->
        files (disk st2) !! EXT_MANIFEST = Some (Doc (registry_data st2))).
Proof.
  intros Hr Hm st1 Hst1 Hun.
  unfold uninstall_extension.
  erewrite bind_ok by reflexivity. rewrite Hr.
  erewrite bind_ok by (unfold deref; rewrite Hm; reflexivity).
  erewrite bind_ok by reflexivity.
  erewrite (bind_ok _ _ st tt st1).
  2: { destruct (bool_decide _).
       - destruct Hun as [b Hb]; [done |]. unfold bind.
         destruct (unload_extension n st) as [res st']. simpl in *. by subst.
       - by subst. }
  clear Hst1 Hun.
  unfold try_except, bind, modify, emit, log, modify, save_manifest, write_json, ret.
  simpl.
  destruct (path_exists (disk st1) (extension_dir m)
            && startswith (extension_dir m) EXT_INSTALLED); simpl;
    destruct (decide _) as [Hin | Hin]; simpl;
    destruct n; simpl;
    eexists _, _; (split; [reflexivity |]); simpl;
    repeat split; try done;
    try (rewrite <- !app_assoc; reflexivity);
    try (simpl; tauto);
    try (intros s; simpl; intros [? | [? | ?]]; done);
    try (intros s; simpl; intros [? | ?]; done);
    try (intros _; by rewrite lookup_insert_eq).
Qed.

Lemma consistent_delete st st' n :
  objects st' = objects st ->
  extensions st' = delitem n (extensions st) ->
  loaded_extensions st' = delitem n (loaded_extensions st) ->
  consistent st -> consistent st'.
Proof.
  intros Ho He Hl [H1 H2 H3].
  split; unfold names_object; rewrite ?Ho, ?He, ?Hl.
  - by apply names_object_delitem.
  - by apply names_object_delitem.
  - intros k. rewrite !lookup_delitem. case_decide; [by intros [? ?] | apply H3].
Qed.



End Uninstall.

(** ** The invariant *)

Section Keeps.

Context {A B : Type}.

Lemma keeps_ret (a : A) : keeps (ret a).
Proof. by intros st. Qed.

Lemma keeps_raise (e : string) : keeps (@raise A e).
Proof. by intros st. Qed.

Lemma keeps_lift (r : result A) : keeps (lift r).
Proof. by intros st. Qed.

Lemma keeps_gets (f : ExtensionManager -> A) : keeps (gets f).
Proof. by intros st. Qed.

Lemma keeps_bind (c : M A) (k : A -> M B) :
  keeps c -> (forall a, keeps (k a)) -> keeps (bind c k).
Proof.
  intros Hc Hk st Hst. unfold bind. specialize (Hc st Hst).
  destruct (c st) as [[a|e] st']; simpl in *; [by apply Hk | done].
Qed.

Lemma keeps_try_except (c : M A) (h : string -> M A) :
  keeps c -> (forall e, keeps (h e)) -> keeps (try_except c h).
Proof.
  intros Hc Hh st Hst. unfold try_except. specialize (Hc st Hst).
  destruct (c st) as [[a|e] st']; simpl in *; [done | by apply Hh].
Qed.

End Keeps.

Lemma keeps_modify f :
  (forall st, objects (f st) = objects st) ->
  (forall st, extensions (f st) = extensions st) ->
  (forall st, loaded_extensions (f st) = loaded_extensions st) ->
  keeps (modify f).
Proof. intros Ho He Hl st Hst. simpl. by apply (consistent_same st). Qed.

Lemma keeps_emit e : keeps (emit e).
Proof. by apply keeps_modify. Qed.

Lemma keeps_log msg : keeps (log msg).
Proof. apply keeps_emit. Qed.

Lemma keeps_on_disk op : keeps (on_disk op).
Proof.
  intros st Hst. unfold on_disk. destruct (op (disk st)) as [res d'].
  by apply (consistent_same st).
Qed.

Lemma keeps_deref r : keeps (deref r).
Proof. intros st Hst. unfold deref. by destruct (objects st !! r). Qed.

Lemma keeps_save_ext m : keeps (save_ext m).
Proof.
  intros st Hst. unfold save_ext. destruct (save m (disk st)) as [[ok d'] printed].
  by apply (consistent_same st).
Qed.

Lemma keeps_save_manifest path : keeps (save_manifest path).
Proof.
  intros st Hst. unfold save_manifest.
  destruct (write_json _ _ _) as [[[]|e] d']; by apply (consistent_same st).
Qed.

Lemma keeps_unload n : keeps (unload_extension n).
Proof. intros st. apply unload_consistent. Qed.

(** A new object does not disturb the references there are. *)
Lemma keeps_ExtensionManifest_new path : keeps (ExtensionManifest_new path).
Proof.
  intros st [H1 H2 H3]. unfold ExtensionManifest_new.
  destruct (ExtensionManifest_load _ _) as [[m|e] printed]; simpl.
  2: { by split. }
  assert (Hfresh : objects st !! fresh (dom (objects st)) = None).
  { apply not_elem_of_dom. apply is_fresh. }
  assert (Hn : forall refs, names_object st refs ->
            names_object (out printed (set_objects
              (<[fresh (dom (objects st)) := m]> (objects st)) st)) refs).
  { intros refs H k key r Hr.
    destruct (H k key r Hr) as (Hkey & m' & n' & Hm' & Hname).
    split; [done |]. exists m', n'. split; [| done]. simpl.
    rewrite lookup_insert_ne; [done |]. intros <-. congruence. }
  split; simpl; auto.
Qed.

(** Registering keys the object by its own name. *)
Lemma keeps_register r : keeps (register r).
Proof.
  intros st [H1 H2 H3]. unfold register, bind, deref, lift, modify, ret.
  destruct (objects st !! r) as [m|] eqn:Hm; simpl; [| by split].
  unfold hashable. destruct (as_name (name m)) as [k|] eqn:Hk; simpl; [| by split].
  split; simpl.
  - by apply (names_object_setitem st _ k r m).
  - exact H2.
  - intros k0 Hn. rewrite lookup_setitem. case_decide; [by eexists | by apply H3].
Qed.

Lemma keeps_for_loop {X} (body : X -> M unit) (loop : list X -> M unit) :
  (forall x, keeps (body x)) ->
  loop [] = ret tt ->
  (forall x xs, loop (x :: xs) = (body x ;;; loop xs)%M) ->
  forall xs, keeps (loop xs).
Proof.
  intros Hb H0 Hs xs. induction xs as [|x xs IH].
  - rewrite H0. apply keeps_ret.
  - rewrite Hs. apply keeps_bind; [apply Hb | by intros _].
Qed.

Section Invariant.

Variable EXT_INSTALLED : string.
Variable EXT_MANIFEST : string.
Variable json_dumps : json -> string.
Variable python_semantics : string -> PyProgram.
Variable mkdtemp : Disk -> string.
Variable str_lower : string -> string.
Variable py_repr : json -> string.

Local Abbreviation load := (load_extension json_dumps python_semantics).

Lemma keeps_emit_name signal n : keeps (emit_name signal n).
Proof. destruct n; simpl; [apply keeps_raise .. | apply keeps_emit]. Qed.

Lemma keeps_load n : keeps (load n).
Proof. intros st. apply load_consistent. Qed.

Local Ltac step_keeps :=
  first [ apply keeps_ret | apply keeps_raise | apply keeps_lift
        | apply keeps_log | apply keeps_emit | apply keeps_emit_name
        | apply keeps_on_disk
        | apply keeps_deref | apply keeps_save_manifest | apply keeps_save_ext
        | apply keeps_unload | apply keeps_register
        | apply keeps_ExtensionManifest_new | apply keeps_load
        | apply keeps_gets
        | apply keeps_modify; intros; reflexivity
        | apply keeps_try_except; [| intros]
        | apply keeps_bind; [| intros] ].

Local Ltac keeps_case :=
  match goal with
  | |- keeps (match ?x with _ => _ end) => destruct x
  end.

Local Ltac keeps_auto := repeat (step_keeps || keeps_case).

Lemma keeps_toggle n : keeps (toggle_extension json_dumps python_semantics n).
Proof.
  unfold toggle_extension. step_keeps; [step_keeps |]. keeps_case; [| step_keeps].
  intros st Hst. unfold bind at 1. unfold deref.
  destruct (objects st !! n0) as [m|] eqn:Hm; [| done].
  unfold bind at 1. unfold modify at 1.
  match goal with
  | |- consistent (?c ?x).2 =>
      cut (keeps c); [intros Hk; apply Hk; by apply consistent_flip |]
  end.
  keeps_auto.
Qed.

Lemma keeps_reload n : keeps (reload_extension json_dumps python_semantics n).
Proof. unfold reload_extension. keeps_auto. Qed.

Lemma keeps_uninstall n : keeps (uninstall_extension EXT_INSTALLED EXT_MANIFEST n).
Proof.
  intros st Hst. destruct (getitem (extensions st) n) as [r|] eqn:Hr.
  - destruct (registered_object st n r Hst Hr) as (m & _ & Hm & _).
    pose proof (unload_consistent st n Hst) as Hc1.
    destruct (uninstall_registered EXT_INSTALLED EXT_MANIFEST st n r m Hr Hm _ eq_refl)
      as (st2 & es & -> & Ho & He & Hl & _).
    { intros _. by apply unload_returns. }
    simpl. eapply consistent_delete; [exact Ho | exact He | exact Hl |].
    by destruct (bool_decide _).
  - by rewrite uninstall_unregistered.
Qed.

Lemma keeps_register_and_load r :
  keeps (register_and_load EXT_MANIFEST json_dumps python_semantics r).
Proof. unfold register_and_load. keeps_auto. Qed.

Lemma keeps_install_from_folder path :
  keeps (install_from_folder EXT_INSTALLED EXT_MANIFEST json_dumps
           python_semantics py_repr path).
Proof.
  unfold install_from_folder. keeps_auto; apply keeps_register_and_load.
Qed.

Lemma keeps_install_single_file path :
  keeps (install_single_file EXT_INSTALLED EXT_MANIFEST json_dumps
           python_semantics str_lower path).
Proof.
  unfold install_single_file, _create_js_extension, _create_python_extension.
  keeps_auto; apply keeps_register_and_load.
Qed.

Lemma keeps_try_roots zip_path roots :
  keeps (try_roots EXT_INSTALLED EXT_MANIFEST json_dumps python_semantics py_repr
           zip_path roots).
Proof.
  induction roots as [|root roots IH]; simpl.
  - keeps_auto.
  - apply keeps_bind; [apply keeps_install_from_folder |].
    intros []; [keeps_auto | exact IH].
Qed.

Lemma keeps_install_from_zip path :
  keeps (install_from_zip EXT_INSTALLED EXT_MANIFEST json_dumps
           python_semantics mkdtemp py_repr path).
Proof.
  unfold install_from_zip.
  apply keeps_bind; [step_keeps |]. intros d.
  apply keeps_bind; [step_keeps |]. intros _.
  apply keeps_bind.
  - apply keeps_try_except; [| intros; keeps_auto].
    apply keeps_bind; [step_keeps |]. intros _.
    apply keeps_bind; [step_keeps |]. intros d1.
    apply keeps_try_roots.
  - intros res. keeps_auto.
Qed.

Lemma keeps_install path :
  keeps (install_extension EXT_INSTALLED EXT_MANIFEST json_dumps
           python_semantics mkdtemp str_lower py_repr path).
Proof.
  unfold install_extension.
  apply keeps_try_except; [| intros; keeps_auto].
  apply keeps_bind; [step_keeps |]. intros d.
  destruct (isfile d path && endswith path ".zip"); [apply keeps_install_from_zip |].
  destruct (isfile d path); [apply keeps_install_single_file |].
  destruct (isdir d path); [apply keeps_install_from_folder | keeps_auto].
Qed.

Lemma keeps_scan_items items :
  keeps (scan_items EXT_INSTALLED json_dumps python_semantics py_repr items).
Proof.
  induction items as [|item items IH]; simpl; [apply keeps_ret |].
  apply keeps_bind; [step_keeps |]. intros d.
  apply keeps_bind; [| intros; exact IH].
  keeps_auto.
Qed.

Lemma keeps_scan :
  keeps (scan_extensions EXT_INSTALLED EXT_MANIFEST json_dumps python_semantics py_repr).
Proof.
  unfold scan_extensions.
  apply keeps_bind; [step_keeps |]. intros d.
  destruct (negb _); [apply keeps_ret |].
  apply keeps_bind; [apply keeps_scan_items |]. intros _. keeps_auto.
Qed.

Lemma keeps_load_manifest_paths paths : keeps (load_manifest_paths paths).
Proof.
  induction paths as [|path paths IH]; simpl; [apply keeps_ret |].
  apply keeps_bind; [step_keeps |]. intros d.
  apply keeps_bind; [| intros; exact IH].
  keeps_auto.
Qed.

Lemma keeps_load_manifest : keeps (load_manifest EXT_MANIFEST).
Proof.
  unfold load_manifest.
  apply keeps_bind; [step_keeps |]. intros d.
  destruct (path_exists _ _); [| apply keeps_ret].
  apply keeps_try_except; [| intros; keeps_auto].
  apply keeps_bind; [step_keeps |]. intros data.
  destruct data; try apply keeps_raise. apply keeps_load_manifest_paths.
Qed.

Lemma keeps_unload_all names : keeps (unload_all names).
Proof.
  induction names as [|n names IH]; simpl; [apply keeps_ret |].
  apply keeps_bind; [step_keeps | intros; exact IH].
Qed.

Lemma keeps_load_enabled items :
  keeps (load_enabled json_dumps python_semantics items).
Proof.
  induction items as [|[n r] items IH]; simpl; [apply keeps_ret |].
  apply keeps_bind; [step_keeps |]. intros ext.
  apply keeps_bind; [| intros; exact IH].
  keeps_auto.
Qed.

Lemma keeps_reload_all :
  keeps (reload_all_extensions json_dumps python_semantics).
Proof.
  unfold reload_all_extensions.
  apply keeps_bind; [step_keeps |]. intros loaded.
  apply keeps_bind; [apply keeps_unload_all |]. intros _.
  apply keeps_bind; [step_keeps |]. intros exts.
  apply keeps_load_enabled.
Qed.

Lemma fresh_manager_consistent d vs path : consistent (fresh_manager d vs path).
Proof.
  split; simpl.
  - intros k key r. by rewrite lookup_empty.
  - intros k key r. by rewrite lookup_empty.
  - intros k. rewrite lookup_empty. by intros [? ?].
Qed.

(** Every state the manager goes through is consistent. *)
Lemma reachable_consistent st :
  reachable EXT_INSTALLED EXT_MANIFEST json_dumps python_semantics mkdtemp
    str_lower py_repr st ->
  consistent st.
Proof.
  induction 1 as [d vs path | op st _ IH | d vs path st _ IH].
  - unfold init.
    apply (keeps_bind (load_manifest EXT_MANIFEST)
             (fun _ => scan_extensions EXT_INSTALLED EXT_MANIFEST json_dumps
                         python_semantics py_repr)).
    + apply keeps_load_manifest.
    + intros _. apply keeps_scan.
    + apply fresh_manager_consistent.
  - destruct op; simpl.
    + by apply keeps_load.
    + by apply keeps_unload.
    + by apply keeps_toggle.
    + by apply keeps_reload.
    + by apply keeps_reload_all.
    + by apply keeps_uninstall.
    + by apply keeps_install.
    + by apply keeps_install_from_zip.
    + by apply keeps_install_single_file.
    + by apply keeps_install_from_folder.
    + by apply keeps_scan.
    + by apply keeps_save_manifest.
  - by apply (consistent_same st).
Qed.

(** C10. In every state the manager goes through, from its construction
    on through loading, unloading, toggling, reloading, installing and
    uninstalling, every key of the loaded-extension map is a key of the
    registered-extension map, whatever kind of value the key is. *)
Theorem loaded_extensions_are_registered (st : ExtensionManager) (n : pyname) :
  reachable EXT_INSTALLED EXT_MANIFEST json_dumps python_semantics mkdtemp
    str_lower py_repr st ->
  is_Some (getitem (loaded_extensions st) n) ->
  is_Some (getitem (extensions st) n).
Proof.
  intros Hr. rewrite !getitem_is_Some.
  apply (loaded_registered st). by apply reachable_consistent.
Qed.

End Invariant.

(** * Scenarios

    The operations run on the concrete installation. *)

Section Scenarios.

Import Sample.

Local Abbreviation load := (load_extension dumps semantics).
Local Abbreviation toggle := (toggle_extension dumps semantics).
Local Abbreviation uninstall := (uninstall_extension ext_installed ext_manifest).
Local Abbreviation reached :=
  (reachable ext_installed ext_manifest dumps semantics tmp lower repr).

Lemma started_reached fs : reached (started fs).
Proof. apply reach_init. Qed.

Lemma hello_unloaded_reached : reached hello_unloaded.
Proof. apply (reach_run _ _ _ _ _ _ _ (op_unload (PStr "hello"))), started_reached. Qed.

Lemma manifest_save_load_roundtrip_witness :
  let m := installed "hello" "hello.js" true js in
  let d := disk_of [] in
  save m d = (true, (save m d).1.2, [])
  /\ exists m', (ExtensionManifest_load (save m d).1.2 (manifest_path m)).1 = Ok m'
       /\ name m' = name m /\ version m' = version m
       /\ description m' = description m /\ author m' = author m
       /\ main m' = main m /\ icon m' = icon m /\ enabled m' = enabled m
       /\ dependencies m' = dependencies m /\ contributes m' = contributes m
       /\ activation_events m' = activation_events m.
Proof.
  intros m d.
  assert (H : save m d = (true, (save m d).1.2, [])) by (vm_compute; reflexivity).
  split; [exact H |].
  exact (manifest_save_load_roundtrip m d _ _ H).
Defined.

(** C1, as stated, fails: the extension [hello] is registered and its
    manifest has [enabled = false], and [load_extension] answers [False],
    not [True]. *)
Lemma load_extension_disabled_is_not_success :
  getitem (extensions hello_disabled) (PStr "hello") = Some 0%nat
  /\ objects hello_disabled !! 0%nat = Some (installed "hello" "hello.js" false js)
  /\ (load (PStr "hello") hello_disabled).1 = Ok false
  /\ (load (PStr "hello") hello_disabled).1 <> Ok true.
Proof. vm_compute. repeat split; discriminate. Qed.

Lemma load_extension_disabled_or_unregistered_fails_witness :
  (getitem (extensions hello_disabled) (PStr "hello") = Some 0%nat
   /\ objects hello_disabled !! 0%nat = Some (installed "hello" "hello.js" false js)
   /\ truthy (enabled (installed "hello" "hello.js" false js)) = false)
  /\ exists msg,
       load (PStr "hello") hello_disabled = (Ok false, out [Log msg] hello_disabled)
       /\ loaded_extensions (load (PStr "hello") hello_disabled).2
          = loaded_extensions hello_disabled.
Proof.
  assert (H : getitem (extensions hello_disabled) (PStr "hello") = Some 0%nat
    /\ objects hello_disabled !! 0%nat = Some (installed "hello" "hello.js" false js)
    /\ truthy (enabled (installed "hello" "hello.js" false js)) = false)
    by (vm_compute; repeat split).
  split; [exact H |].
  apply load_extension_disabled_or_unregistered_fails.
  right. exists 0%nat, (installed "hello" "hello.js" false js). exact H.
Defined.

(** C2 on the code.  The native extension [boom] is registered and
    enabled, its entry file exists and its [activate] raises:
    [load_extension] answers [False] and does not record the extension,
    but all it emits is a log line; no [extension_error] signal. *)
Theorem load_extension_activate_raises_no_error_signal :
  getitem (extensions boom_enabled) (PStr "boom") = Some 0%nat
  /\ objects boom_enabled !! 0%nat = Some (installed "boom" "boom.py" true python)
  /\ getitem (loaded_extensions boom_enabled) (PStr "boom") = None
  /\ activate (semantics src_activate_raises) = Some (Some "boom")
  /\ (load (PStr "boom") boom_enabled).1 = Ok false
  /\ getitem (loaded_extensions (load (PStr "boom") boom_enabled).2) (PStr "boom") = None
  /\ trace (load (PStr "boom") boom_enabled).2
     = (trace boom_enabled ++ [Log "Error loading Python extension: boom"])%list
  /\ ~ In (extension_error "boom" "boom") (trace (load (PStr "boom") boom_enabled).2).
Proof.
  vm_compute. repeat split.
  intros [H | [H | [H | []]]]; discriminate.
Qed.

(** The same when the top-level code of the entry file raises. *)
Lemma load_extension_top_level_raises_no_error_signal :
  (load (PStr "crash") crash_enabled).1 = Ok false
  /\ getitem (loaded_extensions (load (PStr "crash") crash_enabled).2) (PStr "crash") = None
  /\ trace (load (PStr "crash") crash_enabled).2
     = (trace crash_enabled ++ [Log "Error loading Python extension: boom"])%list.
Proof. vm_compute. repeat split. Qed.

(** C3, as stated, fails: [sticky] is a loaded native extension whose
    [deactivate] raises, and [unload_extension] answers [False], keeps the
    loaded record and the module, and emits no unload signal. *)
Lemma unload_keeps_extension_when_deactivate_raises :
  getitem (loaded_extensions sticky_loaded) (PStr "sticky") = Some 0%nat
  /\ getitem (python_extensions sticky_loaded) (PStr "sticky")
     = Some (semantics src_deactivate_raises)
  /\ deactivate (semantics src_deactivate_raises) = Some (Some "boom")
  /\ (unload_extension (PStr "sticky") sticky_loaded).1 = Ok false
  /\ (unload_extension (PStr "sticky") sticky_loaded).1 <> Ok true
  /\ getitem (loaded_extensions (unload_extension (PStr "sticky") sticky_loaded).2) (PStr "sticky")
     = Some 0%nat
  /\ getitem (python_extensions (unload_extension (PStr "sticky") sticky_loaded).2) (PStr "sticky")
     = Some (semantics src_deactivate_raises)
  /\ ~ In (extension_unloaded "sticky")
         (trace (unload_extension (PStr "sticky") sticky_loaded).2).
Proof.
  vm_compute. repeat split; try discriminate.
  intros [H | [H | [H | [H | []]]]]; discriminate.
Qed.

Lemma unload_extension_deactivate_raises_witness :
  (getitem (loaded_extensions sticky_loaded) (PStr "sticky") = Some 0%nat
   /\ objects sticky_loaded !! 0%nat = Some (installed "sticky" "sticky.py" true python)
   /\ type (installed "sticky" "sticky.py" true python) = python
   /\ getitem (python_extensions sticky_loaded) (PStr "sticky")
      = Some (semantics src_deactivate_raises)
   /\ deactivate (semantics src_deactivate_raises) = Some (Some "boom"))
  /\ unload_extension (PStr "sticky") sticky_loaded
     = (Ok false, out [Log ("Error unloading extension: " ++ "boom")] sticky_loaded).
Proof.
  assert (H : getitem (loaded_extensions sticky_loaded) (PStr "sticky") = Some 0%nat
    /\ objects sticky_loaded !! 0%nat = Some (installed "sticky" "sticky.py" true python)
    /\ type (installed "sticky" "sticky.py" true python) = python
    /\ getitem (python_extensions sticky_loaded) (PStr "sticky")
       = Some (semantics src_deactivate_raises)
    /\ deactivate (semantics src_deactivate_raises) = Some (Some "boom"))
    by (vm_compute; repeat split).
  split; [exact H |].
  destruct H as (H1 & H2 & H3 & H4 & H5).
  exact (unload_extension_deactivate_raises sticky_loaded "sticky" 0
           (installed "sticky" "sticky.py" true python)
           (semantics src_deactivate_raises) "boom" H1 H2 H3 H4 H5).
Defined.

Lemma load_extension_idempotent_witness :
  let st1 := (load (PStr "hello") hello_unloaded).2 in
  (consistent hello_unloaded
   /\ getitem (loaded_extensions hello_unloaded) (PStr "hello") = None
   /\ load (PStr "hello") hello_unloaded = (Ok true, st1))
  /\ is_Some (getitem (loaded_extensions st1) (PStr "hello"))
  /\ exists st2, load (PStr "hello") st1 = (Ok true, st2)
       /\ loaded_extensions st2 = loaded_extensions st1.
Proof.
  intros st1.
  assert (Hc : consistent hello_unloaded)
    by exact (reachable_consistent _ _ _ _ _ _ _ _ hello_unloaded_reached).
  assert (Hl : load (PStr "hello") hello_unloaded = (Ok true, st1))
    by (vm_compute; reflexivity).
  split; [split; [exact Hc | split; [vm_compute; reflexivity | exact Hl]] |].
  exact (load_extension_idempotent dumps semantics hello_unloaded st1 (PStr "hello")
           Hc Hl).
Defined.

(** Toggling the disabled extension [boom] on saves [enabled = true],
    the load fails, and the extension is left enabled and not loaded. *)
Lemma toggle_extension_failed_load_leaves_enabled :
  let st' := (toggle (PStr "boom") boom_disabled).2 in
  reached st'
  /\ (toggle (PStr "boom") boom_disabled).1 = Ok false
  /\ objects st' !! 0%nat = Some (installed "boom" "boom.py" true python)
  /\ getitem (loaded_extensions st') (PStr "boom") = None
  /\ files (disk st') !! "/ext/installed/boom/package.json"
     = Some (Doc (save_data (installed "boom" "boom.py" true python))).
Proof.
  intros st'. split.
  - apply (reach_run _ _ _ _ _ _ _ (op_toggle (PStr "boom"))), started_reached.
  - vm_compute. repeat split.
Qed.







Lemma loaded_extensions_are_registered_witness :
  (reached hello_enabled /\ is_Some (getitem (loaded_extensions hello_enabled) (PStr "hello")))
  /\ is_Some (getitem (extensions hello_enabled) (PStr "hello")).
Proof.
  assert (Hl : is_Some (getitem (loaded_extensions hello_enabled) (PStr "hello")))
    by (vm_compute; eauto).
  split; [split; [apply started_reached | exact Hl] |].
  exact (loaded_extensions_are_registered ext_installed ext_manifest dumps
           semantics tmp lower repr hello_enabled (PStr "hello") (started_reached _) Hl).
Defined.

End Scenarios.

(** * More on the lifecycle *)

Section Loading.

Variable json_dumps : json -> string.
Variable python_semantics : string -> PyProgram.

Local Abbreviation load := (load_extension json_dumps python_semantics).

(** A file that can be read exists. *)
Lemma read_text_exists d p code :
  read_text json_dumps d p = Ok code -> path_exists d p = true.
Proof using Type.
  clear python_semantics.
  unfold read_text, path_exists, isfile. intros H.
  destruct (files d !! p) as [f|] eqn:Hf; [| discriminate].
  rewrite bool_decide_eq_true_2; [done | by eexists].
Qed.

(** Up to the dispatch on the type, [load_extension] on a registered,
    enabled extension that is not loaded. *)
Lemma load_dispatch st n r m :
  getitem (extensions st) (PStr n) = Some r -> objects st !! r = Some m ->
  truthy (enabled m) = true -> getitem (loaded_extensions st) (PStr n) = None ->
  load (PStr n) st
  = match type m with
    | js => _load_js_extension json_dumps r m st
    | python => _load_python_extension json_dumps python_semantics r m st
    | unknown => (Ok false, out [Log ("Unknown extension type: " ++ type_str (type m))] st)
    end.
Proof.
  intros Hr Hm Hen Hl.
  unfold load_extension, bind, gets, deref. simpl. rewrite Hr, Hm, Hen. simpl.
  rewrite Hl. rewrite bool_decide_eq_false_2 by (by intros [? ?]).
  rewrite try_except_returns by apply load_dispatch_returns.
  by destruct (type m).
Qed.


(** X2. A load that cannot begin changes nothing: when the entry file of
    a script or native extension does not exist, or the type is unknown,
    [load_extension] answers [False] and only writes a log line. *)
Theorem load_extension_without_entry_file
    (st : ExtensionManager) (n : string) (r : nat) (m : ExtensionManifest) :
  getitem (extensions st) (PStr n) = Some r -> objects st !! r = Some m ->
  truthy (enabled m) = true -> getitem (loaded_extensions st) (PStr n) = None ->
  type m = unknown \/ path_exists (disk st) (get_main_path m) = false ->
  exists msg, load (PStr n) st = (Ok false, out [Log msg] st).
Proof.
  intros Hr Hm Hen Hl Hcase.
  rewrite (load_dispatch st n r m Hr Hm Hen Hl).
  destruct Hcase as [-> | Hex]; [by eexists |].
  destruct (type m).
  - unfold _load_js_extension, bind, gets, log, emit, modify, ret. simpl.
    rewrite Hex. simpl. by eexists.
  - unfold _load_python_extension, bind, gets, log, emit, modify, ret. simpl.
    rewrite Hex. simpl. by eexists.
  - by eexists.
Qed.


(** X4. A native extension whose top-level code or whose [activate]
    raises: [load_extension] answers [False], writes one log line with
    the message and records nothing, but the extension's directory stays
    on [sys.path]. *)
Theorem load_native_extension_raises
    (st : ExtensionManager) (n : string) (r : nat) (m : ExtensionManifest)
    (src e : string) :
  getitem (extensions st) (PStr n) = Some r -> objects st !! r = Some m ->
  name m = JStr n -> type m = python ->
  truthy (enabled m) = true -> getitem (loaded_extensions st) (PStr n) = None ->
  endswith (get_main_path m) ".py" = true ->
  read_text json_dumps (disk st) (get_main_path m) = Ok src ->
  exec_error (python_semantics src) = Some e
  \/ (exec_error (python_semantics src) = None
      /\ activate (python_semantics src) = Some (Some e)) ->
  load (PStr n) st
  = (Ok false,
     out [Log ("Error loading Python extension: " ++ e)]
       (if bool_decide (extension_dir m ∈ sys_path st) then st
        else set_sys_path (extension_dir m :: sys_path st) st)).
Proof.
  intros Hr Hm Hn Ht Hen Hl Hpy Hread Hcase.
  rewrite (load_dispatch st n r m Hr Hm Hen Hl), Ht.
  unfold _load_python_extension, exec_module, spec_from_file_location, bind,
    gets, try_except, lift, log, emit, modify, ret, raise. simpl.
  rewrite (read_text_exists _ _ _ Hread), Hn, Hpy. simpl.
  assert (Hd : disk (if bool_decide (extension_dir m ∈ sys_path st) then st
                     else set_sys_path (extension_dir m :: sys_path st) st) = disk st)
    by (by destruct (bool_decide _)).
  rewrite Hd, Hread.
  destruct Hcase as [Hx | [Hx Ha]]; rewrite Hx; simpl; [done |].
  by rewrite Ha.
Qed.

End Loading.

Section Unloading.



End Unloading.

Section Reloading.

Variable json_dumps : json -> string.
Variable python_semantics : string -> PyProgram.

Local Abbreviation load := (load_extension json_dumps python_semantics).
Local Abbreviation reload := (reload_extension json_dumps python_semantics).
Local Abbreviation toggle := (toggle_extension json_dumps python_semantics).

(** On a consistent manager a successful load leaves the name loaded. *)
Lemma load_true_loaded st n st' :
  consistent st -> load n st = (Ok true, st') ->
  is_Some (getitem (loaded_extensions st') n).
Proof.
  intros Hc H.
  apply load_effect in H
    as (_ & _ & _ & [(-> & _ & _ & Hs) | (r & m & k & _ & Hr & Hm & _ & Hk & _ & ->)]).
  - by apply Hs.
  - destruct (registered_object st n r Hc Hr) as (m2 & k2 & Hm2 & Hk2 & Hkey).
    assert (k2 = k) as -> by congruence.
    rewrite getitem_setitem. case_decide; [by eexists | done].
Qed.

(** The state in which a reload or an uninstall goes on after its
    unloading step. *)
Lemma after_unload st n :
  consistent st ->
  let st1 := if bool_decide (is_Some (getitem (loaded_extensions st) n))
             then (unload_extension n st).2 else st in
  (if bool_decide (is_Some (getitem (loaded_extensions st) n))
   then (unload_extension n ;;; ret tt)%M else ret tt) st = (Ok tt, st1)
  /\ objects st1 = objects st /\ extensions st1 = extensions st
  /\ disk st1 = disk st /\ consistent st1.
Proof using Type.
  clear json_dumps python_semantics.
  intros Hc st1. subst st1. destruct (bool_decide _); [| done].
  destruct (unload_returns st n Hc) as [b Hb].
  pose proof (unload_consistent st n Hc) as Hc1.
  unfold bind. destruct (unload_extension n st) as [res st1] eqn:E.
  simpl in *. subst res.
  apply unload_effect in E as (? & ? & ? & _). done.
Qed.

(** [reload_extension] on a registered name: unload when loaded, without
    regard to the answer, then load when the manifest is enabled. *)
Lemma reload_registered st n r m :
  consistent st -> getitem (extensions st) n = Some r -> objects st !! r = Some m ->
  let st1 := if bool_decide (is_Some (getitem (loaded_extensions st) n))
             then (unload_extension n st).2 else st in
  reload n st = if truthy (enabled m) then load n st1 else (Ok true, st1).
Proof.
  intros Hc Hr Hm st1.
  destruct (after_unload st n Hc) as (Hu & Ho1 & He1 & _ & _). fold st1 in Hu, Ho1, He1.
  unfold reload_extension.
  erewrite bind_ok by reflexivity. rewrite Hr.
  erewrite bind_ok by reflexivity.
  erewrite bind_ok by exact Hu.
  erewrite bind_ok by reflexivity. rewrite He1, Hr.
  erewrite bind_ok by (unfold deref; rewrite Ho1, Hm; reflexivity).
  by destruct (truthy (enabled m)).
Qed.

(** X6. [reload_extension] answers [False] for an unregistered name and
    changes nothing.  For a registered name it never changes what is
    registered; it answers [True] when the manifest is disabled, whether
    or not anything was unloaded; and when the manifest is enabled and the
    answer is [True], the extension is loaded afterwards. *)
Theorem reload_extension_outcome (st : ExtensionManager) (n : pyname) :
  consistent st ->
  (getitem (extensions st) n = None -> reload n st = (Ok false, st))
  /\ (forall r m,
        getitem (extensions st) n = Some r -> objects st !! r = Some m ->
        extensions (reload n st).2 = extensions st
        /\ objects (reload n st).2 = objects st
        /\ (truthy (enabled m) = false -> (reload n st).1 = Ok true)
        /\ (truthy (enabled m) = true -> (reload n st).1 = Ok true ->
            is_Some (getitem (loaded_extensions (reload n st).2) n))).
Proof.
  intros Hc. split.
  - intros Hr. unfold reload_extension, bind, gets. simpl. by rewrite Hr.
  - intros r m Hr Hm. rewrite (reload_registered st n r m Hc Hr Hm).
    destruct (after_unload st n Hc) as (_ & Ho1 & He1 & _ & Hc1).
    set (st1 := if bool_decide (is_Some (getitem (loaded_extensions st) n))
                then (unload_extension n st).2 else st) in *.
    destruct (truthy (enabled m)) eqn:Hen.
    + destruct (load n st1) as [res st2] eqn:E. simpl.
      pose proof E as E'. apply load_effect in E' as (Ho2 & He2 & _).
      split; [by rewrite He2 | split; [by rewrite Ho2 |]].
      split; [done |].
      intros _ ->. by apply (load_true_loaded st1).
    + simpl. repeat split; try done.
Qed.

(** X7. Reloading an enabled native extension whose [deactivate] raises
    answers [True] although nothing was unloaded or loaded again: the
    failed unload leaves the record, and the load finds the extension
    already loaded.  Two log lines are all that happens. *)
Theorem reload_extension_when_unload_fails
    (st : ExtensionManager) (n : string) (r r0 : nat) (m m0 : ExtensionManifest)
    (module : PyProgram) (e : string) :
  consistent st ->
  getitem (extensions st) (PStr n) = Some r -> objects st !! r = Some m ->
  truthy (enabled m) = true ->
  getitem (loaded_extensions st) (PStr n) = Some r0 -> objects st !! r0 = Some m0 ->
  type m0 = python -> getitem (python_extensions st) (PStr n) = Some module ->
  deactivate module = Some (Some e) ->
  reload (PStr n) st
  = (Ok true,
     out [Log ("Extension already loaded: " ++ n)]
       (out [Log ("Error unloading extension: " ++ e)] st)).
Proof.
  intros Hc Hr Hm Hen Hl Hm0 Ht Hp Hd.
  rewrite (reload_registered st (PStr n) r m Hc Hr Hm), Hen.
  assert (Hu : unload_extension (PStr n) st
               = (Ok false, out [Log ("Error unloading extension: " ++ e)] st)).
  { unfold unload_extension, bind, gets, deref, try_except. simpl.
    rewrite Hl, Hm0. simpl. rewrite Ht. simpl. by rewrite Hp, Hd. }
  rewrite bool_decide_eq_true_2 by (by eexists). rewrite Hu. simpl.
  apply (load_already_loaded _ _ _ (PStr n) r m); simpl; done.
Qed.

End Reloading.

Section Toggling.

Variable json_dumps : json -> string.
Variable python_semantics : string -> PyProgram.

Local Abbreviation load := (load_extension json_dumps python_semantics).
Local Abbreviation toggle := (toggle_extension json_dumps python_semantics).

(** [toggle_extension] on a registered name, step by step. *)
Lemma toggle_registered st n r m :
  getitem (extensions st) n = Some r -> objects st !! r = Some m ->
  let m' := flip_enabled m in
  let st1 := (save_ext m' (set_objects (<[r := m']> (objects st)) st)).2 in
  toggle n st
  = match (if truthy (enabled m') then load n st1 else unload_extension n st1) with
    | (Ok b, st2) =>
        (Ok b,
         if b then out [Log ("Extension " ++ py_str n ++ " "
                             ++ (if truthy (enabled m') then "enabled" else "disabled"))] st2
         else st2)
    | (Raise e, st2) => (Raise e, st2)
    end.
Proof.
  intros Hr Hm m' st1.
  unfold toggle_extension.
  erewrite bind_ok by reflexivity. rewrite Hr.
  erewrite bind_ok by (unfold deref; rewrite Hm; reflexivity).
  erewrite bind_ok by reflexivity.
  fold m'.
  assert (Hs : exists ok, save_ext m' (set_objects (<[r := m']> (objects st)) st)
                          = (Ok ok, st1)).
  { subst st1. unfold save_ext. destruct (save m' _) as [[ok d'] printed].
    by eexists. }
  destruct Hs as [ok Hs]. erewrite bind_ok by exact Hs.
  unfold bind.
  destruct (truthy (enabled m'));
    match goal with |- context [?f n st1] => destruct (f n st1) as [[[]|e] st2] end;
    reflexivity.
Qed.

(** What [toggle_extension] leaves of the store and the registrations. *)
Lemma toggle_frame st n r m :
  consistent st -> getitem (extensions st) n = Some r -> objects st !! r = Some m ->
  objects (toggle n st).2 = <[r := flip_enabled m]> (objects st)
  /\ extensions (toggle n st).2 = extensions st
  /\ exists b, (toggle n st).1 = Ok b.
Proof.
  intros Hc Hr Hm. rewrite (toggle_registered st n r m Hr Hm).
  set (m' := flip_enabled m).
  set (st1 := (save_ext m' (set_objects (<[r := m']> (objects st)) st)).2).
  assert (H1 : objects st1 = <[r := m']> (objects st)
               /\ extensions st1 = extensions st /\ consistent st1).
  { subst st1. unfold save_ext. destruct (save m' _) as [[ok d'] printed]. simpl.
    split; [done | split; [done |]].
    apply (consistent_same (set_objects (<[r := m']> (objects st)) st)); try done.
    by apply consistent_flip. }
  destruct H1 as (Ho1 & He1 & Hc1).
  destruct (truthy (enabled m')).
  - destruct (load_returns json_dumps python_semantics st1 n Hc1) as [b Hb].
    destruct (load n st1) as [res st2] eqn:E. simpl in Hb. subst res.
    apply load_effect in E as (Ho2 & He2 & _).
    destruct b; simpl; rewrite ?Ho2, ?He2; eauto.
  - destruct (unload_returns st1 n Hc1) as [b Hb].
    destruct (unload_extension n st1) as [res st2] eqn:E. simpl in Hb. subst res.
    apply unload_effect in E as (Ho2 & He2 & _).
    destruct b; simpl; rewrite ?Ho2, ?He2; eauto.
Qed.

(** X8. Toggling twice returns the flag to its truth value: the
    registrations are as before and the manifest object differs from the
    original at most in [enabled], which is now the Boolean the original
    flag counted as; a flag that was a Boolean is restored exactly. *)
Theorem toggle_extension_twice
    (st : ExtensionManager) (n : pyname) (r : nat) (m : ExtensionManifest) :
  consistent st -> getitem (extensions st) n = Some r -> objects st !! r = Some m ->
  let st2 := (toggle n (toggle n st).2).2 in
  extensions st2 = extensions st
  /\ objects st2 = <[r := flip_enabled (flip_enabled m)]> (objects st)
  /\ enabled (flip_enabled (flip_enabled m)) = JBool (truthy (enabled m))
  /\ (forall b, enabled m = JBool b -> flip_enabled (flip_enabled m) = m).
Proof.
  intros Hc Hr Hm st2.
  destruct (toggle_frame st n r m Hc Hr Hm) as (Ho1 & He1 & _).
  assert (Hc1 : consistent (toggle n st).2) by (by apply keeps_toggle).
  destruct (toggle_frame (toggle n st).2 n r (flip_enabled m) Hc1) as (Ho2 & He2 & _).
  { by rewrite He1. }
  { by rewrite Ho1, lookup_insert_eq. }
  subst st2. rewrite He2, He1, Ho2, Ho1, insert_insert_eq.
  repeat split; try done.
  - simpl. by rewrite negb_involutive.
  - intros b Hb. destruct m. simpl in *. subst. unfold flip_enabled. simpl.
    by rewrite negb_involutive.
Qed.


End Toggling.

(** ** Installing only adds *)

Lemma extends_refl st : extends st st.
Proof. by split. Qed.

Lemma extends_trans st1 st2 st3 : extends st1 st2 -> extends st2 st3 -> extends st1 st3.
Proof. intros [A1 A2 A3] [B1 B2 B3]. split; eauto. Qed.

Lemma extends_same st st' :
  objects st' = objects st -> extensions st' = extensions st ->
  loaded_extensions st' = loaded_extensions st -> extends st st'.
Proof. intros Ho He Hl. split; rewrite ?Ho, ?He, ?Hl; done. Qed.

Section Grows.

Context {A B : Type}.

Lemma grows_ret (a : A) : grows (ret a).
Proof. intros st Hc. split; [done | apply extends_refl]. Qed.

Lemma grows_raise (e : string) : grows (@raise A e).
Proof. intros st Hc. split; [done | apply extends_refl]. Qed.

Lemma grows_lift (r : result A) : grows (lift r).
Proof. intros st Hc. split; [done | apply extends_refl]. Qed.

Lemma grows_gets (f : ExtensionManager -> A) : grows (gets f).
Proof. intros st Hc. split; [done | apply extends_refl]. Qed.

Lemma grows_bind (c : M A) (k : A -> M B) :
  grows c -> (forall a, grows (k a)) -> grows (bind c k).
Proof.
  intros Hc Hk st Hst. unfold bind. destruct (Hc st Hst) as [H1 H2].
  destruct (c st) as [[a|e] st']; simpl in *; [| done].
  destruct (Hk a st' H1) as [H3 H4]. split; [done |]. by eapply extends_trans.
Qed.

Lemma grows_try_except (c : M A) (h : string -> M A) :
  grows c -> (forall e, grows (h e)) -> grows (try_except c h).
Proof.
  intros Hc Hh st Hst. unfold try_except. destruct (Hc st Hst) as [H1 H2].
  destruct (c st) as [[a|e] st']; simpl in *; [done |].
  destruct (Hh e st' H1) as [H3 H4]. split; [done |]. by eapply extends_trans.
Qed.

End Grows.

Lemma grows_same {A} (c : M A) :
  (forall st, objects (c st).2 = objects st) ->
  (forall st, extensions (c st).2 = extensions st) ->
  (forall st, loaded_extensions (c st).2 = loaded_extensions st) ->
  grows c.
Proof.
  intros Ho He Hl st Hc. split.
  - by apply (consistent_same st).
  - by apply extends_same.
Qed.

Lemma grows_emit e : grows (emit e).
Proof. by apply grows_same. Qed.

Lemma grows_log msg : grows (log msg).
Proof. apply grows_emit. Qed.

Lemma grows_on_disk op : grows (on_disk op).
Proof.
  apply grows_same; intros st; unfold on_disk; by destruct (op (disk st)).
Qed.

Lemma grows_deref r : grows (deref r).
Proof. apply grows_same; intros st; unfold deref; by destruct (objects st !! r). Qed.

Lemma grows_save_manifest path : grows (save_manifest path).
Proof.
  apply grows_same; intros st; unfold save_manifest;
    by destruct (write_json _ _ _) as [[[]|e] d'].
Qed.

Lemma grows_ExtensionManifest_new path : grows (ExtensionManifest_new path).
Proof.
  intros st Hc. split; [by apply keeps_ExtensionManifest_new |].
  unfold ExtensionManifest_new.
  destruct (ExtensionManifest_load _ _) as [[m|e] printed]; simpl;
    [| by apply extends_same].
  split; simpl; try done.
  intros r m' Hr. rewrite lookup_insert_ne; [done |].
  intros <-. pose proof (is_fresh (dom (objects st))) as Hf.
  apply Hf, elem_of_dom. by eexists.
Qed.

Lemma grows_register r : grows (register r).
Proof.
  intros st Hc. split; [by apply keeps_register |].
  unfold register, bind, deref, lift, modify, ret.
  destruct (objects st !! r) as [m|]; simpl; [| apply extends_refl].
  unfold hashable. destruct (as_name (name m)) as [k|]; simpl;
    [| apply extends_refl].
  split; simpl; try done.
  intros n Hn. rewrite getitem_setitem. by case_decide; [eexists |].
Qed.

Lemma grows_load json_dumps python_semantics n :
  grows (load_extension json_dumps python_semantics n).
Proof.
  intros st Hc. split; [by apply load_consistent |].
  destruct (load_extension _ _ n st) as [res st'] eqn:E. simpl.
  pose proof E as E'.
  apply load_effect in E'
    as (Ho & He & _ & [(Hl & _) | (r & m & k & _ & Hr & Hm & Hen & Hk & Hn0 & Hl)]).
  - by apply extends_same.
  - destruct (registered_object st n r Hc Hr) as (m2 & k2 & Hm2 & Hk2 & Hkey).
    assert (k2 = k) as -> by congruence.
    split; rewrite ?Ho, ?He, ?Hl; try done.
    intros n' r' Hn'. rewrite getitem_setitem. case_decide as Hd; [| done].
    rewrite (getitem_key _ n' n) in Hn' by congruence. congruence.
Qed.

Section Installing.

Variable EXT_INSTALLED : string.
Variable EXT_MANIFEST : string.
Variable json_dumps : json -> string.
Variable python_semantics : string -> PyProgram.
Variable mkdtemp : Disk -> string.
Variable str_lower : string -> string.
Variable py_repr : json -> string.

Lemma grows_emit_name signal n : grows (emit_name signal n).
Proof. destruct n; simpl; [apply grows_raise .. | apply grows_emit]. Qed.

Local Ltac step_grows :=
  first [ apply grows_ret | apply grows_raise | apply grows_lift
        | apply grows_log | apply grows_emit | apply grows_emit_name
        | apply grows_on_disk
        | apply grows_deref | apply grows_save_manifest
        | apply grows_register | apply grows_ExtensionManifest_new
        | apply grows_load | apply grows_gets
        | apply grows_try_except; [| intros]
        | apply grows_bind; [| intros] ].

Local Ltac grows_case :=
  match goal with
  | |- grows (match ?x with _ => _ end) => destruct x
  end.

Local Ltac grows_auto := repeat (step_grows || grows_case).

Lemma grows_register_and_load r :
  grows (register_and_load EXT_MANIFEST json_dumps python_semantics r).
Proof. unfold register_and_load. grows_auto. Qed.

Lemma grows_install_from_folder path :
  grows (install_from_folder EXT_INSTALLED EXT_MANIFEST json_dumps
           python_semantics py_repr path).
Proof.
  unfold install_from_folder. grows_auto; apply grows_register_and_load.
Qed.

Lemma grows_install_single_file path :
  grows (install_single_file EXT_INSTALLED EXT_MANIFEST json_dumps
           python_semantics str_lower path).
Proof.
  unfold install_single_file, _create_js_extension, _create_python_extension.
  grows_auto; apply grows_register_and_load.
Qed.

Lemma grows_try_roots zip_path roots :
  grows (try_roots EXT_INSTALLED EXT_MANIFEST json_dumps python_semantics py_repr
           zip_path roots).
Proof.
  induction roots as [|root roots IH]; simpl.
  - grows_auto.
  - apply grows_bind; [apply grows_install_from_folder |].
    intros []; [grows_auto | exact IH].
Qed.

Lemma grows_install_from_zip path :
  grows (install_from_zip EXT_INSTALLED EXT_MANIFEST json_dumps
           python_semantics mkdtemp py_repr path).
Proof.
  unfold install_from_zip.
  apply grows_bind; [step_grows |]. intros d.
  apply grows_bind; [step_grows |]. intros _.
  apply grows_bind.
  - apply grows_try_except; [| intros; grows_auto].
    apply grows_bind; [step_grows |]. intros _.
    apply grows_bind; [step_grows |]. intros d1.
    apply grows_try_roots.
  - intros res. apply grows_bind; [| intros; step_grows].
    apply grows_same; by intros st.
Qed.

Lemma grows_install path :
  grows (install_extension EXT_INSTALLED EXT_MANIFEST json_dumps
           python_semantics mkdtemp str_lower py_repr path).
Proof.
  unfold install_extension.
  apply grows_try_except; [| intros; grows_auto].
  apply grows_bind; [step_grows |]. intros d.
  destruct (isfile d path && endswith path ".zip"); [apply grows_install_from_zip |].
  destruct (isfile d path); [apply grows_install_single_file |].
  destruct (isdir d path); [apply grows_install_from_folder | grows_auto].
Qed.

Lemma grows_scan_items items :
  grows (scan_items EXT_INSTALLED json_dumps python_semantics py_repr items).
Proof.
  induction items as [|item items IH]; simpl; [apply grows_ret |].
  apply grows_bind; [step_grows |]. intros d.
  apply grows_bind; [| intros; exact IH].
  grows_auto.
Qed.

(** X10. Installing and scanning only add to a consistent manager: every
    name registered before is registered afterwards, every loaded record
    is still there and refers to the same manifest object, and no manifest
    object has changed.  In particular, installing over the name of a
    loaded extension replaces the registration but not the loaded
    record. *)
Theorem install_and_scan_only_add (st : ExtensionManager) (path : string) :
  consistent st ->
  extends st (install_extension EXT_INSTALLED EXT_MANIFEST json_dumps
                python_semantics mkdtemp str_lower py_repr path st).2
  /\ extends st (scan_extensions EXT_INSTALLED EXT_MANIFEST json_dumps
                   python_semantics py_repr st).2.
Proof.
  intros Hc. split.
  - by apply grows_install.
  - apply (grows_bind (gets disk)); [apply grows_gets | | done].
    intros d. destruct (negb _); [apply grows_ret |].
    apply grows_bind; [apply grows_scan_items |]. intros _.
    apply grows_bind; [apply grows_save_manifest | intros; apply grows_ret].
Qed.

End Installing.

(** ** The scratch directory of a zip install *)

(** Nothing of a removed tree exists. *)
Lemma rmtree_gone d dir : path_exists (rmtree d dir) dir = false.
Proof.
  assert (Hself : in_tree dir dir = true).
  { unfold in_tree, inside. by rewrite String.eqb_refl. }
  assert (Hunder : forall k, under dir k = true -> in_tree dir k = true).
  { intros k Hk. unfold in_tree, inside. rewrite Hk.
    by rewrite orb_true_r. }
  unfold path_exists, isfile, isdir, rmtree. simpl.
  apply orb_false_iff. split; [| apply orb_false_iff; split].
  - apply bool_decide_eq_false_2. intros [f Hf].
    apply map_lookup_filter_Some in Hf as [_ Hf]. simpl in Hf. congruence.
  - apply bool_decide_eq_false_2. intros Hin.
    apply elem_of_filter in Hin as [Hin _]. congruence.
  - apply not_true_is_false. intros Hex.
    apply existsb_exists in Hex as ([k f] & Hin & Hu).
    apply list_elem_of_In, elem_of_map_to_list, map_lookup_filter_Some in Hin
      as [_ Hin].
    simpl in *. rewrite Hunder in Hin by done. discriminate.
Qed.

Section Zip.

Variable EXT_INSTALLED : string.
Variable EXT_MANIFEST : string.
Variable json_dumps : json -> string.
Variable python_semantics : string -> PyProgram.
Variable mkdtemp : Disk -> string.
Variable py_repr : json -> string.

(** X11. Whatever [install_from_zip] answers, the scratch directory it
    extracted the archive to does not exist afterwards. *)
Theorem install_from_zip_removes_scratch
    (st st' : ExtensionManager) (zip_path : string) (b : bool) :
  install_from_zip EXT_INSTALLED EXT_MANIFEST json_dumps python_semantics
    mkdtemp py_repr zip_path st = (Ok b, st') ->
  path_exists (disk st') (mkdtemp (disk st)) = false.
Proof.
  unfold install_from_zip. unfold bind at 1. simpl.
  unfold bind at 1.
  destruct (on_disk _ st) as [[[]|e] s1]; [| discriminate].
  unfold bind at 1.
  destruct (try_except _ _ s1) as [[res|e] s2]; [| discriminate].
  unfold bind, modify, ret. simpl. intros [= _ <-]. simpl.
  apply rmtree_gone.
Qed.

End Zip.

(** ** What uninstalling deletes *)




Section UninstallFiles.

Variable EXT_INSTALLED : string.
Variable EXT_MANIFEST : string.

Local Abbreviation uninstall := (uninstall_extension EXT_INSTALLED EXT_MANIFEST).




End UninstallFiles.

(** ** More on manifests *)

(** What the constructor derives. *)
Lemma manifest_load_derived d path m :
  (ExtensionManifest_load d path).1 = Ok m ->
  manifest_path m = path /\ extension_dir m = dirname path
  /\ type m = (if endswith (main m) ".js" then js
               else if endswith (main m) ".py" then python else unknown).
Proof.
  unfold ExtensionManifest_load.
  destruct (read_json d path) as [[| | | | |items]|e]; simpl; try discriminate.
  - destruct (get_default items "main" (JStr "main.js")); simpl; try discriminate.
    by intros [= <-].
  - by intros [= <-].
Qed.

(** X13. Constructing a manifest raises exactly when the file holds a
    JSON document of the wrong shape: one that is not an object, or an
    object whose [main] is not a string.  (A file that cannot be read or
    parsed gives the defaults instead.) *)
Theorem manifest_load_raises_iff (d : Disk) (path : string) :
  (exists e, (ExtensionManifest_load d path).1 = Raise e)
  <-> exists j, files d !! path = Some (Doc j)
        /\ match j with
           | JObj items =>
               exists v, dict_get "main" items = Some v /\ forall s, v <> JStr s
           | _ => True
           end.
Proof.
  unfold ExtensionManifest_load, read_json. split.
  - intros [e H].
    destruct (files d !! path) as [[| | j |]|]; simpl in H; try discriminate.
    exists j. split; [done |].
    destruct j as [| | | | |items]; try done.
    unfold get_default in H. destruct (dict_get "main" items) as [v|]; simpl in H;
      [| discriminate].
    exists v. split; [done |]. intros s ->. discriminate.
  - intros (j & -> & Hj).
    destruct j as [| | | | |items]; simpl; try by eexists.
    destruct Hj as (v & Hv & Hs). unfold get_default. rewrite Hv. simpl.
    destruct v; try by eexists. by destruct (Hs s).
Qed.

(** X14. A manifest that was built by the constructor and saved is
    built again equal in every field, the derived ones included. *)
Theorem manifest_constructed_save_load
    (d0 d d' : Disk) (path : string) (m : ExtensionManifest)
    (printed : list event) :
  (ExtensionManifest_load d0 path).1 = Ok m ->
  save m d = (true, d', printed) ->
  (ExtensionManifest_load d' path).1 = Ok m.
Proof.
  intros Hload Hsave.
  destruct (manifest_load_derived d0 path m Hload) as (Hp & Hd & Ht).
  unfold save, write_json in Hsave.
  destruct (decide (manifest_path m ∈ readonly d)); [discriminate |].
  injection Hsave as <- _.
  unfold ExtensionManifest_load, read_json. cbn [files].
  rewrite <- Hp at 1. rewrite lookup_insert_eq. cbn.
  destruct m. simpl in *. subst. reflexivity.
Qed.

(** ** Installing a single file *)

Lemma try_except_ok {A} (c : M A) (h : string -> M A) st a st' :
  c st = (Ok a, st') -> try_except c h st = (Ok a, st').
Proof. intros H. unfold try_except. by rewrite H. Qed.

Section SingleFile.

Variable EXT_INSTALLED : string.
Variable EXT_MANIFEST : string.
Variable json_dumps : json -> string.
Variable python_semantics : string -> PyProgram.
Variable str_lower : string -> string.

(** The common tail of the installers on an object that can be
    registered: the object is registered under its name, the install
    signal is emitted, and the answer of the load is not looked at. *)
Lemma register_and_load_registers st r m n :
  consistent st -> objects st !! r = Some m -> name m = JStr n ->
  exists st',
    register_and_load EXT_MANIFEST json_dumps python_semantics r st
    = (Ok (PStr n), st')
    /\ extensions st' = setitem (PStr n) r (extensions st)
    /\ objects st' = objects st
    /\ In (extension_installed n) (trace st').
Proof.
  intros Hc Hm Hn. unfold register_and_load.
  assert (Hreg : register r st
                 = (Ok (PStr n),
                    set_extensions (setitem (PStr n) r (extensions st)) st)).
  { unfold register, bind, deref, lift, modify, ret. rewrite Hm. simpl.
    by rewrite Hn. }
  erewrite bind_ok by exact Hreg.
  pose proof (keeps_register r st Hc) as Hc1. rewrite Hreg in Hc1. simpl in Hc1.
  set (st1 := set_extensions (setitem (PStr n) r (extensions st)) st) in *.
  destruct (save_manifest EXT_MANIFEST st1) as [res2 st2] eqn:E2.
  assert (H2 : exists ok, res2 = Ok ok /\ objects st2 = objects st1
               /\ extensions st2 = extensions st1
               /\ loaded_extensions st2 = loaded_extensions st1
               /\ forall ev, In ev (trace st1) -> In ev (trace st2)).
  { unfold save_manifest in E2.
    destruct (write_json _ _ _) as [[[]|e] d']; injection E2 as <- <-;
      eexists; repeat split; try done.
    simpl. intros ev Hev. apply in_app_iff. by left. }
  destruct H2 as (ok & -> & Ho2 & He2 & Hl2 & _).
  erewrite bind_ok by exact E2.
  assert (Hc2 : consistent st2) by (by apply (consistent_same st1)).
  erewrite bind_ok by (unfold deref; rewrite Ho2; simpl; rewrite Hm; reflexivity).
  assert (H3 : exists st3,
            (if truthy (enabled m)
             then (load_extension json_dumps python_semantics (PStr n) ;;; ret tt)%M
             else ret tt) st2 = (Ok tt, st3)
            /\ objects st3 = objects st2 /\ extensions st3 = extensions st2).
  { destruct (truthy (enabled m)); [| by exists st2].
    destruct (load_returns json_dumps python_semantics st2 (PStr n) Hc2) as [b Hb].
    unfold bind. destruct (load_extension _ _ (PStr n) st2) as [res st3] eqn:E3.
    simpl in Hb. subst res. apply load_effect in E3 as (? & ? & _).
    by exists st3. }
  destruct H3 as (st3 & E3 & Ho3 & He3).
  erewrite bind_ok by exact E3.
  unfold bind, emit, modify, ret. simpl.
  eexists. split; [reflexivity |]. simpl.
  rewrite Ho3, Ho2, He3, He2. repeat split; try done.
  apply in_app_iff. right. by left.
Qed.

(** The object built from a manifest the single-file installers
    wrote. *)
Lemma basic_manifest_loaded d mp kind n b :
  files d !! mp = Some (Doc (basic_manifest kind n b)) ->
  exists m, ExtensionManifest_load d mp = (Ok m, [])
    /\ manifest_path m = mp /\ name m = JStr n /\ version m = JStr "1.0.0"
    /\ main m = b /\ enabled m = JBool true
    /\ type m = (if endswith b ".js" then js
                 else if endswith b ".py" then python else unknown).
Proof using Type.
  clear.
  intros H. unfold ExtensionManifest_load, read_json. rewrite H. cbn.
  eexists. split; [reflexivity |]. cbn. repeat split.
Qed.

Lemma take_basename_no_slash s acc :
  startswith acc "/" = false -> startswith (take_basename s acc) "/" = false.
Proof using Type.
  clear.
  revert acc. induction s as [|c s IH]; intros acc Hacc; simpl; [done |].
  destruct (Ascii.eqb c "/") eqn:Hc; [done |].
  apply IH. unfold startswith.
  change (String.prefix "/" (String c acc))
    with (if ascii_dec "/" c then String.prefix "" acc else false).
  destruct (ascii_dec "/" c) as [<- |]; [| done].
  by rewrite Ascii.eqb_refl in Hc.
Qed.

Lemma basename_no_slash p : startswith (basename p) "/" = false.
Proof using Type. clear. by apply take_basename_no_slash. Qed.

(** Two names joined to one directory give different paths. *)
Lemma path_join_inj a b b' :
  startswith b "/" = false -> startswith b' "/" = false ->
  path_join a b = path_join a b' -> b = b'.
Proof using Type.
  clear.
  unfold path_join. intros -> ->.
  destruct (String.eqb a "" || endswith a "/"); intros H.
  - by apply (inj (String.append a)) in H.
  - apply (inj (String.append a)) in H. by apply (inj (String.append "/")) in H.
Qed.

(** X15. Installing a readable script file [stem.js] that is not
    already the file it is to be copied to: the installer answers [True],
    whether or not the extension could then be loaded, and afterwards an
    extension is registered under the sanitised stem, which is cut after
    50 code points, with the file name as [main], version 1.0.0 and
    [enabled = True], and the install signal was emitted.  The type is
    [js] only if the file name ends in lower-case [.js].  (What
    [str.lower] gives is a parameter here, so that the file is not called
    [package.json] is said apart.) *)
Theorem install_single_script_file
    (st : ExtensionManager) (file_path code stem ext : string) :
  consistent st ->
  splitext (basename file_path) = (stem, ext) -> str_lower ext = ".js" ->
  basename file_path <> "package.json" ->
  let n := take_codepoints 50 (replace_char "." "_" (replace_char " " "_" stem)) in
  let ext_dir := path_join EXT_INSTALLED n in
  let mp := path_join ext_dir "package.json" in
  let dst := path_join ext_dir (basename file_path) in
  files (disk st) !! file_path = Some (Text code) ->
  isfile (disk st) ext_dir = false ->
  mp ∉ readonly (disk st) -> dst ∉ readonly (disk st) ->
  samefile file_path dst = false ->
  exists st' r m,
    install_single_file EXT_INSTALLED EXT_MANIFEST json_dumps python_semantics
      str_lower file_path st = (Ok true, st')
    /\ getitem (extensions st') (PStr n) = Some r /\ objects st' !! r = Some m
    /\ manifest_path m = mp /\ name m = JStr n /\ version m = JStr "1.0.0"
    /\ main m = basename file_path /\ enabled m = JBool true
    /\ type m = (if endswith (basename file_path) ".js" then js
                 else if endswith (basename file_path) ".py" then python
                 else unknown)
    /\ In (extension_installed n) (trace st').
Proof.
  intros Hc Hsplit Hext Hpkg n ext_dir mp dst Hfile Hdir Hmp Hdst Hsame.
  assert (Hne : dst <> mp).
  { intros Heq. by apply path_join_inj in Heq; [| apply basename_no_slash |]. }
  unfold install_single_file. rewrite Hsplit, Hext. simpl.
  unfold _create_js_extension. fold n ext_dir mp dst.
  set (manifest := basic_manifest "JavaScript" n (basename file_path)).
  (* the disk steps *)
  set (d1 := {| files := files (disk st); dirs := {[ext_dir]} ∪ dirs (disk st);
                readonly := readonly (disk st) |}).
  set (d2 := {| files := <[mp := Doc manifest]> (files d1); dirs := dirs d1;
                readonly := readonly d1 |}).
  set (d3 := {| files := <[dst := default (Text code) (files d2 !! file_path)]> (files d2);
                dirs := dirs d2; readonly := readonly d2 |}).
  assert (H1 : on_disk (fun d => makedirs d ext_dir) st = (Ok tt, set_disk d1 st)).
  { unfold on_disk, makedirs. by rewrite Hdir. }
  assert (H2 : on_disk (fun d => write_json d mp manifest) (set_disk d1 st)
               = (Ok tt, set_disk d2 (set_disk d1 st))).
  { unfold on_disk, write_json. simpl. by destruct (decide (mp ∈ readonly (disk st))). }
  assert (H3 : on_disk (fun d => copy2 d file_path dst) (set_disk d2 (set_disk d1 st))
               = (Ok tt, set_disk d3 (set_disk d2 (set_disk d1 st)))).
  { unfold on_disk, copy2, write_all. simpl.
    assert (Hsrc : exists f, <[mp := Doc manifest]> (files (disk st)) !! file_path = Some f
                             /\ f <> Unreadable).
    { rewrite lookup_insert. case_decide; [by eexists | rewrite Hfile; by eexists]. }
    destruct Hsrc as (f & Hf & Hun). subst d3. simpl. rewrite Hf. simpl.
    rewrite Hsame.
    rewrite bool_decide_eq_false_2 by done. simpl.
    by destruct f. }
  set (sta := set_disk d3 (set_disk d2 (set_disk d1 st))) in *.
  assert (Hca : consistent sta) by (by apply (consistent_same st)).
  assert (Hdoc : files (disk sta) !! mp = Some (Doc manifest)).
  { subst sta d3 d2. simpl. rewrite lookup_insert_ne by done. apply lookup_insert_eq. }
  destruct (basic_manifest_loaded _ _ _ _ _ Hdoc)
    as (m & Hm & Hpath & Hname & Hver & Hmain & Hen & Htype).
  set (r := fresh (dom (objects sta))).
  assert (H4 : ExtensionManifest_new mp sta
               = (Ok r, out [] (set_objects (<[r := m]> (objects sta)) sta))).
  { unfold ExtensionManifest_new. by rewrite Hm. }
  pose proof (keeps_ExtensionManifest_new mp sta Hca) as Hcb.
  rewrite H4 in Hcb. simpl in Hcb.
  set (stb := out [] (set_objects (<[r := m]> (objects sta)) sta)) in *.
  destruct (register_and_load_registers stb r m n Hcb) as (stc & H5 & He5 & Ho5 & Hin5).
  { subst stb. simpl. apply lookup_insert_eq. }
  { done. }
  eexists _, r, m. split.
  - apply try_except_ok.
    erewrite bind_ok by exact H1.
    erewrite bind_ok by reflexivity.
    erewrite bind_ok by (unfold lift, read_text; simpl; rewrite Hfile; reflexivity).
    erewrite bind_ok by exact H2.
    erewrite bind_ok by exact H3.
    erewrite bind_ok by exact H4.
    erewrite bind_ok by exact H5.
    unfold bind, log, emit, modify, ret. simpl. reflexivity.
  - simpl. rewrite He5, Ho5, getitem_setitem_eq. subst stb. simpl.
    rewrite lookup_insert_eq. repeat split; try done.
    apply in_app_iff. by left.
Qed.

End SingleFile.

(** ** The error signal *)

Section ErrorSignal.

Variable json_dumps : json -> string.
Variable python_semantics : string -> PyProgram.

(** X16. [load_extension] never emits the [extension_error] signal,
    whatever the state, the name and the extension's code: all it adds to
    the trace are other events. *)
Theorem load_extension_never_emits_error_signal
    (st : ExtensionManager) (n : pyname) :
  exists es,
    trace (load_extension json_dumps python_semantics n st).2 = (trace st ++ es)%list
    /\ forall x e, ~ In (extension_error x e) es.
Proof.
  destruct (load_never_signals_error json_dumps python_semantics n st)
    as (es & Htr & Hes).
  exists es. split; [exact Htr |].
  intros x e Hin. rewrite Forall_forall in Hes.
  exact (Hes _ (proj2 (list_elem_of_In _ _) Hin)).
Qed.

End ErrorSignal.

(** * More scenarios *)

Section MoreScenarios.

Import Sample.

Local Abbreviation load := (load_extension dumps semantics).
Local Abbreviation reload := (reload_extension dumps semantics).
Local Abbreviation toggle := (toggle_extension dumps semantics).
Local Abbreviation uninstall := (uninstall_extension ext_installed ext_manifest).
Local Abbreviation reached :=
  (reachable ext_installed ext_manifest dumps semantics tmp lower repr).

Lemma calm_unloaded_reached : reached calm_unloaded.
Proof. apply (reach_run _ _ _ _ _ _ _ (op_unload (PStr "calm"))), started_reached. Qed.


Lemma load_extension_without_entry_file_witness :
  let st := ghost_enabled in
  let m := installed "ghost" "ghost.js" true js in
  (getitem (extensions st) (PStr "ghost") = Some 0%nat /\ objects st !! 0%nat = Some m
   /\ truthy (enabled m) = true /\ getitem (loaded_extensions st) (PStr "ghost") = None
   /\ path_exists (disk st) (get_main_path m) = false)
  /\ exists msg, load (PStr "ghost") st = (Ok false, out [Log msg] st).
Proof.
  intros st m.
  assert (H : getitem (extensions st) (PStr "ghost") = Some 0%nat /\ objects st !! 0%nat = Some m
    /\ truthy (enabled m) = true /\ getitem (loaded_extensions st) (PStr "ghost") = None
    /\ path_exists (disk st) (get_main_path m) = false)
    by (vm_compute; repeat split).
  split; [exact H |].
  destruct H as (H1 & H2 & H3 & H4 & H5).
  exact (load_extension_without_entry_file dumps semantics st "ghost" 0 m
           H1 H2 H3 H4 (or_intror H5)).
Defined.


Lemma load_native_extension_raises_witness :
  let st := boom_enabled in
  let m := installed "boom" "boom.py" true python in
  (getitem (extensions st) (PStr "boom") = Some 0%nat /\ objects st !! 0%nat = Some m
   /\ name m = JStr "boom" /\ type m = python /\ truthy (enabled m) = true
   /\ getitem (loaded_extensions st) (PStr "boom") = None
   /\ endswith (get_main_path m) ".py" = true
   /\ read_text dumps (disk st) (get_main_path m) = Ok src_activate_raises
   /\ exec_error (semantics src_activate_raises) = None
   /\ activate (semantics src_activate_raises) = Some (Some "boom"))
  /\ load (PStr "boom") st
     = (Ok false,
        out [Log ("Error loading Python extension: " ++ "boom")]
          (if bool_decide (extension_dir m ∈ sys_path st) then st
           else set_sys_path (extension_dir m :: sys_path st) st)).
Proof.
  intros st m.
  assert (H : getitem (extensions st) (PStr "boom") = Some 0%nat /\ objects st !! 0%nat = Some m
    /\ name m = JStr "boom" /\ type m = python /\ truthy (enabled m) = true
    /\ getitem (loaded_extensions st) (PStr "boom") = None
    /\ endswith (get_main_path m) ".py" = true
    /\ read_text dumps (disk st) (get_main_path m) = Ok src_activate_raises
    /\ exec_error (semantics src_activate_raises) = None
    /\ activate (semantics src_activate_raises) = Some (Some "boom"))
    by (vm_compute; repeat split).
  split; [exact H |].
  destruct H as (H1 & H2 & H3 & H4 & H5 & H6 & H7 & H8 & H9 & H10).
  exact (load_native_extension_raises dumps semantics st "boom" 0 m
           src_activate_raises "boom" H1 H2 H3 H4 H5 H6 H7 H8
           (or_intror (conj H9 H10))).
Defined.


Lemma reload_extension_outcome_witness :
  let st := hello_enabled in
  consistent st
  /\ (getitem (extensions st) (PStr "hello") = None -> reload (PStr "hello") st = (Ok false, st))
  /\ (forall r m,
        getitem (extensions st) (PStr "hello") = Some r -> objects st !! r = Some m ->
        extensions (reload (PStr "hello") st).2 = extensions st
        /\ objects (reload (PStr "hello") st).2 = objects st
        /\ (truthy (enabled m) = false -> (reload (PStr "hello") st).1 = Ok true)
        /\ (truthy (enabled m) = true -> (reload (PStr "hello") st).1 = Ok true ->
            is_Some (getitem (loaded_extensions (reload (PStr "hello") st).2) (PStr "hello")))).
Proof.
  intros st.
  assert (Hc : consistent st)
    by exact (reachable_consistent _ _ _ _ _ _ _ _ (started_reached _)).
  split; [exact Hc |].
  exact (reload_extension_outcome dumps semantics st (PStr "hello") Hc).
Defined.

Lemma reload_extension_when_unload_fails_witness :
  let st := sticky_loaded in
  let m := installed "sticky" "sticky.py" true python in
  (consistent st
   /\ getitem (extensions st) (PStr "sticky") = Some 0%nat /\ objects st !! 0%nat = Some m
   /\ truthy (enabled m) = true
   /\ getitem (loaded_extensions st) (PStr "sticky") = Some 0%nat
   /\ type m = python
   /\ getitem (python_extensions st) (PStr "sticky") = Some (semantics src_deactivate_raises)
   /\ deactivate (semantics src_deactivate_raises) = Some (Some "boom"))
  /\ reload (PStr "sticky") st
     = (Ok true,
        out [Log ("Extension already loaded: " ++ "sticky")]
          (out [Log ("Error unloading extension: " ++ "boom")] st)).
Proof.
  intros st m.
  assert (Hc : consistent st)
    by exact (reachable_consistent _ _ _ _ _ _ _ _ (started_reached _)).
  assert (H : getitem (extensions st) (PStr "sticky") = Some 0%nat /\ objects st !! 0%nat = Some m
    /\ truthy (enabled m) = true
    /\ getitem (loaded_extensions st) (PStr "sticky") = Some 0%nat
    /\ type m = python
    /\ getitem (python_extensions st) (PStr "sticky") = Some (semantics src_deactivate_raises)
    /\ deactivate (semantics src_deactivate_raises) = Some (Some "boom"))
    by (vm_compute; repeat split).
  split; [exact (conj Hc H) |].
  destruct H as (H1 & H2 & H3 & H4 & H5 & H6 & H7).
  exact (reload_extension_when_unload_fails dumps semantics st "sticky" 0 0 m m
           (semantics src_deactivate_raises) "boom" Hc H1 H2 H3 H4 H2 H5 H6 H7).
Defined.

Lemma toggle_extension_twice_witness :
  let st := hello_enabled in
  let m := installed "hello" "hello.js" true js in
  (consistent st /\ getitem (extensions st) (PStr "hello") = Some 0%nat
   /\ objects st !! 0%nat = Some m)
  /\ (let st2 := (toggle (PStr "hello") (toggle (PStr "hello") st).2).2 in
      extensions st2 = extensions st
      /\ objects st2 = <[0%nat := flip_enabled (flip_enabled m)]> (objects st)
      /\ enabled (flip_enabled (flip_enabled m)) = JBool (truthy (enabled m))
      /\ (forall b, enabled m = JBool b -> flip_enabled (flip_enabled m) = m)).
Proof.
  intros st m.
  assert (Hc : consistent st)
    by exact (reachable_consistent _ _ _ _ _ _ _ _ (started_reached _)).
  assert (Hr : getitem (extensions st) (PStr "hello") = Some 0%nat) by (vm_compute; reflexivity).
  assert (Hm : objects st !! 0%nat = Some m) by (vm_compute; reflexivity).
  split; [split; [exact Hc | split; [exact Hr | exact Hm]] |].
  exact (toggle_extension_twice dumps semantics st (PStr "hello") 0 m Hc Hr Hm).
Defined.


Lemma install_and_scan_only_add_witness :
  let st := zipped in
  consistent st
  /\ extends st (install_extension ext_installed ext_manifest dumps semantics tmp
                   lower repr "/home/user/pack.zip" st).2
  /\ extends st (scan_extensions ext_installed ext_manifest dumps semantics repr st).2.
Proof.
  intros st.
  assert (Hc : consistent st)
    by exact (reachable_consistent _ _ _ _ _ _ _ _ (started_reached _)).
  split; [exact Hc |].
  exact (install_and_scan_only_add ext_installed ext_manifest dumps semantics tmp
           lower repr st "/home/user/pack.zip" Hc).
Defined.

Lemma install_from_zip_removes_scratch_witness :
  let st := zipped in
  let st' := (install_from_zip ext_installed ext_manifest dumps semantics tmp repr
                "/home/user/pack.zip" st).2 in
  install_from_zip ext_installed ext_manifest dumps semantics tmp repr
    "/home/user/pack.zip" st = (Ok true, st')
  /\ path_exists (disk st') (tmp (disk st)) = false.
Proof.
  intros st st'.
  assert (H : install_from_zip ext_installed ext_manifest dumps semantics tmp repr
                "/home/user/pack.zip" st = (Ok true, st'))
    by (vm_compute; reflexivity).
  split; [exact H |].
  exact (install_from_zip_removes_scratch ext_installed ext_manifest dumps
           semantics tmp repr st st' "/home/user/pack.zip" true H).
Defined.


Lemma manifest_constructed_save_load_witness :
  let path := "/ext/installed/hello/package.json" in
  let d0 := disk_of [(path, package "hello" "hello.js" true)] in
  let m := installed "hello" "hello.js" true js in
  let d := disk_of [] in
  ((ExtensionManifest_load d0 path).1 = Ok m
   /\ save m d = (true, (save m d).1.2, []))
  /\ (ExtensionManifest_load (save m d).1.2 path).1 = Ok m.
Proof.
  intros path d0 m d.
  assert (H1 : (ExtensionManifest_load d0 path).1 = Ok m) by (vm_compute; reflexivity).
  assert (H2 : save m d = (true, (save m d).1.2, [])) by (vm_compute; reflexivity).
  split; [exact (conj H1 H2) |].
  exact (manifest_constructed_save_load d0 d _ path m [] H1 H2).
Defined.

Lemma install_single_script_file_witness :
  let st := loose_script in
  let file_path := "/home/user/my tool.js" in
  let n := "my_tool" in
  let mp := "/ext/installed/my_tool/package.json" in
  let dst := "/ext/installed/my_tool/my tool.js" in
  (consistent st
   /\ splitext (basename file_path) = ("my tool", ".js") /\ lower ".js" = ".js"
   /\ basename file_path <> "package.json"
   /\ files (disk st) !! file_path = Some (Text "console.log('tool')")
   /\ isfile (disk st) "/ext/installed/my_tool" = false
   /\ (mp ∉ readonly (disk st)) /\ (dst ∉ readonly (disk st))
   /\ samefile file_path dst = false)
  /\ exists st' r m,
       install_single_file ext_installed ext_manifest dumps semantics lower
         file_path st = (Ok true, st')
       /\ getitem (extensions st') (PStr n) = Some r /\ objects st' !! r = Some m
       /\ manifest_path m = mp /\ name m = JStr n /\ version m = JStr "1.0.0"
       /\ main m = "my tool.js" /\ enabled m = JBool true
       /\ type m = js
       /\ In (extension_installed n) (trace st').
Proof.
  intros st file_path n mp dst.
  assert (Hc : consistent st)
    by exact (reachable_consistent _ _ _ _ _ _ _ _ (started_reached _)).
  assert (H1 : splitext (basename file_path) = ("my tool", ".js"))
    by (vm_compute; reflexivity).
  assert (H2 : lower ".js" = ".js") by (vm_compute; reflexivity).
  assert (H2' : basename file_path <> "package.json") by (vm_compute; discriminate).
  assert (H3 : files (disk st) !! file_path = Some (Text "console.log('tool')"))
    by (vm_compute; reflexivity).
  assert (H4 : isfile (disk st) "/ext/installed/my_tool" = false)
    by (vm_compute; reflexivity).
  assert (H5 : mp ∉ readonly (disk st)) by (vm_compute; discriminate).
  assert (H6 : dst ∉ readonly (disk st)) by (vm_compute; discriminate).
  assert (H7 : samefile file_path dst = false) by (vm_compute; reflexivity).
  split;
    [exact (conj Hc (conj H1 (conj H2 (conj H2' (conj H3 (conj H4
              (conj H5 (conj H6 H7)))))))) |].
  exact (install_single_script_file ext_installed ext_manifest dumps semantics
           lower st file_path "console.log('tool')" "my tool" ".js"
           Hc H1 H2 H2' H3 H4 H5 H6 H7).
Defined.

End MoreScenarios.

(** * The cache of scripts and a view opened later *)














Section ScriptCache.

Variable EXT_INSTALLED : string.
Variable EXT_MANIFEST : string.
Variable json_dumps : json -> string.
Variable python_semantics : string -> PyProgram.
Variable mkdtemp : Disk -> string.
Variable str_lower : string -> string.
Variable py_repr : json -> string.

Local Abbreviation load := (load_extension json_dumps python_semantics).



Section KeepsTidy.

Context {A B : Type}.







End KeepsTidy.



































End ScriptCache.


(** * UpdateManager *)

Lemma map_option_length {A B} (f : A -> option B) l l' :
  map_option f l = Some l' -> length l' = length l.
Proof.
  revert l'. induction l as [|x l IH]; simpl; intros l'.
  - by intros [= <-].
  - destruct (f x); [| discriminate].
    destruct (map_option f l) as [ys|]; [| discriminate].
    intros [= <-]. simpl. by rewrite (IH ys).
Qed.

Lemma split_char_cons sep s : exists part parts, split_char sep s = part :: parts.
Proof.
  destruct s as [|c r]; simpl; [by eexists _, _ |].
  destruct (Ascii.eqb c sep); [by eexists _, _ |].
  destruct (split_char sep r); by eexists _, _.
Qed.

(** Splitting a text at a separator splits both sides of it. *)
Lemma split_char_app sep a b :
  split_char sep (a ++ String sep b) = (split_char sep a ++ split_char sep b)%list.
Proof.
  induction a as [|c a IH]; simpl.
  - by rewrite Ascii.eqb_refl.
  - destruct (Ascii.eqb c sep); [by rewrite IH |].
    rewrite IH. destruct (split_char_cons sep a) as (part & parts & ->). done.
Qed.

Lemma newer_loop_irrefl a indices : newer_loop a a indices = false.
Proof.
  induction indices as [|i rest IH]; simpl; [done |].
  destruct (a !! i); [| done]. by rewrite Z.ltb_irrefl.
Qed.

Lemma newer_loop_asym a b indices :
  newer_loop a b indices = true -> newer_loop b a indices = false.
Proof.
  induction indices as [|i rest IH]; simpl; [done |].
  destruct (a !! i) as [x|], (b !! i) as [y|]; try done.
  destruct (Z.ltb_spec y x), (Z.ltb_spec x y); try done; lia.
Qed.

Lemma newer_loop_trans a b c indices :
  newer_loop a b indices = true -> newer_loop b c indices = true ->
  newer_loop a c indices = true.
Proof.
  induction indices as [|i rest IH]; simpl; [done |].
  destruct (a !! i) as [x|], (b !! i) as [y|], (c !! i) as [z|]; try done.
  destruct (Z.ltb_spec y x), (Z.ltb_spec x y), (Z.ltb_spec z y), (Z.ltb_spec y z),
    (Z.ltb_spec z x), (Z.ltb_spec x z); try done; try lia.
Qed.

Section VersionOrder.

Variable py_int : string -> option Z.

Local Abbreviation valid := (_is_valid_version py_int).
Local Abbreviation newer := (_is_newer_version py_int).
Local Abbreviation parts_of := (fun v => map_option py_int (split_char "." v)).

Lemma is_newer_irrefl v : newer v v = false.
Proof.
  unfold _is_newer_version.
  destruct (parts_of v); [apply newer_loop_irrefl | done].
Qed.

Lemma is_newer_asym a b : newer a b = true -> newer b a = false.
Proof.
  unfold _is_newer_version.
  destruct (parts_of a) as [pa|]; [| done].
  destruct (parts_of b) as [pb|]; [| done].
  apply newer_loop_asym.
Qed.

Lemma is_newer_trans a b c :
  newer a b = true -> newer b c = true -> newer a c = true.
Proof.
  unfold _is_newer_version.
  destruct (parts_of a) as [pa|]; [| done].
  destruct (parts_of b) as [pb|]; [| done].
  destruct (parts_of c) as [pc|]; [| done].
  apply newer_loop_trans.
Qed.

(** X18. [_is_newer_version] is a strict order on all strings, valid
    versions or not: nothing is newer than itself, two versions are never
    each newer than the other, and newer than newer is newer. *)
Theorem is_newer_version_strict_order :
  (forall v, _is_newer_version py_int v v = false)
  /\ (forall a b, _is_newer_version py_int a b = true ->
                  _is_newer_version py_int b a = false)
  /\ (forall a b c, _is_newer_version py_int a b = true ->
                    _is_newer_version py_int b c = true ->
                    _is_newer_version py_int a c = true).
Proof.
  split; [exact is_newer_irrefl |].
  split; [exact is_newer_asym | exact is_newer_trans].
Qed.

(** The parts of a valid version. *)
Lemma valid_parts v :
  valid v = true -> exists x y z, parts_of v = Some [x; y; z].
Proof.
  unfold _is_valid_version.
  destruct (length (split_char "." v) =? 3)%nat eqn:Hlen; [| done]. simpl.
  destruct (parts_of v) as [l|] eqn:Hl; [| done]. intros _.
  apply Nat.eqb_eq in Hlen. apply map_option_length in Hl. rewrite Hlen in Hl.
  destruct l as [|x [|y [|z [|]]]]; try discriminate. by exists x, y, z.
Qed.

Lemma valid_not_empty v : valid v = true -> v <> "".
Proof. by intros H ->. Qed.

(** X19. Two valid versions of which neither is newer than the other
    have the same three numbers (the texts may differ, as 1.02.0 and
    1.2.0 do). *)
Theorem valid_versions_comparable (a b : string) :
  _is_valid_version py_int a = true -> _is_valid_version py_int b = true ->
  _is_newer_version py_int a b = false -> _is_newer_version py_int b a = false ->
  map_option py_int (split_char "." a) = map_option py_int (split_char "." b).
Proof.
  intros Ha Hb.
  destruct (valid_parts a Ha) as (x & y & z & Hpa).
  destruct (valid_parts b Hb) as (x' & y' & z' & Hpb).
  unfold _is_newer_version. rewrite Hpa, Hpb. simpl.
  destruct (Z.ltb_spec x' x), (Z.ltb_spec x x'), (Z.ltb_spec y' y), (Z.ltb_spec y y'),
    (Z.ltb_spec z' z), (Z.ltb_spec z z'); try done; try lia.
  intros _ _. do 2 f_equal; [lia |]. f_equal; [lia |]. f_equal. lia.
Qed.

(** The release the loop stops at has a valid version. *)
Lemma first_release_valid lines v d :
  first_release py_int lines = Some (v, d) -> valid v = true.
Proof.
  induction lines as [|line rest IH]; simpl; [done |].
  destruct (contains_char "-" line); [| done].
  destruct (split_max "-" 1 line) as [|vp [|dp [|]]]; try done.
  destruct (valid (strip vp)) eqn:Hv; [| done].
  by intros [= <- <-].
Qed.

Lemma first_release_app pre post :
  first_release py_int (pre ++ post)
  = match first_release py_int pre with
    | Some r => Some r
    | None => first_release py_int post
    end.
Proof.
  induction pre as [|line rest IH]; simpl; [done |].
  destruct (contains_char "-" line); [| done].
  destruct (split_max "-" 1 line) as [|vp [|dp [|]]]; try done.
  by destruct (valid (strip vp)).
Qed.

(** X20. An update is offered only for a version that is valid and
    newer than the running one; in particular never for the running
    version itself, nor for one the running version is newer than. *)
Theorem check_update_offers_only_newer
    (APP_VERSION content v d : string) (auto_check : bool) :
  check_update py_int APP_VERSION content auto_check = show_update_available v d ->
  _is_valid_version py_int v = true
  /\ _is_newer_version py_int v APP_VERSION = true
  /\ _is_newer_version py_int APP_VERSION v = false /\ v <> APP_VERSION.
Proof.
  unfold check_update.
  destruct (first_release py_int _) as [[lv ld]|] eqn:Hf.
  2: { by destruct auto_check. }
  destruct (negb (String.eqb lv "") && newer lv APP_VERSION) eqn:Hn.
  2: { by destruct auto_check. }
  intros [= <- <-]. apply andb_true_iff in Hn as [_ Hn].
  repeat split.
  - by apply (first_release_valid _ _ _ Hf).
  - done.
  - by apply is_newer_asym.
  - intros ->. by rewrite is_newer_irrefl in Hn.
Qed.

(** X21. Only the first line with a valid version counts.  When the
    update file (a text without white space at its ends) has such a line,
    what comes after it is not looked at: the check offers that version
    if it is newer than the running one, and otherwise reports that there
    are no updates, even if a later line carries a newer version. *)
Theorem check_update_first_release_decides
    (APP_VERSION head tail v d : string) (auto_check : bool) :
  strip (head ++ String LF tail) = head ++ String LF tail ->
  first_release py_int (split_char LF head) = Some (v, d) ->
  check_update py_int APP_VERSION (head ++ String LF tail) auto_check
  = if _is_newer_version py_int v APP_VERSION then show_update_available v d
    else if auto_check then nothing_shown else show_no_updates.
Proof.
  intros Hs Hf. unfold check_update.
  rewrite Hs, split_char_app, first_release_app, Hf.
  pose proof (valid_not_empty v (first_release_valid _ _ _ Hf)) as Hne.
  apply String.eqb_neq in Hne. rewrite Hne. simpl.
  by destruct (newer v APP_VERSION), auto_check.
Qed.

End VersionOrder.

Lemma valid_versions_comparable_witness :
  (_is_valid_version Sample.ascii_int "1.02.0" = true
   /\ _is_valid_version Sample.ascii_int "1.2.0" = true
   /\ _is_newer_version Sample.ascii_int "1.02.0" "1.2.0" = false
   /\ _is_newer_version Sample.ascii_int "1.2.0" "1.02.0" = false)
  /\ map_option Sample.ascii_int (split_char "." "1.02.0")
     = map_option Sample.ascii_int (split_char "." "1.2.0").
Proof.
  assert (H : _is_valid_version Sample.ascii_int "1.02.0" = true
    /\ _is_valid_version Sample.ascii_int "1.2.0" = true
    /\ _is_newer_version Sample.ascii_int "1.02.0" "1.2.0" = false
    /\ _is_newer_version Sample.ascii_int "1.2.0" "1.02.0" = false)
    by (vm_compute; repeat split).
  split; [exact H |].
  destruct H as (H1 & H2 & H3 & H4).
  exact (valid_versions_comparable Sample.ascii_int "1.02.0" "1.2.0" H1 H2 H3 H4).
Defined.

Lemma check_update_offers_only_newer_witness :
  let content := "# releases" ++ String LF ("2.0.0-beta - next" ++ String LF "") in
  check_update Sample.ascii_int "1.0.0" content true
  = show_update_available "2.0.0" "beta - next"
  /\ _is_valid_version Sample.ascii_int "2.0.0" = true
  /\ _is_newer_version Sample.ascii_int "2.0.0" "1.0.0" = true
  /\ _is_newer_version Sample.ascii_int "1.0.0" "2.0.0" = false
  /\ "2.0.0" <> "1.0.0".
Proof.
  intros content.
  assert (H : check_update Sample.ascii_int "1.0.0" content true
              = show_update_available "2.0.0" "beta - next")
    by (vm_compute; reflexivity).
  split; [exact H |].
  exact (check_update_offers_only_newer Sample.ascii_int "1.0.0" content
           "2.0.0" "beta - next" true H).
Defined.

Lemma check_update_first_release_decides_witness :
  let head := "1.0.0 - current" in
  let tail := "2.0.0 - next" in
  (strip (head ++ String LF tail) = head ++ String LF tail
   /\ first_release Sample.ascii_int (split_char LF head) = Some ("1.0.0", "current"))
  /\ check_update Sample.ascii_int "1.0.0" (head ++ String LF tail) false
     = show_no_updates.
Proof.
  intros head tail.
  assert (H1 : strip (head ++ String LF tail) = head ++ String LF tail)
    by (vm_compute; reflexivity).
  assert (H2 : first_release Sample.ascii_int (split_char LF head)
               = Some ("1.0.0", "current")) by (vm_compute; reflexivity).
  split; [exact (conj H1 H2) |].
  exact (check_update_first_release_decides Sample.ascii_int "1.0.0" head tail
           "1.0.0" "current" false H1 H2).
Defined.

(** * GitManager *)

(** ** Stripping *)

Lemma lstrip_by_first p s c r : lstrip_by p s = String c r -> p c = false.
Proof.
  induction s as [|x s IH]; simpl; [done |].
  destruct (p x) eqn:Hx; [done |]. by intros [= <- <-].
Qed.

Lemma rstrip_by_first p c r c' r' :
  rstrip_by p (String c r) = String c' r' -> c' = c.
Proof.
  simpl. destruct (rstrip_by p r); [destruct (p c) |]; by intros [= <- <-].
Qed.

(** A stripped text does not begin with white space. *)
Lemma strip_first s c : String.get 0 (strip s) = Some c -> is_space c = false.
Proof.
  unfold strip. destruct (lstrip_by is_space s) as [|x r] eqn:Hl; [done |].
  destruct (rstrip_by is_space (String x r)) as [|c' r'] eqn:Hr; [done |].
  simpl. intros [= <-].
  apply rstrip_by_first in Hr as ->. by apply lstrip_by_first in Hl.
Qed.

Lemma length_lstrip_by p s : String.length (lstrip_by p s) <= String.length s.
Proof.
  induction s as [|x s IH]; simpl; [done |]. destruct (p x); simpl; lia.
Qed.

Lemma lstrip_by_same_length p s :
  String.length (lstrip_by p s) = String.length s -> lstrip_by p s = s.
Proof.
  destruct s as [|x s]; simpl; [done |].
  destruct (p x); [| done].
  pose proof (length_lstrip_by p s). lia.
Qed.

Lemma length_rstrip_by p s : String.length (rstrip_by p s) <= String.length s.
Proof.
  induction s as [|x s IH]; simpl; [done |].
  destruct (rstrip_by p s); [destruct (p x) |]; simpl in *; lia.
Qed.

(** A text that stripping leaves alone has no white space at either
    end. *)
Lemma strip_fixed s :
  strip s = s -> lstrip_by is_space s = s /\ rstrip_by is_space s = s.
Proof.
  unfold strip. intros H.
  assert (Hl : lstrip_by is_space s = s).
  { apply lstrip_by_same_length.
    pose proof (length_lstrip_by is_space s).
    pose proof (length_rstrip_by is_space (lstrip_by is_space s)).
    rewrite H in *. lia. }
  split; [done |]. by rewrite Hl in H.
Qed.

Lemma rstrip_by_cons p c s :
  rstrip_by p s = s -> s <> "" -> rstrip_by p (String c s) = String c s.
Proof. intros H Hne. simpl. rewrite H. by destruct s. Qed.

(** Splitting at most [k + 1] times takes off a first part without the
    separator. *)
Lemma split_max_app sep k x y :
  contains_char sep x = false ->
  split_max sep (S k) (x ++ String sep y) = x :: split_max sep k y.
Proof.
  induction x as [|c x IH]; intros Hx.
  - simpl. by rewrite Ascii.eqb_refl.
  - simpl in Hx. apply orb_false_iff in Hx as [Hc Hx].
    change (split_max sep (S k) (String c x ++ String sep y))
      with (if Ascii.eqb c sep then "" :: split_max sep k (x ++ String sep y)
            else match split_max sep (S k) (x ++ String sep y) with
                 | part :: parts => String c part :: parts
                 | [] => [String c ""]
                 end).
    by rewrite Hc, (IH Hx).
Qed.

(** ** The loops over git's output *)

Section GitLoops.

Import Git.

Lemma status_lines_error lines e :
  status_lines lines = Raise e -> e = "IndexError: string index out of range".
Proof.
  induction lines as [|line rest IH]; simpl; [done |].
  destruct (String.eqb (strip line) ""); [done |].
  destruct (String.eqb (strip (take_chars 2 line)) "??").
  { destruct (status_lines rest) as [[cs us]|e']; [done |]. intros [= <-]. by apply IH. }
  unfold char_at.
  destruct (String.get 0 _); [| by intros [= <-]].
  destruct (String.get 1 _); [| by intros [= <-]].
  destruct (status_lines rest) as [[cs us]|e']; [done |]. intros [= <-]. by apply IH.
Qed.

(** One line whose status code has a blank column is enough for the
    loop to raise. *)
Lemma status_lines_raises lines line :
  In line lines -> strip line <> "" ->
  String.length (strip (take_chars 2 line)) < 2 ->
  status_lines lines = Raise "IndexError: string index out of range".
Proof.
  intros Hin Hne Hlen. induction lines as [|l rest IH]; [done |].
  assert (Hrest : l = line \/ status_lines rest
                              = Raise "IndexError: string index out of range").
  { destruct Hin as [-> | Hin]; [by left | right; by apply IH]. }
  clear IH Hin. simpl.
  destruct (String.eqb (strip l) "") eqn:Hblank.
  { destruct Hrest as [-> | Hrest]; [| done].
    apply String.eqb_eq in Hblank. done. }
  destruct (String.eqb (strip (take_chars 2 l)) "??") eqn:Hq.
  { destruct Hrest as [-> | ->]; [| done].
    apply String.eqb_eq in Hq. rewrite Hq in Hlen. simpl in Hlen. lia. }
  unfold char_at.
  destruct (String.get 0 (strip (take_chars 2 l))) as [c0|] eqn:H0; [| done].
  destruct (String.get 1 (strip (take_chars 2 l))) as [c1|] eqn:H1; [| done].
  destruct Hrest as [-> | ->]; [| done].
  destruct (strip (take_chars 2 line)) as [|a [|b t]]; simpl in *; try done; lia.
Qed.

(** Every entry the loop makes is marked as staged. *)
Lemma status_lines_staged lines cs us :
  status_lines lines = Ok (cs, us) -> Forall (fun c => staged c = true) cs.
Proof.
  revert cs us. induction lines as [|line rest IH]; simpl; intros cs us.
  { by intros [= <- <-]. }
  destruct (String.eqb (strip line) ""); [by apply IH |].
  destruct (String.eqb (strip (take_chars 2 line)) "??").
  { destruct (status_lines rest) as [[cs' us']|e']; [| done].
    intros [= <- <-]. by apply (IH cs' us'). }
  unfold char_at.
  destruct (String.get 0 _) as [c0|] eqn:H0; [| done].
  destruct (String.get 1 _); [| done].
  destruct (status_lines rest) as [[cs' us']|e']; [| done].
  intros [= <- <-]. constructor; [| by apply (IH cs' us')].
  simpl. apply strip_first in H0.
  destruct (Ascii.eqb_spec c0 " ") as [-> |]; [by vm_compute in H0 | done].
Qed.

(** No entry of the loop is empty or begins with the marker of the
    current branch or a blank. *)
Lemma branch_lines_entries lines :
  Forall (fun b => exists c r, b = String c r /\ c <> "*"%char /\ c <> " "%char)
         (branch_lines lines).
Proof.
  induction lines as [|line rest IH]; simpl; [constructor |].
  destruct (String.eqb (strip line) ""); simpl; [done |].
  destruct (lstrip_chars "* " (strip line)) as [|c r] eqn:Hb; simpl; [done |].
  constructor; [| done]. exists c, r. split; [done |].
  apply lstrip_by_first in Hb. simpl in Hb.
  apply orb_false_iff in Hb as [H1 Hb]. apply orb_false_iff in Hb as [H2 _].
  split; intros ->; by vm_compute in H1, H2.
Qed.

(** X22. The loop of [get_branches] recovers the names from git's
    listing: for branch names that are not empty, have no white space at
    their ends and do not begin with an asterisk, the lines git prints,
    with the marker of the current branch or two blanks in front, are
    read back as exactly the names, in order. *)
Theorem branch_lines_recover_names (listing : list (bool * string)) :
  Forall (fun e => e.2 <> "" /\ strip e.2 = e.2 /\ lstrip_chars "* " e.2 = e.2)
         listing ->
  branch_lines (map (fun e => branch_format e.1 e.2) listing) = map snd listing.
Proof.
  induction 1 as [|[current n] rest (Hne & Hs & Hm) _ IH]; [done |].
  simpl in Hne, Hs, Hm.
  destruct (strip_fixed n Hs) as [Hl Hr].
  assert (Hline : strip (branch_format current n)
                  = if current then String "*" (String " " n) else n).
  { unfold branch_format, strip. destruct current.
    - change (lstrip_by is_space ("* " ++ n)) with (String "*" (String " " n)).
      apply rstrip_by_cons; [| done]. by apply rstrip_by_cons.
    - change (lstrip_by is_space ("  " ++ n)) with (lstrip_by is_space n).
      by rewrite Hl, Hr. }
  change (branch_lines (map (fun e => branch_format e.1 e.2) ((current, n) :: rest)))
    with (if negb (String.eqb (strip (branch_format current n)) "") then
            if negb (String.eqb (lstrip_chars "* " (strip (branch_format current n))) "")
            then lstrip_chars "* " (strip (branch_format current n))
                 :: branch_lines (map (fun e => branch_format e.1 e.2) rest)
            else branch_lines (map (fun e => branch_format e.1 e.2) rest)
          else branch_lines (map (fun e => branch_format e.1 e.2) rest)).
  rewrite Hline, IH.
  assert (Hstrip : lstrip_chars "* " (if current then String "*" (String " " n) else n) = n).
  { destruct current; [| done]. exact Hm. }
  rewrite Hstrip.
  apply String.eqb_neq in Hne. rewrite Hne. simpl.
  destruct current; simpl; [done |]. by rewrite Hne.
Qed.

(** X23. The loop of [get_history] reads back the commits git printed:
    for commits whose hash, author and date hold no bar, each line gives
    the first seven characters of the hash and the stripped author, date
    and subject; the subject may hold bars. *)
Theorem history_lines_recover_commits (commits : list commit_info) :
  Forall (fun c => contains_char "|" (hash c) = false
                   /\ contains_char "|" (author c) = false
                   /\ contains_char "|" (date c) = false
                   /\ strip (pretty_format c) <> "") commits ->
  history_lines (map pretty_format commits)
  = map (fun c => {| hash := take_chars 7 (hash c); message := strip (message c);
                     author := strip (author c); date := strip (date c);
                     files := [] |}) commits.
Proof.
  induction 1 as [|c rest (Hh & Ha & Hd & Hne) _ IH]; [done |].
  assert (Hsplit : split_max "|" 3 (pretty_format c)
                   = [hash c; author c; date c; message c]).
  { unfold pretty_format.
    change (hash c ++ "|" ++ author c ++ "|" ++ date c ++ "|" ++ message c)
      with (hash c ++ String "|" (author c ++ String "|" (date c ++ String "|" (message c)))).
    rewrite (split_max_app "|" 2 (hash c)) by done.
    rewrite (split_max_app "|" 1 (author c)) by done.
    rewrite (split_max_app "|" 0 (date c)) by done.
    by destruct (message c). }
  change (history_lines (map pretty_format (c :: rest)))
    with (if String.eqb (strip (pretty_format c)) ""
          then history_lines (map pretty_format rest)
          else match split_max "|" 3 (pretty_format c) with
               | [commit_hash; an; ad; s] =>
                   {| hash := take_chars 7 commit_hash; message := strip s;
                      author := strip an; date := strip ad; files := [] |}
                   :: history_lines (map pretty_format rest)
               | _ => history_lines (map pretty_format rest)
               end).
  apply String.eqb_neq in Hne. rewrite Hne, Hsplit, IH. done.
Qed.

End GitLoops.

(** ** The operations *)

Section GitOperations.

Import Git.

Variable World : Type.
Variable subprocess_run : World -> string -> list string -> run_outcome * World.
Variable question : World -> button * World.
Variable get_repo_root : World -> string -> option string.

Local Abbreviation run_git := (_run_git_command World subprocess_run question).
Local Abbreviation available := (check_git_available World question).
Local Abbreviation root_of := (repo_root_of World get_repo_root).
Local Abbreviation init := (init_repo World subprocess_run question).
Local Abbreviation commit_ := (commit World subprocess_run question get_repo_root).
Local Abbreviation branch_ := (create_branch World subprocess_run question get_repo_root).
Local Abbreviation checkout_ := (checkout_branch World subprocess_run question get_repo_root).
Local Abbreviation pull_ := (pull World subprocess_run question get_repo_root).
Local Abbreviation push_ := (push World subprocess_run question get_repo_root).
Local Abbreviation status_ := (get_status World subprocess_run question get_repo_root).
Local Abbreviation branches_ := (get_branches World subprocess_run question get_repo_root).
Local Abbreviation history_ := (get_history World subprocess_run question get_repo_root).
Local Abbreviation nonzero := (exits_nonzero World subprocess_run).

Lemma available_installed st show :
  git_installed st = true -> available show st = (Ok true, st).
Proof using Type.
  intros H. unfold check_git_available, bind, get, ret. by rewrite H.
Qed.

Lemma available_missing st :
  git_installed st = false -> available false st = (Ok false, st).
Proof using Type.
  intros H. unfold check_git_available, bind, get, ret. by rewrite H.
Qed.

Lemma root_of_eq st p :
  root_of p st = (Ok (found (get_repo_root (world st) p)), st).
Proof using Type. done. Qed.

(** With git installed, [_run_git_command] runs the command and turns
    the outcome into a dict. *)
Lemma run_git_installed st cwd args :
  git_installed st = true ->
  run_git cwd args st
  = (Ok match (subprocess_run (world st) cwd args).1 with
        | Completed returncode stdout stderr =>
            Ran returncode (strip stdout) (strip stderr)
        | TimeoutExpired => NotRun "Таймаут выполнения команды"
        | OtherException e => NotRun e
        end,
     set_world (subprocess_run (world st) cwd args).2 st).
Proof using Type.
  intros H. unfold _run_git_command, bind, get, in_world, ret. rewrite H. simpl.
  by destruct (subprocess_run (world st) cwd args).1.
Qed.

Lemma run_git_nonzero st cwd args :
  git_installed st = true -> nonzero (world st) cwd args ->
  exists returncode stdout stderr,
    returncode <> 0%Z
    /\ run_git cwd args st
       = (Ok (Ran returncode stdout stderr),
          set_world (subprocess_run (world st) cwd args).2 st).
Proof using Type.
  intros H Hn. rewrite (run_git_installed st cwd args H).
  unfold exits_nonzero in Hn.
  destruct (subprocess_run (world st) cwd args).1 as [rc out err| |]; try done.
  by exists rc, (strip out), (strip err).
Qed.

Local Ltac key_error Hi Hn :=
  let rc := fresh "rc" in
  let out := fresh "out" in
  let err := fresh "err" in
  let Hrc := fresh "Hrc" in
  let Hrun := fresh "Hrun" in
  destruct (run_git_nonzero _ _ _ Hi Hn) as (rc & out & err & Hrc & Hrun);
  apply Z.eqb_neq in Hrc;
  unfold bind; rewrite (available_installed _ _ Hi), ?root_of_eq; simpl.

(** X24. A git command that fails is not reported: when git is
    installed and the command exits with a status other than 0,
    [init_repo], [commit], [create_branch], [checkout_branch], [pull] and
    [push] raise [KeyError], because the dict of a command that ran has
    no key [error]; they emit no [git_error] signal and write no log
    line. *)
Theorem git_failure_raises_key_error
    (st : GitManager World) (p msg branch_name : string) :
  git_installed st = true ->
  let key_error (r : result bool * GitManager World) :=
    r.1 = Raise "KeyError: 'error'" /\ shown r.2 = shown st in
  let key_error' (r : result git_result * GitManager World) :=
    r.1 = Raise "KeyError: 'error'" /\ shown r.2 = shown st in
  (nonzero (world st) p ["init"] -> key_error (init p st))
  /\ forall repo_root,
       found (get_repo_root (world st) p) = Some repo_root ->
       (nonzero (world st) repo_root ["commit"; "-m"; msg] ->
        key_error (commit_ p msg st))
       /\ (nonzero (world st) repo_root ["branch"; branch_name] ->
           key_error (branch_ p branch_name st))
       /\ (nonzero (world st) repo_root ["checkout"; branch_name] ->
           key_error (checkout_ p branch_name st))
       /\ (nonzero (world st) repo_root ["pull"] -> key_error' (pull_ p st))
       /\ (nonzero (world st) repo_root ["push"] -> key_error' (push_ p st)).
Proof.
  intros Hi key_error key_error'. subst key_error key_error'. simpl. split.
  - intros Hn. unfold init_repo. key_error Hi Hn.
    rewrite Hrun. simpl. by rewrite Hrc.
  - intros repo_root Hroot.
    split; [| split; [| split; [| split]]]; intros Hn.
    + unfold commit. key_error Hi Hn.
      rewrite Hroot, Hrun. simpl. by rewrite Hrc.
    + unfold create_branch. key_error Hi Hn.
      rewrite Hroot, Hrun. simpl. by rewrite Hrc.
    + unfold checkout_branch. key_error Hi Hn.
      rewrite Hroot, Hrun. simpl. by rewrite Hrc.
    + unfold pull, transfer. key_error Hi Hn.
      rewrite Hroot, Hrun. simpl. by rewrite Hrc.
    + unfold push, transfer. key_error Hi Hn.
      rewrite Hroot, Hrun. simpl. by rewrite Hrc.
Qed.

(** X25. [get_status] raises [IndexError] as soon as git reports a file
    whose status code has a blank in one of its two columns, as it does
    for a file that is only modified or only staged: the code is stripped
    before its two characters are read.  No status is emitted. *)
Theorem get_status_raises_on_blank_status_column
    (st : GitManager World) (p repo_root out err bout berr line : string) :
  git_installed st = true ->
  found (get_repo_root (world st) p) = Some repo_root ->
  (subprocess_run (world st) repo_root ["status"; "--porcelain"]).1
  = Completed 0 out err ->
  (subprocess_run (subprocess_run (world st) repo_root ["status"; "--porcelain"]).2
     repo_root ["branch"; "--show-current"]).1 = Completed 0 bout berr ->
  In line (split_char LF (strip out)) -> strip line <> "" ->
  String.length (strip (take_chars 2 line)) < 2 ->
  (status_ p st).1 = Raise "IndexError: string index out of range"
  /\ shown (status_ p st).2 = shown st.
Proof.
  intros Hi Hroot Hs Hb Hin Hne Hlen.
  unfold get_status, bind. rewrite root_of_eq. simpl. rewrite Hroot.
  rewrite (available_installed _ _ Hi). simpl.
  rewrite (run_git_installed _ _ _ Hi), Hs.
  rewrite run_git_installed by done. simpl. rewrite Hb. simpl.
  unfold lift. by rewrite (status_lines_raises _ line Hin Hne Hlen).
Qed.

(** X26. When [get_status] does return a status, every changed file in
    it is marked as staged, whatever git reported, and the branch is
    never the empty text. *)
Theorem get_status_marks_everything_staged
    (st : GitManager World) (p repo_root branch : string) (has_changes : bool)
    (changed_files : list changed_file) (untracked_files : list string) :
  (status_ p st).1
  = Ok (repo_status repo_root branch has_changes changed_files untracked_files) ->
  Forall (fun c => staged c = true) changed_files /\ branch <> "".
Proof.
  unfold get_status, bind. rewrite root_of_eq. simpl.
  destruct (found (get_repo_root (world st) p)) as [root|]; [| done].
  destruct (git_installed st) eqn:Hi.
  2: { by rewrite (available_missing _ Hi). }
  rewrite (available_installed _ _ Hi). simpl.
  rewrite (run_git_installed _ _ _ Hi).
  rewrite run_git_installed by done. simpl.
  destruct (subprocess_run (world st) root ["status"; "--porcelain"]) as [o1 w1].
  simpl.
  destruct (subprocess_run w1 root ["branch"; "--show-current"]) as [o2 w2].
  simpl.
  destruct o1 as [rc1 out1 err1| |], o2 as [rc2 out2 err2| |]; simpl;
    try done; try (by rewrite orb_true_r);
    try (by destruct (rc1 =? 0)%Z).
  destruct (rc1 =? 0)%Z, (rc2 =? 0)%Z; simpl; try done.
  unfold lift.
  destruct (status_lines (split_char LF (strip out1))) as [[cs us]|e] eqn:Hp;
    simpl; [| done].
  intros [= <- <- <- <- <-]. split.
  - by apply (status_lines_staged _ _ _ Hp).
  - destruct (String.eqb (strip out2) "") eqn:He; [done |].
    by apply String.eqb_neq.
Qed.

Lemma length_take_chars n s : String.length (take_chars n s) <= n.
Proof using Type.
  clear. unfold take_chars. revert s.
  induction n as [|n IH]; intros [|c s]; simpl; try lia.
  specialize (IH s). lia.
Qed.

Lemma history_lines_entries lines :
  Forall (fun c => String.length (hash c) <= 7 /\ files c = []) (history_lines lines).
Proof using Type.
  clear. induction lines as [|line rest IH]; simpl; [constructor |].
  destruct (String.eqb (strip line) ""); [done |].
  destruct (split_max "|" 3 line) as [|h [|a [|d [|s [|]]]]]; try done.
  constructor; [| done]. simpl. split; [apply length_take_chars | done].
Qed.

(** X27. [get_branches] and [get_history] never raise, whatever git
    prints and however it ends.  No branch in the answer is empty or
    begins with an asterisk or a blank; every commit in the answer has a
    hash of at most seven characters and an empty list of files. *)
Theorem git_listings_never_raise (st : GitManager World) (p limit_text : string) :
  (exists l, (branches_ p st).1 = Ok l
     /\ Forall (fun b => exists c r, b = String c r /\ c <> "*"%char /\ c <> " "%char) l)
  /\ (exists h, (history_ p limit_text st).1 = Ok h
        /\ Forall (fun c => String.length (hash c) <= 7 /\ files c = []) h).
Proof.
  split.
  - unfold get_branches, bind.
    destruct (git_installed st) eqn:Hi.
    2: { rewrite (available_missing _ Hi). simpl. by exists []. }
    rewrite (available_installed _ _ Hi). simpl.
    destruct (found (get_repo_root (world st) p)) as [root|]; [| by exists []].
    rewrite (run_git_installed _ _ _ Hi). simpl.
    destruct (subprocess_run (world st) root ["branch"; "--list"]).1
      as [rc out err| |]; simpl; try (by exists []).
    destruct (rc =? 0)%Z; simpl; [| by exists []].
    eexists. split; [reflexivity | apply branch_lines_entries].
  - unfold get_history, bind.
    destruct (git_installed st) eqn:Hi.
    2: { rewrite (available_missing _ Hi). simpl. by exists []. }
    rewrite (available_installed _ _ Hi). simpl.
    destruct (found (get_repo_root (world st) p)) as [root|]; [| by exists []].
    rewrite (run_git_installed _ _ _ Hi). simpl.
    destruct (subprocess_run (world st) root _).1
      as [rc out err| |]; simpl; try (by exists []).
    destruct (rc =? 0)%Z; simpl; [| by exists []].
    eexists. split; [reflexivity | apply history_lines_entries].
Qed.

(** X28. Without git the three queries answer at once: they show no
    dialog, run nothing and leave the manager as it is.  [get_status]
    says whether the path lies in a repository, the other two answer the
    empty list. *)
Theorem git_queries_without_git (st : GitManager World) (p limit_text : string) :
  git_installed st = false ->
  status_ p st
  = (Ok match found (get_repo_root (world st) p) with
        | Some _ => git_unavailable
        | None => not_git
        end, st)
  /\ branches_ p st = (Ok [], st)
  /\ history_ p limit_text st = (Ok [], st).
Proof.
  intros Hi. repeat split.
  - unfold get_status, bind. rewrite root_of_eq. simpl.
    destruct (found _); [| done]. by rewrite (available_missing _ Hi).
  - unfold get_branches, bind. by rewrite (available_missing _ Hi).
  - unfold get_history, bind. by rewrite (available_missing _ Hi).
Qed.

(** ** After the user declined *)

Lemma not_asked_refl (st : GitManager World) :
  user_declined_git st = true -> not_asked st st.
Proof using Type.
  intros H. split; [done |]. exists []. split; [by rewrite app_nil_r | by intros []].
Qed.

Lemma not_asked_trans (st1 st2 st3 : GitManager World) :
  not_asked st1 st2 -> not_asked st2 st3 -> not_asked st1 st3.
Proof using Type.
  intros (_ & es1 & H1 & N1) (Hd & es2 & H2 & N2). split; [done |].
  exists (es1 ++ es2)%list. split.
  - by rewrite H2, H1, app_assoc.
  - rewrite in_app_iff. tauto.
Qed.

Lemma keeps_refusal_ret {A} (a : A) : keeps_refusal (@ret World A a).
Proof using Type. intros st H. by apply not_asked_refl. Qed.

Lemma keeps_refusal_lift {A} (r : result A) : keeps_refusal (@lift World A r).
Proof using Type. intros st H. by apply not_asked_refl. Qed.

Lemma keeps_refusal_emit e : e <> question_dialog -> keeps_refusal (@emit World e).
Proof using Type.
  intros He st H. split; [done |]. exists [e]. split; [done |].
  intros [-> | []]. done.
Qed.

Lemma keeps_refusal_in_world {A} (f : World -> A * World) :
  keeps_refusal (in_world World f).
Proof using Type.
  intros st H. split; [done |]. exists []. split; [by rewrite app_nil_r | by intros []].
Qed.

Lemma keeps_refusal_bind {A B} (c : G World A) (k : A -> G World B) :
  keeps_refusal c -> (forall a, keeps_refusal (k a)) -> keeps_refusal (bind World c k).
Proof using Type.
  intros Hc Hk st H. unfold bind. specialize (Hc st H).
  destruct (c st) as [[a|e] st1]; simpl in *; [| done].
  eapply not_asked_trans; [exact Hc |]. apply Hk. by destruct Hc.
Qed.

Lemma keeps_refusal_get {A} (k : GitManager World -> G World A) :
  (forall s, user_declined_git s = true -> keeps_refusal (k s)) ->
  keeps_refusal (bind World (get World) k).
Proof using Type. intros Hk st H. unfold bind, get. by apply Hk. Qed.

Lemma keeps_refusal_available show : keeps_refusal (available show).
Proof using Type.
  unfold check_git_available. apply keeps_refusal_get. intros s Hs.
  rewrite Hs, andb_false_r.
  apply keeps_refusal_bind; intros; apply keeps_refusal_ret.
Qed.

Lemma keeps_refusal_root p : keeps_refusal (root_of p).
Proof using Type.
  unfold repo_root_of. apply keeps_refusal_get. intros s Hs. apply keeps_refusal_ret.
Qed.

Lemma keeps_refusal_run cwd args : keeps_refusal (run_git cwd args).
Proof using Type.
  unfold _run_git_command. apply keeps_refusal_get. intros s Hs. rewrite Hs. simpl.
  destruct (negb (git_installed s)).
  - apply keeps_refusal_bind; intros; apply keeps_refusal_ret.
  - apply keeps_refusal_bind; [apply keeps_refusal_in_world |].
    intros [| |]; apply keeps_refusal_ret.
Qed.

Local Ltac refusal :=
  repeat first
    [ apply keeps_refusal_ret | apply keeps_refusal_lift
    | apply keeps_refusal_available | apply keeps_refusal_root
    | apply keeps_refusal_run
    | apply keeps_refusal_emit; discriminate
    | apply keeps_refusal_bind; [| intros ?]
    | match goal with
      | |- keeps_refusal (if ?b then _ else _) => destruct b
      | |- keeps_refusal (match ?x with _ => _ end) => destruct x
      end ].

(** X29. Once the user has declined to install git, no operation asks
    again and none withdraws the refusal: the question dialog is not
    among what the operation shows, and [user_declined_git] is still set
    afterwards. *)
Theorem declined_user_is_not_asked_again
    (st : GitManager World) (p msg branch_name limit_text : string) :
  user_declined_git st = true ->
  not_asked st (init p st).2
  /\ not_asked st (commit_ p msg st).2
  /\ not_asked st (branch_ p branch_name st).2
  /\ not_asked st (checkout_ p branch_name st).2
  /\ not_asked st (pull_ p st).2
  /\ not_asked st (push_ p st).2
  /\ not_asked st (status_ p st).2
  /\ not_asked st (branches_ p st).2
  /\ not_asked st (history_ p limit_text st).2.
Proof.
  intros H.
  assert (K1 : keeps_refusal (init p)) by (unfold init_repo, report_error; refusal).
  assert (K2 : keeps_refusal (commit_ p msg)) by (unfold commit, report_error; refusal).
  assert (K3 : keeps_refusal (branch_ p branch_name))
    by (unfold create_branch, report_error; refusal).
  assert (K4 : keeps_refusal (checkout_ p branch_name))
    by (unfold checkout_branch, report_error; refusal).
  assert (K5 : keeps_refusal (pull_ p)) by (unfold pull, transfer; refusal).
  assert (K6 : keeps_refusal (push_ p)) by (unfold push, transfer; refusal).
  assert (K7 : keeps_refusal (status_ p)) by (unfold get_status; refusal).
  assert (K8 : keeps_refusal (branches_ p)) by (unfold get_branches; refusal).
  assert (K9 : keeps_refusal (history_ p limit_text)) by (unfold get_history; refusal).
  repeat split; first [by apply K1 | by apply K2 | by apply K3 | by apply K4
                      | by apply K5 | by apply K6 | by apply K7 | by apply K8
                      | by apply K9].
Qed.

End GitOperations.

(** ** Git scenarios *)

Section GitScenarios.

Import Sample.
Import Git.

Local Abbreviation init := (init_repo answers run_from press_no).
Local Abbreviation commit_ := (commit answers run_from press_no repo).
Local Abbreviation status_ := (get_status answers run_from press_no repo).
Local Abbreviation branches_ := (get_branches answers run_from press_no repo).
Local Abbreviation history_ := (get_history answers run_from press_no repo).
Local Abbreviation nonzero := (exits_nonzero answers run_from).

Lemma git_failure_raises_key_error_witness :
  let st := git_ready [(["init"], Completed 128 "" "fatal: cannot mkdir");
                       (["commit"; "-m"; "wip"], Completed 1 "nothing to commit" "")] in
  (git_installed st = true
   /\ nonzero (world st) "/repo/a" ["init"]
   /\ found (repo (world st) "/repo/a") = Some "/repo"
   /\ nonzero (world st) "/repo" ["commit"; "-m"; "wip"])
  /\ ((init "/repo/a" st).1 = Raise "KeyError: 'error'"
      /\ shown (init "/repo/a" st).2 = shown st)
  /\ ((commit_ "/repo/a" "wip" st).1 = Raise "KeyError: 'error'"
      /\ shown (commit_ "/repo/a" "wip" st).2 = shown st).
Proof.
  intros st.
  assert (H1 : git_installed st = true) by reflexivity.
  assert (H2 : nonzero (world st) "/repo/a" ["init"]) by (vm_compute; discriminate).
  assert (H3 : found (repo (world st) "/repo/a") = Some "/repo") by reflexivity.
  assert (H4 : nonzero (world st) "/repo" ["commit"; "-m"; "wip"])
    by (vm_compute; discriminate).
  split; [exact (conj H1 (conj H2 (conj H3 H4))) |].
  pose proof (git_failure_raises_key_error answers run_from press_no repo st
                "/repo/a" "wip" "dev" H1) as [Hinit Hrest].
  exact (conj (Hinit H2) (proj1 (Hrest "/repo" H3) H4)).
Defined.

Lemma get_status_raises_on_blank_status_column_witness :
  let st := git_ready [(["status"; "--porcelain"],
                        Completed 0 (" M a.txt" ++ String LF "") "")] in
  (git_installed st = true
   /\ found (repo (world st) "/repo/a") = Some "/repo"
   /\ (run_from (world st) "/repo" ["status"; "--porcelain"]).1
      = Completed 0 (" M a.txt" ++ String LF "") ""
   /\ (run_from (run_from (world st) "/repo" ["status"; "--porcelain"]).2
         "/repo" ["branch"; "--show-current"]).1 = Completed 0 "" ""
   /\ In "M a.txt" (split_char LF (strip (" M a.txt" ++ String LF "")))
   /\ strip "M a.txt" <> ""
   /\ String.length (strip (take_chars 2 "M a.txt")) < 2)
  /\ (status_ "/repo/a" st).1 = Raise "IndexError: string index out of range"
  /\ shown (status_ "/repo/a" st).2 = shown st.
Proof.
  intros st.
  assert (H1 : git_installed st = true) by reflexivity.
  assert (H2 : found (repo (world st) "/repo/a") = Some "/repo") by reflexivity.
  assert (H3 : (run_from (world st) "/repo" ["status"; "--porcelain"]).1
               = Completed 0 (" M a.txt" ++ String LF "") "")
    by (vm_compute; reflexivity).
  assert (H4 : (run_from (run_from (world st) "/repo" ["status"; "--porcelain"]).2
                  "/repo" ["branch"; "--show-current"]).1 = Completed 0 "" "")
    by (vm_compute; reflexivity).
  assert (H5 : In "M a.txt" (split_char LF (strip (" M a.txt" ++ String LF ""))))
    by (vm_compute; left; reflexivity).
  assert (H6 : strip "M a.txt" <> "") by (vm_compute; discriminate).
  assert (H7 : String.length (strip (take_chars 2 "M a.txt")) < 2)
    by (vm_compute; lia).
  split; [exact (conj H1 (conj H2 (conj H3 (conj H4 (conj H5 (conj H6 H7)))))) |].
  exact (get_status_raises_on_blank_status_column answers run_from press_no repo
           st "/repo/a" "/repo" _ _ _ _ "M a.txt" H1 H2 H3 H4 H5 H6 H7).
Defined.

Lemma get_status_marks_everything_staged_witness :
  let st := git_ready [(["status"; "--porcelain"],
                        Completed 0 ("MM a.txt" ++ String LF "?? b.txt") "");
                       (["branch"; "--show-current"], Completed 0 "main" "")] in
  let changed := [{| path := "a.txt"; change_type := "modified"; staged := true |}] in
  (status_ "/repo/a" st).1 = Ok (repo_status "/repo" "main" true changed ["b.txt"])
  /\ Forall (fun c => staged c = true) changed /\ "main" <> "".
Proof.
  intros st changed.
  assert (H : (status_ "/repo/a" st).1
              = Ok (repo_status "/repo" "main" true changed ["b.txt"]))
    by (vm_compute; reflexivity).
  split; [exact H |].
  exact (get_status_marks_everything_staged answers run_from press_no repo
           st "/repo/a" "/repo" "main" true changed ["b.txt"] H).
Defined.

Lemma branch_lines_recover_names_witness :
  let listing := [(true, "main"); (false, "feature/x")] in
  Forall (fun e => e.2 <> "" /\ strip e.2 = e.2 /\ lstrip_chars "* " e.2 = e.2)
         listing
  /\ branch_lines ["* main"; "  feature/x"] = ["main"; "feature/x"].
Proof.
  intros listing.
  assert (H : Forall (fun e => e.2 <> "" /\ strip e.2 = e.2
                               /\ lstrip_chars "* " e.2 = e.2) listing).
  { repeat constructor; simpl; try discriminate; vm_compute; reflexivity. }
  split; [exact H |].
  exact (branch_lines_recover_names listing H).
Defined.

Lemma history_lines_recover_commits_witness :
  let c := {| hash := "0123456789abcdef"; message := "fix a|b "; author := "Ann";
              date := "2024-01-02"; files := [] |} in
  Forall (fun c => contains_char "|" (hash c) = false
                   /\ contains_char "|" (author c) = false
                   /\ contains_char "|" (date c) = false
                   /\ strip (pretty_format c) <> "") [c]
  /\ history_lines ["0123456789abcdef|Ann|2024-01-02|fix a|b "]
     = [{| hash := "0123456"; message := "fix a|b"; author := "Ann";
           date := "2024-01-02"; files := [] |}].
Proof.
  intros c.
  assert (H : Forall (fun c => contains_char "|" (hash c) = false
                   /\ contains_char "|" (author c) = false
                   /\ contains_char "|" (date c) = false
                   /\ strip (pretty_format c) <> "") [c]).
  { repeat constructor; vm_compute; discriminate. }
  split; [exact H |].
  exact (history_lines_recover_commits [c] H).
Defined.

Lemma git_queries_without_git_witness :
  let st := git_declined [] in
  git_installed st = false
  /\ status_ "/repo/a" st = (Ok git_unavailable, st)
  /\ branches_ "/repo/a" st = (Ok [], st)
  /\ history_ "/repo/a" "20" st = (Ok [], st).
Proof.
  intros st.
  assert (H : git_installed st = false) by reflexivity.
  split; [exact H |].
  exact (git_queries_without_git answers run_from press_no repo st "/repo/a" "20" H).
Defined.

Lemma declined_user_is_not_asked_again_witness :
  let st := git_declined [] in
  user_declined_git st = true
  /\ not_asked st (init "/repo/a" st).2
  /\ not_asked st (commit_ "/repo/a" "wip" st).2
  /\ not_asked st (status_ "/repo/a" st).2.
Proof.
  intros st.
  assert (H : user_declined_git st = true) by reflexivity.
  split; [exact H |].
  destruct (declined_user_is_not_asked_again answers run_from press_no repo st
              "/repo/a" "wip" "dev" "20" H) as (K1 & K2 & _ & _ & _ & _ & K7 & _).
  exact (conj K1 (conj K2 K7)).
Defined.

End GitScenarios.
